(** * RIPv2 simulation: wire codec, routing table and protocol engine

    A shallow embedding of [src/packet.py] and [src/router.py].

    - Python integers are [Z]; byte strings are [list byte].
    - [struct.pack] / [struct.unpack] are partial: [None] stands for the
      [struct.error] the Python functions raise.
    - Python dictionaries are insertion-ordered association lists with
      unique keys ([dict_set] overwrites in place or appends).
    - [datetime.datetime.now()] is an explicit clock reading [now : Z],
      counted in microseconds (the resolution of [datetime]); one call of a
      router method reads one value of the clock.
    - The router's side effects (log snapshots, datagrams handed to
      [sendto], [threading.Timer] objects) are recorded in a trace kept in
      the router state; an exception leaves the state as it was when raised. *)

From Stdlib Require Import ZArith List Bool Lia.
From Stdlib Require Import Strings.Byte.
From Stdlib Require Import Sorting.Permutation.
Import ListNotations.
Local Open Scope Z_scope.

Set Implicit Arguments.

(* ------------------------------------------------------------------ *)
(** ** Byte strings and [struct] *)

Definition Z_of_byte (b : byte) : Z := Z.of_N (Byte.to_N b).

Definition byte_of_Z (z : Z) : byte :=
  match Byte.of_N (Z.to_N (z mod 256)) with
  | Some b => b
  | None => x00
  end.

(** Big-endian ("!") layout of an unsigned integer on [n] bytes. *)
Fixpoint be_bytes (n : nat) (v : Z) : list byte :=
  match n with
  | O => []
  | S k => byte_of_Z (v / 256 ^ Z.of_nat k) :: be_bytes k v
  end.

Fixpoint be_value (bs : list byte) : Z :=
  match bs with
  | [] => 0
  | b :: rest => Z_of_byte b * 256 ^ Z.of_nat (length rest) + be_value rest
  end.

(** One unsigned field of [struct.pack]: out of range raises [struct.error]. *)
Definition pack_uint (n : nat) (v : Z) : option (list byte) :=
  if (0 <=? v) && (v <? 256 ^ Z.of_nat n) then Some (be_bytes n v) else None.

(** Python's [data[s:e]] for [0 <= s <= e]. *)
Definition slice (A : Type) (s e : nat) (l : list A) : list A :=
  firstn (e - s) (skipn s l).

Definition opt_bind (A B : Type) (o : option A) (f : A -> option B) : option B :=
  match o with
  | Some a => f a
  | None => None
  end.

Notation "x <-? o ;; k" := (opt_bind o (fun x => k))
  (at level 61, o at next level, right associativity).

(* ------------------------------------------------------------------ *)
(** ** class Header *)

Module Header.

Record t : Type := mk { cmd : Z; ver : Z; src : Z }.

Definition SIZE : nat := 4.            (* struct.calcsize("!BBH") *)
Definition COMMAND_RESPONSE : Z := 2.
Definition VERSION : Z := 2.

(** [struct.unpack("!BBH", raw_data)]. *)
Definition _from_network (raw_data : list byte) : option t :=
  if Nat.eqb (length raw_data) SIZE then
    Some {| cmd := be_value (slice 0 1 raw_data);
            ver := be_value (slice 1 2 raw_data);
            src := be_value (slice 2 4 raw_data) |}
  else None.

Definition _from_host (router_id : Z) : t :=
  {| cmd := COMMAND_RESPONSE; ver := VERSION; src := router_id |}.

(** [Header(router_id=...)]: with a falsy [router_id] (0) neither branch of
    the constructor runs and the object has no [cmd], [ver] or [src];
    [None] stands for that attribute-less header. *)
Definition init_host (router_id : Z) : option t :=
  if router_id =? 0 then None else Some (_from_host router_id).

(** [struct.pack("!BBH", cmd, ver, src)]. *)
Definition serialize (h : t) : option (list byte) :=
  c <-? pack_uint 1 (cmd h) ;;
  v <-? pack_uint 1 (ver h) ;;
  s <-? pack_uint 2 (src h) ;;
  Some (c ++ v ++ s).

End Header.

(* ------------------------------------------------------------------ *)
(** ** class RTE *)

Module RTE.

Record t : Type := mk {
  afi : Z;
  tag : Z;
  addr : Z;
  mask : Z;
  next_hop : Z;
  metric : Z;
  changed : bool;
  imported : bool;
  is_garbage : bool;
  timeout : option Z        (* [None] for imported entries *)
}.

Definition AF_INET : Z := 2.
Definition SIZE : nat := 20.           (* struct.calcsize("!HHIIII") *)
Definition MIN_METRIC : Z := 0.
Definition MAX_METRIC : Z := 16.

Definition set_next_hop (nh : Z) (r : t) : t :=
  mk (afi r) (tag r) (addr r) (mask r) nh (metric r)
     (changed r) (imported r) (is_garbage r) (timeout r).

Definition set_metric (m : Z) (r : t) : t :=
  mk (afi r) (tag r) (addr r) (mask r) (next_hop r) m
     (changed r) (imported r) (is_garbage r) (timeout r).

Definition set_changed (c : bool) (r : t) : t :=
  mk (afi r) (tag r) (addr r) (mask r) (next_hop r) (metric r)
     c (imported r) (is_garbage r) (timeout r).

Definition set_is_garbage (g : bool) (r : t) : t :=
  mk (afi r) (tag r) (addr r) (mask r) (next_hop r) (metric r)
     (changed r) (imported r) g (timeout r).

Definition set_timeout (tm : option Z) (r : t) : t :=
  mk (afi r) (tag r) (addr r) (mask r) (next_hop r) (metric r)
     (changed r) (imported r) (is_garbage r) tm.

(** [init_timeout]: imported entries carry no timestamp; every call clears
    [is_garbage]. *)
Definition init_timeout (now : Z) (r : t) : t :=
  set_is_garbage false
    (set_timeout (if imported r then None else Some now) r).

(** The timestamp and garbage flag [__init__] sets before the fields. *)
Definition fresh_timeout (now : Z) (imp : bool) : option Z :=
  if imp then None else Some now.

(** [RTE(address=..., next_hop=..., metric=..., imported=...)]. *)
Definition _from_host (now : Z) (address nh m : Z) (imp : bool) : t :=
  {| afi := AF_INET; tag := 0; addr := address; mask := 0;
     next_hop := nh; metric := m;
     changed := false; imported := imp; is_garbage := false;
     timeout := fresh_timeout now imp |}.

(** [RTE(raw_data=..., src_id=...)] on a non-empty [raw_data]:
    [struct.unpack("!HHIIII", raw_data)], then a zero next hop is replaced
    by the sender. *)
Definition _from_network (now : Z) (raw_data : list byte) (src_id : Z) : option t :=
  if Nat.eqb (length raw_data) SIZE then
    let nh := be_value (slice 12 16 raw_data) in
    Some {| afi := be_value (slice 0 2 raw_data);
            tag := be_value (slice 2 4 raw_data);
            addr := be_value (slice 4 8 raw_data);
            mask := be_value (slice 8 12 raw_data);
            next_hop := if nh =? 0 then src_id else nh;
            metric := be_value (slice 16 20 raw_data);
            changed := false; imported := false; is_garbage := false;
            timeout := fresh_timeout now false |}
  else None.

(** [struct.pack("!HHIIII", afi, tag, addr, mask, next_hop, metric)]. *)
Definition serialize (r : t) : option (list byte) :=
  a <-? pack_uint 2 (afi r) ;;
  g <-? pack_uint 2 (tag r) ;;
  d <-? pack_uint 4 (addr r) ;;
  k <-? pack_uint 4 (mask r) ;;
  n <-? pack_uint 4 (next_hop r) ;;
  m <-? pack_uint 4 (metric r) ;;
  Some (a ++ g ++ d ++ k ++ n ++ m).

(** [__eq__]: the six wire fields. *)
Definition eqb (x y : t) : bool :=
  (afi x =? afi y) && (addr x =? addr y) && (mask x =? mask y) &&
  (tag x =? tag y) && (next_hop x =? next_hop y) && (metric x =? metric y).

End RTE.

(* ------------------------------------------------------------------ *)
(** ** Exceptions *)

Inductive exn : Type :=
| KeyError          (* missing dictionary key *)
| TypeError         (* iterating [None], subtracting [None] from a datetime *)
| AttributeError    (* attribute of [None] or of an attribute-less object *)
| StructError       (* [struct.error] *)
| ConfigError.      (* [Exception("Invalid output parameters")] *)

(* ------------------------------------------------------------------ *)
(** ** class Packet *)

Module Packet.

(** [header] is [None] when the attribute holds [None] or an attribute-less
    [Header]; [rtes] is [None] when the attribute holds [None]. *)
Record t : Type := mk {
  header : option Header.t;
  rtes : option (list RTE.t)
}.

Definition _from_host (h : option Header.t) (l : option (list RTE.t)) : t :=
  {| header := h; rtes := l |}.

(** [int((datalen - Header.SIZE) / RTE.SIZE)]: [int] truncates toward zero;
    [range] of it runs that many times. *)
Definition rte_count (datalen : nat) : nat :=
  Z.to_nat (Z.quot (Z.of_nat datalen - Z.of_nat Header.SIZE) (Z.of_nat RTE.SIZE)).

(** The loop over [range(rte_count)]; each slice [data[rte_start:rte_end]]
    goes to [RTE(raw_data=..., src_id=header.src)]. *)
Fixpoint rte_loop (now : Z) (src_id : Z) (data : list byte)
         (rte_start : nat) (count : nat) : option (list RTE.t) :=
  match count with
  | O => Some []
  | S c =>
      r <-? RTE._from_network now (slice rte_start (rte_start + RTE.SIZE) data) src_id ;;
      rest <-? rte_loop now src_id data (rte_start + RTE.SIZE) c ;;
      Some (r :: rest)
  end.

(** [_from_network] on a non-empty [data] ([None]: [struct.error]). *)
Definition _from_network (now : Z) (data : list byte) : option t :=
  let datalen := length data in
  h <-? Header._from_network (slice 0 Header.SIZE data) ;;
  l <-? rte_loop now (Header.src h) data Header.SIZE (rte_count datalen) ;;
  Some {| header := Some h; rtes := Some l |}.

(** [Packet(data=...)]: empty [data] is falsy and builds
    [_from_host(None, None)]. *)
Definition init_data (now : Z) (data : list byte) : option t :=
  match data with
  | [] => Some (_from_host None None)
  | _ :: _ => _from_network now data
  end.

(** The loop [packet += rte.serialize()]. *)
Fixpoint serialize_loop (packet : list byte) (l : list RTE.t) : option (list byte) :=
  match l with
  | [] => Some packet
  | r :: rest => b <-? RTE.serialize r ;; serialize_loop (packet ++ b) rest
  end.

Definition serialize (p : t) : exn + list byte :=
  match header p with
  | None => inl AttributeError
  | Some h =>
      match Header.serialize h with
      | None => inl StructError
      | Some packet =>
          match rtes p with
          | None => inl TypeError
          | Some l =>
              match serialize_loop packet l with
              | None => inl StructError
              | Some bytes => inr bytes
              end
          end
      end
  end.

End Packet.

(* ------------------------------------------------------------------ *)
(** ** Insertion-ordered dictionaries with integer keys *)

Section Dict.

Variable V : Type.

Definition dict : Type := list (Z * V).

Fixpoint dict_get (d : dict) (k : Z) : option V :=
  match d with
  | [] => None
  | (k', v) :: rest => if k' =? k then Some v else dict_get rest k
  end.

(** [d[k] = v]: overwrite in place, or append. *)
Fixpoint dict_set (d : dict) (k : Z) (v : V) : dict :=
  match d with
  | [] => [(k, v)]
  | (k', v') :: rest =>
      if k' =? k then (k, v) :: rest else (k', v') :: dict_set rest k v
  end.

(** [del d[k]] ([None]: [KeyError]). *)
Fixpoint dict_del (d : dict) (k : Z) : option dict :=
  match d with
  | [] => None
  | (k', v') :: rest =>
      if k' =? k then Some rest
      else option_map (cons (k', v')) (dict_del rest k)
  end.

Definition dict_keys (d : dict) : list Z := map fst d.
Definition dict_values (d : dict) : list V := map snd d.

Definition dict_is_empty (d : dict) : bool :=
  match d with [] => true | _ :: _ => false end.

End Dict.

(* ------------------------------------------------------------------ *)
(** ** class Output, class RouterConfig *)

Module Output.
Record t : Type := mk { id : Z; port : Z; metric : Z }.
End Output.

Module RouterConfig.
Record t : Type := mk { id : Z; inputs : list Z; outputs : list Output.t }.
End RouterConfig.

(* ------------------------------------------------------------------ *)
(** ** class Router *)

Module Router.

(** The value stored per neighbour in [self.outputs]. *)
Record out_entry : Type := mk_out { port : Z; metric : Z }.

(** The three functions [config_timers] hands to [timer]. *)
Inductive timer_fn : Type := FnUpdate | FnCheckTimeout | FnCheckIsGarbage.

(** What a [threading.Timer] object is to call. *)
Inductive callback : Type :=
| CbUpdate (rtes : list RTE.t)      (* [self.update, [changed_rtes]] *)
| CbTimer (f : timer_fn).           (* [self.timer, [function, param]] *)

(** Observable effects, in the order they happen. *)
Inductive event : Type :=
| Log (snapshot : list RTE.t)
    (* [log_routing_table]: the self entry, then the other entries *)
| SendTo (sock : Z) (data : list byte) (dest_port : Z)
    (* [sock.sendto(data, (host, port))] *)
| TimerObj (delay : Z) (cb : callback) (started : bool).
    (* a [threading.Timer(delay, cb)]; [started] iff [.start()] is called *)

Record t : Type := mk {
  id : Z;
  inputs : dict Z;            (* port -> socket, a socket being its port *)
  outputs : dict out_entry;
  routing_table : dict RTE.t;
  changed : bool;
  end_life : bool;
  trace : list event
}.

Definition TIMER : Z := 5.
Definition ROUTE_TIMEOUT : Z := TIMER * 6.
Definition DELETE_TIMEOUT : Z := TIMER * 6.

(** [(now - stamp).total_seconds() >= secs], the clock in microseconds. *)
Definition age_ge (now stamp secs : Z) : bool := secs * 1000000 <=? now - stamp.

Definition with_table (tb : dict RTE.t) (r : t) : t :=
  mk (id r) (inputs r) (outputs r) tb (changed r) (end_life r) (trace r).

Definition with_changed (c : bool) (r : t) : t :=
  mk (id r) (inputs r) (outputs r) (routing_table r) c (end_life r) (trace r).

Definition emit (ev : event) (r : t) : t :=
  mk (id r) (inputs r) (outputs r) (routing_table r) (changed r) (end_life r)
     (trace r ++ [ev]).

(** Mutating the RTE object stored under key [k]. *)
Definition store (k : Z) (v : RTE.t) (r : t) : t :=
  with_table (dict_set (routing_table r) k v) r.

(** A method either returns or raises; the router state survives both. *)
Inductive outcome : Type :=
| Ok (r : t)
| Raise (e : exn) (r : t).

Definition state_of (o : outcome) : t :=
  match o with Ok r => r | Raise _ r => r end.

Definition raised (o : outcome) : option exn :=
  match o with Ok _ => None | Raise e _ => Some e end.

Definition and_then (o : outcome) (k : t -> outcome) : outcome :=
  match o with
  | Ok r => k r
  | Raise e r => Raise e r
  end.

Notation "o >>> k" := (and_then o k) (at level 55, left associativity).

(** [config_outputs]. *)
Fixpoint config_outputs (outs : list Output.t) (d : dict out_entry)
  : exn + dict out_entry :=
  match outs with
  | [] => inr d
  | o :: rest =>
      if negb ((1 <=? Output.metric o) && (Output.metric o <=? 16))
         || negb ((1024 <=? Output.port o) && (Output.port o <=? 49151))
      then inl ConfigError
      else config_outputs rest
             (dict_set d (Output.id o)
                (mk_out (Output.port o) (Output.metric o)))
  end.

(** [config_inputs], every socket being created and bound without error. *)
Fixpoint config_inputs (ports : list Z) (d : dict Z) : dict Z :=
  match ports with
  | [] => d
  | p :: rest => config_inputs rest (dict_set d p p)
  end.

(** [log_routing_table], the log file being open: [self.routing_table[self.id]]
    raises [KeyError] without a self entry. *)
Definition log_routing_table (r : t) : outcome :=
  match dict_get (routing_table r) (id r) with
  | None => Raise KeyError r
  | Some self_rte =>
      Ok (emit (Log (self_rte ::
                     dict_values
                       (filter (fun kv => negb (fst kv =? id r)) (routing_table r))))
               r)
  end.

(** [__init__]. *)
Definition init (now : Z) (config : RouterConfig.t) : exn + t :=
  match config_outputs (RouterConfig.outputs config) [] with
  | inl e => inl e
  | inr outs =>
      let r := {| id := RouterConfig.id config;
                  inputs := config_inputs (RouterConfig.inputs config) [];
                  outputs := outs;
                  routing_table :=
                    dict_set [] (RouterConfig.id config)
                      (RTE._from_host now (RouterConfig.id config) 0 0 true);
                  changed := false;
                  end_life := false;
                  trace := [] |} in
      match log_routing_table r with
      | Ok r' => inr r'
      | Raise e _ => inl e
      end
  end.

(** [update_route]: [current_rte] is the object stored under [k]. *)
Definition update_route (now : Z) (k : Z) (current_rte rte : RTE.t) (r : t) : t :=
  let c1 := RTE.init_timeout now current_rte in
  let c2 := RTE.set_is_garbage false c1 in
  let c3 := RTE.set_changed true c2 in
  let c4 := RTE.set_metric (RTE.metric rte) c3 in
  let c5 := RTE.set_next_hop (RTE.next_hop rte) c4 in
  with_changed true (store k c5 r).

(** The receive-path poisoning (router.py lines 205-208). *)
Definition poison_received (k : Z) (current_rte : RTE.t) (r : t) : t :=
  let c1 := RTE.set_metric RTE.MAX_METRIC current_rte in
  let c2 := RTE.set_is_garbage true c1 in
  let c3 := RTE.set_changed true c2 in
  with_changed true (store k c3 r).

(** The body of [update_routing_table]'s loop over [packet.rtes]; the two
    [return] statements of the new-route branch leave the whole method. *)
Fixpoint update_routing_table_loop (now : Z) (header : option Header.t)
         (rtes : list RTE.t) (r : t) : outcome :=
  match rtes with
  | [] => Ok r
  | rte :: rest =>
      if negb (RTE.addr rte =? id r) then
        let current_rte := dict_get (routing_table r) (RTE.addr rte) in
        match header with
        | None => Raise AttributeError r
        | Some h =>
            let rte := RTE.set_next_hop (Header.src h) rte in
            match dict_get (outputs r) (Header.src h) with
            | None => Raise KeyError r
            | Some out =>
                let rte :=
                  RTE.set_metric
                    (Z.min (RTE.metric rte + metric out) RTE.MAX_METRIC) rte in
                match current_rte with
                | None =>
                    if RTE.metric rte =? RTE.MAX_METRIC then Ok r   (* return *)
                    else
                      let rte := RTE.set_changed true rte in
                      Ok (store (RTE.addr rte) rte (with_changed true r)) (* return *)
                | Some current_rte =>
                    let r' :=
                      if RTE.next_hop rte =? RTE.next_hop current_rte then
                        if negb (RTE.metric current_rte =? RTE.metric rte)
                           && (RTE.MAX_METRIC <=? RTE.metric rte)
                        then poison_received (RTE.addr rte) current_rte r
                        else if negb (RTE.metric current_rte =? RTE.metric rte)
                        then update_route now (RTE.addr rte) current_rte rte r
                        else if negb (RTE.is_garbage current_rte)
                        then store (RTE.addr rte) (RTE.init_timeout now current_rte) r
                        else r
                      else if RTE.metric rte <? RTE.metric current_rte
                      then update_route now (RTE.addr rte) current_rte rte r
                      else r in
                    update_routing_table_loop now header rest r'
                end
            end
        end
      else update_routing_table_loop now header rest r
  end.

Definition update_routing_table (now : Z) (packet : Packet.t) (r : t) : outcome :=
  match Packet.rtes packet with
  | None => Raise TypeError r
  | Some rtes => update_routing_table_loop now (Packet.header packet) rtes r
  end.

(** The loop of [handle_inputs] over the table's values: the changed
    entries are collected and their flags cleared. The list holds the
    table's own objects, so its elements carry the cleared flag too. *)
Fixpoint collect_changed (tb : dict RTE.t) : list RTE.t * dict RTE.t :=
  match tb with
  | [] => ([], [])
  | (k, rte) :: rest =>
      let (changed_rtes, rest') := collect_changed rest in
      if RTE.changed rte
      then (RTE.set_changed false rte :: changed_rtes,
            (k, RTE.set_changed false rte) :: rest')
      else (changed_rtes, (k, rte) :: rest')
  end.

(** The loop of [handle_inputs] over the readable ports, [datagrams] being
    what [recvfrom] returns on each of them. *)
Fixpoint receive_loop (now : Z) (datagrams : list (list byte)) (r : t) : outcome :=
  match datagrams with
  | [] => Ok r
  | data :: rest =>
      match Packet.init_data now data with
      | None => Raise StructError r
      | Some packet =>
          update_routing_table now packet r >>> receive_loop now rest
      end
  end.

Definition handle_inputs (now : Z) (datagrams : list (list byte)) (r : t) : outcome :=
  receive_loop now datagrams r >>> fun r =>
  if changed r then
    log_routing_table r >>> fun r =>
    let (changed_rtes, tb) := collect_changed (routing_table r) in
    let r := with_changed false (with_table tb r) in
    let delay := 2 in
    (* the Timer object is built and dropped: no [.start()] *)
    Ok (emit (TimerObj delay (CbUpdate changed_rtes) false) r)
  else Ok r.

(** The inner loop of [update]: split horizon with poisoned reverse. *)
Fixpoint validated_rtes (now : Z) (output : Z) (rtes : list RTE.t) : list RTE.t :=
  match rtes with
  | [] => []
  | entry :: rest =>
      (if negb (RTE.next_hop entry =? output) then entry
       else RTE._from_host now (RTE.addr entry) (RTE.next_hop entry)
              RTE.MAX_METRIC (RTE.imported entry))
      :: validated_rtes now output rest
  end.

(** The outer loop of [update] over [self.outputs], [sendto] succeeding. *)
Fixpoint update_loop (now : Z) (sock : Z) (local_header : option Header.t)
         (outs : dict out_entry) (rtes : list RTE.t) (r : t) : outcome :=
  match outs with
  | [] => Ok r
  | (output, info) :: rest =>
      let packet := Packet._from_host local_header
                      (Some (validated_rtes now output rtes)) in
      match Packet.serialize packet with
      | inl e => Raise e r
      | inr bytes =>
          update_loop now sock local_header rest rtes
            (emit (SendTo sock bytes (port info)) r)
      end
  end.

Definition update (now : Z) (rtes : list RTE.t) (r : t) : outcome :=
  match dict_values (inputs r) with
  | [] => Ok r
  | sock :: _ =>
      update_loop now sock (Header.init_host (id r)) (outputs r) rtes r
  end.

(** The loop of [check_timeout]; each iteration mutates only the entry it
    visits, stored under [k]. *)
Fixpoint check_timeout_loop (now : Z) (entries : dict RTE.t) (r : t) : outcome :=
  match entries with
  | [] => Ok r
  | (k, rte) :: rest =>
      match RTE.timeout rte with
      | Some stamp =>
          if age_ge now stamp ROUTE_TIMEOUT then
            let rte := RTE.set_is_garbage true rte in
            let rte := RTE.set_changed true rte in
            let rte := RTE.set_metric RTE.MAX_METRIC rte in
            let rte := RTE.set_timeout (Some now) rte in
            log_routing_table (store k rte (with_changed true r))
              >>> check_timeout_loop now rest
          else check_timeout_loop now rest r
      | None => check_timeout_loop now rest r
      end
  end.

Definition check_timeout (now : Z) (r : t) : outcome :=
  check_timeout_loop now (routing_table r) r.

(** The first loop of [check_is_garbage]: a garbage entry without a
    timestamp makes the subtraction raise [TypeError]. *)
Fixpoint garbage_to_delete (now : Z) (rtes : list RTE.t) : exn + list Z :=
  match rtes with
  | [] => inr []
  | rte :: rest =>
      if RTE.is_garbage rte then
        match RTE.timeout rte with
        | None => inl TypeError
        | Some stamp =>
            match garbage_to_delete now rest with
            | inl e => inl e
            | inr l =>
                inr (if age_ge now stamp DELETE_TIMEOUT then RTE.addr rte :: l else l)
            end
        end
      else garbage_to_delete now rest
  end.

(** The second loop of [check_is_garbage]. *)
Fixpoint delete_loop (to_delete : list Z) (r : t) : outcome :=
  match to_delete with
  | [] => Ok r
  | entry :: rest =>
      match dict_del (routing_table r) entry with
      | None => Raise KeyError r
      | Some tb => delete_loop rest (with_table tb r)
      end
  end.

Definition check_is_garbage (now : Z) (r : t) : outcome :=
  match garbage_to_delete now (dict_values (routing_table r)) with
  | inl e => Raise e r
  | inr to_delete =>
      delete_loop to_delete r >>> fun r =>
      if (0 <? Z.of_nat (length to_delete)) then log_routing_table r else Ok r
  end.

(** [timer]: run the function, then build and start the next Timer. *)
Definition timer (now : Z) (f : timer_fn) (r : t) : outcome :=
  if end_life r then Ok r
  else
    (match f with
     | FnUpdate => update now (dict_values (routing_table r)) r
     | FnCheckTimeout => check_timeout now r
     | FnCheckIsGarbage => check_is_garbage now r
     end) >>> fun r =>
    Ok (emit (TimerObj TIMER (CbTimer f) true) r).

(** [config_timers]: the first firing of the three periodic tasks. *)
Definition config_timers (now : Z) (r : t) : outcome :=
  timer now FnUpdate r >>> timer now FnCheckTimeout >>> timer now FnCheckIsGarbage.

End Router.

(* ------------------------------------------------------------------ *)
(** * Predicates used in the statements *)

(** Fields [struct.pack] accepts. *)
Definition header_wire_ok (h : Header.t) : Prop :=
  0 <= Header.cmd h < 256 /\ 0 <= Header.ver h < 256 /\ 0 <= Header.src h < 65536.

Definition rte_wire_ok (r : RTE.t) : Prop :=
  0 <= RTE.afi r < 65536 /\ 0 <= RTE.tag r < 65536 /\
  0 <= RTE.addr r < 4294967296 /\ 0 <= RTE.mask r < 4294967296 /\
  0 <= RTE.next_hop r < 4294967296 /\ 0 <= RTE.metric r < 4294967296.

(** The self entry as [__init__] builds it. *)
Definition is_self_entry (r : Router.t) (s : RTE.t) : Prop :=
  RTE.addr s = Router.id r /\ RTE.next_hop s = 0 /\ RTE.metric s = 0 /\
  RTE.imported s = true /\ RTE.changed s = false /\
  RTE.is_garbage s = false /\ RTE.timeout s = None.

(** Every entry sits under its own [addr]. *)
Definition keys_are_addrs (tb : dict RTE.t) : Prop :=
  Forall (fun kv => RTE.addr (snd kv) = fst kv) tb.

(** What holds of the routing table between two method calls. *)
Record table_inv (r : Router.t) : Prop := {
  inv_nodup : NoDup (dict_keys (Router.routing_table r));
  inv_keys : keys_are_addrs (Router.routing_table r);
  inv_self : exists s, dict_get (Router.routing_table r) (Router.id r) = Some s
                       /\ is_self_entry r s
}.

(** How many entries of the table have the router's own id as [addr]. *)
Definition count_self (r : Router.t) : nat :=
  length (filter (fun e => RTE.addr e =? Router.id r)
            (dict_values (Router.routing_table r))).

(** One receive or one timer tick, the methods of a router running one at
    a time; an exception leaves the state it was raised in. *)
Inductive step : Router.t -> Router.t -> Prop :=
| step_receive (now : Z) (datagrams : list (list byte)) (r : Router.t) :
    step r (Router.state_of (Router.handle_inputs now datagrams r))
| step_timer (now : Z) (f : Router.timer_fn) (r : Router.t) :
    step r (Router.state_of (Router.timer now f r)).

Inductive reachable (r0 : Router.t) : Router.t -> Prop :=
| reach_refl : reachable r0 r0
| reach_step (r r' : Router.t) : reachable r0 r -> step r r' -> reachable r0 r'.

(** A router with id 1, one input port and the neighbours 2 and 4 at link
    cost 1, as [__init__] leaves it at clock 0. *)
Definition demo_config : RouterConfig.t :=
  RouterConfig.mk 1 [5001] [Output.mk 2 5002 1; Output.mk 4 5004 1].

Definition demo_self : RTE.t := RTE._from_host 0 1 0 0 true.

Definition demo_router : Router.t :=
  {| Router.id := 1;
     Router.inputs := [(5001, 5001)];
     Router.outputs := [(2, Router.mk_out 5002 1); (4, Router.mk_out 5004 1)];
     Router.routing_table := [(1, demo_self)];
     Router.changed := false;
     Router.end_life := false;
     Router.trace := [Router.Log [demo_self]] |}.

(** The periodic update of router 2: header [cmd 2, ver 2, src 2], its self
    entry (addr 2, next hop 0, metric 0) and a route to 3 (next hop 3,
    metric 1). *)
Definition demo_datagram : list byte :=
  [x02; x02; x00; x02;
   x00; x02; x00; x00;  x00; x00; x00; x02;  x00; x00; x00; x00;
   x00; x00; x00; x00;  x00; x00; x00; x00;
   x00; x02; x00; x00;  x00; x00; x00; x03;  x00; x00; x00; x00;
   x00; x00; x00; x03;  x00; x00; x00; x01].

(** The two RTEs [demo_datagram] decodes to at clock [now]. *)
Definition demo_rte2 (now : Z) : RTE.t :=
  RTE.mk 2 0 2 0 2 0 false false false (Some now).

Definition demo_rte3 (now : Z) : RTE.t :=
  RTE.mk 2 0 3 0 3 1 false false false (Some now).

(** A datagram from router 9, which is no neighbour of [demo_router]:
    header [cmd 2, ver 2, src 9] and one route to 3 at metric 1. *)
Definition stranger_datagram : list byte :=
  [x02; x02; x00; x09;
   x00; x02; x00; x00;  x00; x00; x00; x03;  x00; x00; x00; x00;
   x00; x00; x00; x03;  x00; x00; x00; x01].

(** Events that put nothing on the wire and arm no timer. *)
Definition inert (ev : Router.event) : Prop :=
  match ev with
  | Router.Log _ => True
  | Router.SendTo _ _ _ => False
  | Router.TimerObj _ _ started => started = false
  end.

(** [check_timeout]'s test on one entry, and what it does to it. *)
Definition timed_out (now : Z) (e : RTE.t) : bool :=
  match RTE.timeout e with
  | Some stamp => Router.age_ge now stamp Router.ROUTE_TIMEOUT
  | None => false
  end.

Definition poisoned_by_timeout (now : Z) (e : RTE.t) : RTE.t :=
  RTE.mk (RTE.afi e) (RTE.tag e) (RTE.addr e) (RTE.mask e) (RTE.next_hop e)
    RTE.MAX_METRIC true (RTE.imported e) true (Some now).

Definition tick_entry (now : Z) (e : RTE.t) : RTE.t :=
  if timed_out now e then poisoned_by_timeout now e else e.

(** [demo_router] knowing one more route. *)
Definition demo_router_with (e : RTE.t) : Router.t :=
  Router.with_table [(1, demo_self); (RTE.addr e, e)] demo_router.

(** A live route to 3 through 2, refreshed at clock 1 s; and the same route
    once poisoned at clock 31 s, its change flag cleared since. *)
Definition demo_route3 : RTE.t :=
  RTE.mk 2 0 3 0 2 2 false false false (Some 1000000).

Definition demo_garbage3 : RTE.t :=
  RTE.mk 2 0 3 0 2 16 false false true (Some 31000000).

(** Router 2 reporting 3 unreachable, decoded at clock [now]. *)
Definition demo_unreachable3 (now : Z) : RTE.t :=
  RTE.mk 2 0 3 0 3 16 false false false (Some now).

(** What split horizon with poisoned reverse makes of candidate [e] in a
    datagram for neighbour [n]. *)
Definition split_horizon_of (n : Z) (e e' : RTE.t) : Prop :=
  if RTE.next_hop e =? n
  then RTE.addr e' = RTE.addr e /\ RTE.next_hop e' = RTE.next_hop e
       /\ RTE.metric e' = 16
  else e' = e.

(** [ev] is the [sendto] of the datagram [update] builds from the candidates
    [rtes] for the neighbour [out]: the serialized local header followed by
    the serialization of each validated RTE, in order. *)
Definition datagram_to (now sock : Z) (h : option Header.t) (rtes : list RTE.t)
           (ev : Router.event) (out : Z * Router.out_entry) : Prop :=
  exists bytes,
    ev = Router.SendTo sock bytes (Router.port (snd out))
    /\ Packet.serialize
         (Packet._from_host h (Some (Router.validated_rtes now (fst out) rtes)))
       = inr bytes
    /\ exists hd hb chunks,
        h = Some hd /\ Header.serialize hd = Some hb
        /\ Forall2 (fun e c => RTE.serialize e = Some c)
             (Router.validated_rtes now (fst out) rtes) chunks
        /\ bytes = hb ++ concat chunks.

(** Byte offsets of a datagram that hold a fixed wire field: cmd and ver
    in the header, afi, tag and mask in each 20-byte RTE. *)
Definition fixed_field_pos (i : nat) : bool :=
  if (i <? 4)%nat then (i <? 2)%nat
  else
    let o := ((i - 4) mod 20)%nat in
    (o <? 4)%nat || ((8 <=? o)%nat && (o <? 12)%nat).

(** Two datagrams of equal length that differ at most in fixed fields. *)
Definition wire_equiv (d1 d2 : list byte) : Prop :=
  length d1 = length d2
  /\ forall i, fixed_field_pos i = false -> nth_error d1 i = nth_error d2 i.

(** Forgetting the fixed fields. *)
Definition erase_rte (e : RTE.t) : RTE.t :=
  RTE.mk 0 0 (RTE.addr e) 0 (RTE.next_hop e) (RTE.metric e)
    (RTE.changed e) (RTE.imported e) (RTE.is_garbage e) (RTE.timeout e).

Definition erase_header (h : Header.t) : Header.t :=
  Header.mk 0 0 (Header.src h).

Definition erase_packet (p : Packet.t) : Packet.t :=
  Packet.mk (option_map erase_header (Packet.header p))
    (option_map (map erase_rte) (Packet.rtes p)).

Definition erase_table (tb : dict RTE.t) : dict RTE.t :=
  map (fun kv => (fst kv, erase_rte (snd kv))) tb.

Definition erase_callback (cb : Router.callback) : Router.callback :=
  match cb with
  | Router.CbUpdate rtes => Router.CbUpdate (map erase_rte rtes)
  | Router.CbTimer f => Router.CbTimer f
  end.

Definition erase_event (ev : Router.event) : Router.event :=
  match ev with
  | Router.Log snapshot => Router.Log (map erase_rte snapshot)
  | Router.SendTo sock data dest => Router.SendTo sock data dest
  | Router.TimerObj delay cb started =>
      Router.TimerObj delay (erase_callback cb) started
  end.

Definition erase_router (r : Router.t) : Router.t :=
  Router.mk (Router.id r) (Router.inputs r) (Router.outputs r)
    (erase_table (Router.routing_table r)) (Router.changed r)
    (Router.end_life r) (map erase_event (Router.trace r)).

Definition erase_outcome (o : Router.outcome) : Router.outcome :=
  match o with
  | Router.Ok r => Router.Ok (erase_router r)
  | Router.Raise e r => Router.Raise e (erase_router r)
  end.

Definition decodes (now : Z) (data : list byte) : bool :=
  match Packet.init_data now data with Some _ => true | None => false end.

(** Two looked-up entries agree: both absent, or both present with the same
    metric, next_hop, changed and is_garbage. *)
Definition entries_agree (a b : option RTE.t) : Prop :=
  match a, b with
  | None, None => True
  | Some x, Some y =>
      RTE.metric x = RTE.metric y /\ RTE.next_hop x = RTE.next_hop y
      /\ RTE.changed x = RTE.changed y /\ RTE.is_garbage x = RTE.is_garbage y
  | _, _ => False
  end.

(** [demo_datagram] with other bytes in every fixed field: cmd 1, ver 9,
    and afi, tag and mask of both RTEs overwritten. *)
Definition demo_datagram_variant : list byte :=
  [x01; x09; x00; x02;
   x00; x07; x05; x05;  x00; x00; x00; x02;  xff; xff; xff; x00;
   x00; x00; x00; x00;  x00; x00; x00; x00;
   x01; x00; x00; x01;  x00; x00; x00; x03;  x0a; x00; x00; x01;
   x00; x00; x00; x03;  x00; x00; x00; x01].

(* ------------------------------------------------------------------ *)
(** * Predicates for the properties of the remaining code *)

(** The test of [config_outputs] on one output. *)
Definition output_valid (o : Output.t) : bool :=
  (1 <=? Output.metric o) && (Output.metric o <=? 16)
  && (1024 <=? Output.port o) && (Output.port o <=? 49151).

Definition out_entry_ok (kv : Z * Router.out_entry) : Prop :=
  1 <= Router.metric (snd kv) <= 16 /\ 1024 <= Router.port (snd kv) <= 49151.

(** What holds of the entry stored under [fst kv] in the table of router
    [me]. *)
Definition entry_ok (me : Z) (kv : Z * RTE.t) : Prop :=
  0 <= RTE.afi (snd kv) < 65536 /\ 0 <= RTE.tag (snd kv) < 65536
  /\ 0 <= RTE.mask (snd kv) < 4294967296
  /\ 0 <= RTE.next_hop (snd kv) < 4294967296
  /\ 0 <= RTE.metric (snd kv) <= 16
  /\ (RTE.is_garbage (snd kv) = true <-> RTE.metric (snd kv) = 16)
  /\ (fst kv <> me ->
      RTE.imported (snd kv) = false /\ RTE.timeout (snd kv) <> None
      /\ 1 <= RTE.metric (snd kv) /\ 0 <= RTE.addr (snd kv) < 4294967296).

Definition unflagged (tb : dict RTE.t) : Prop :=
  Forall (fun kv => RTE.changed (snd kv) = false) tb.

Record state_ok (r : Router.t) : Prop := {
  ok_table : table_inv r;
  ok_entries : Forall (entry_ok (Router.id r)) (Router.routing_table r);
  ok_outputs : Forall out_entry_ok (Router.outputs r);
  ok_flags : Router.changed r = false -> unflagged (Router.routing_table r)
}.

(** What holds of an RTE as it comes out of the decoder. *)
Definition received_ok (e : RTE.t) : Prop :=
  0 <= RTE.afi e < 65536 /\ 0 <= RTE.tag e < 65536
  /\ 0 <= RTE.addr e < 4294967296 /\ 0 <= RTE.mask e < 4294967296
  /\ 0 <= RTE.metric e
  /\ RTE.imported e = false /\ RTE.is_garbage e = false
  /\ RTE.timeout e <> None.

Definition packet_received_ok (p : Packet.t) : Prop :=
  match Packet.header p, Packet.rtes p with
  | Some h, Some l => 0 <= Header.src h < 65536 /\ Forall received_ok l
  | None, None => True
  | _, _ => False
  end.

(** The test of [check_is_garbage] on one entry that has a timestamp. *)
Definition collectable (now : Z) (e : RTE.t) : bool :=
  RTE.is_garbage e
  && match RTE.timeout e with
     | Some stamp => Router.age_ge now stamp Router.DELETE_TIMEOUT
     | None => false
     end.

(** What the decoder, run at clock [now] on a datagram of sender [src_id],
    makes of the serialization of [e]. *)
Definition as_received (now src_id : Z) (e : RTE.t) : RTE.t :=
  RTE.mk (RTE.afi e) (RTE.tag e) (RTE.addr e) (RTE.mask e)
    (if RTE.next_hop e =? 0 then src_id else RTE.next_hop e)
    (RTE.metric e) false false false (Some now).

(** Forgetting the timestamps. *)
Definition forget_timeouts (r : Router.t) : Router.t :=
  Router.with_table
    (map (fun kv => (fst kv, RTE.set_timeout None (snd kv)))
       (Router.routing_table r)) r.

(** [port.recvfrom(bufsize)[0]] on a UDP socket: the first [bufsize] bytes of
    the datagram, the rest of it being discarded. *)
Definition recvfrom (bufsize : nat) (datagram : list byte) : list byte :=
  firstn bufsize datagram.

(** The events a method adds to the trace of [r]. *)
Definition new_events (r : Router.t) (o : Router.outcome) : list Router.event :=
  skipn (length (Router.trace r)) (Router.trace (Router.state_of o)).

(** The configuration of a router: what no method assigns. *)
Definition same_config (r r' : Router.t) : Prop :=
  Router.id r' = Router.id r /\ Router.inputs r' = Router.inputs r
  /\ Router.outputs r' = Router.outputs r /\ Router.end_life r' = Router.end_life r.

(* ------------------------------------------------------------------ *)
(** * Properties of the wire codec *)

Section ByteFacts.

Lemma Z_of_byte_range (b : byte) : 0 <= Z_of_byte b < 256.
Proof.
  unfold Z_of_byte. pose proof (Byte.to_N_bounded b). lia.
Qed.

Lemma Z_of_byte_of_Z (z : Z) : Z_of_byte (byte_of_Z z) = z mod 256.
Proof.
  unfold byte_of_Z, Z_of_byte.
  assert (Hr : 0 <= z mod 256 < 256) by (apply Z.mod_pos_bound; lia).
  destruct (Byte.of_N (Z.to_N (z mod 256))) as [b|] eqn:E.
  - apply Byte.to_of_N in E. rewrite E. lia.
  - apply Byte.of_N_None_iff in E. lia.
Qed.

Lemma be_bytes_length (n : nat) (v : Z) : length (be_bytes n v) = n.
Proof.
  induction n as [|k IH]; simpl; [reflexivity | now rewrite IH].
Qed.

Lemma be_value_be_bytes (n : nat) (v : Z) :
  be_value (be_bytes n v) = v mod 256 ^ Z.of_nat n.
Proof.
  induction n as [|k IH].
  - simpl. now rewrite Z.mod_1_r.
  - cbn [be_bytes be_value]. rewrite be_bytes_length, IH, Z_of_byte_of_Z.
    rewrite Nat2Z.inj_succ, Z.pow_succ_r by lia.
    rewrite (Z.mul_comm 256).
    rewrite Z.rem_mul_r by lia. lia.
Qed.

Lemma be_value_range (bs : list byte) :
  0 <= be_value bs < 256 ^ Z.of_nat (length bs).
Proof.
  induction bs as [|b rest IH].
  - simpl. lia.
  - cbn [be_value length]. pose proof (Z_of_byte_range b).
    rewrite Nat2Z.inj_succ, Z.pow_succ_r by lia. nia.
Qed.

Lemma pack_uint_Some (n : nat) (v : Z) (bs : list byte) :
  pack_uint n v = Some bs ->
  bs = be_bytes n v /\ 0 <= v < 256 ^ Z.of_nat n.
Proof.
  unfold pack_uint.
  destruct (0 <=? v) eqn:E1; destruct (v <? 256 ^ Z.of_nat n) eqn:E2;
    simpl; intros H; inversion H; subst. split; [reflexivity | lia].
Qed.

Lemma pack_uint_in_range (n : nat) (v : Z) :
  0 <= v < 256 ^ Z.of_nat n -> pack_uint n v = Some (be_bytes n v).
Proof.
  intros H. unfold pack_uint.
  destruct (0 <=? v) eqn:E1; destruct (v <? 256 ^ Z.of_nat n) eqn:E2;
    simpl; try reflexivity; lia.
Qed.

Lemma pack_uint_value (n : nat) (v : Z) (bs : list byte) :
  pack_uint n v = Some bs -> length bs = n /\ be_value bs = v.
Proof.
  intros H. apply pack_uint_Some in H. destruct H as [-> Hr].
  split; [apply be_bytes_length |].
  rewrite be_value_be_bytes. now apply Z.mod_small.
Qed.

Lemma slice_0_all (A : Type) (n : nat) (l : list A) :
  n = length l -> slice 0 n l = l.
Proof.
  intros ->. unfold slice. rewrite Nat.sub_0_r. simpl. apply firstn_all.
Qed.

Lemma slice_0_app (A : Type) (n : nat) (a b : list A) :
  n = length a -> slice 0 n (a ++ b) = a.
Proof.
  intros ->. unfold slice. rewrite Nat.sub_0_r. simpl.
  rewrite firstn_app, firstn_all, Nat.sub_diag. simpl. apply app_nil_r.
Qed.

Lemma slice_app_shift (A : Type) (s e : nat) (a b : list A) :
  (length a <= s)%nat ->
  slice s e (a ++ b) = slice (s - length a) (e - length a) b.
Proof.
  intros H. unfold slice.
  rewrite skipn_app, skipn_all2 by exact H. simpl.
  f_equal. lia.
Qed.

Lemma slice_length (A : Type) (s e : nat) (l : list A) :
  (s <= e)%nat -> (e <= length l)%nat -> length (slice s e l) = (e - s)%nat.
Proof.
  intros H1 H2. unfold slice. rewrite length_firstn, length_skipn. lia.
Qed.

End ByteFacts.

Ltac pack_inv H :=
  repeat match type of H with
  | context [pack_uint ?n ?v] =>
      let E := fresh "E" in
      destruct (pack_uint n v) eqn:E; cbn [opt_bind] in H; [| discriminate H]
  end.

Ltac pack_facts :=
  repeat match goal with
  | E : pack_uint _ _ = Some _ |- _ =>
      let Hl := fresh "Hl" in
      let Hv := fresh "Hv" in
      destruct (pack_uint_value _ _ E) as [Hl Hv];
      apply pack_uint_Some in E; destruct E as [_ E]
  end.

Ltac len_rw :=
  repeat match goal with
  | Hl : length ?l = _ |- context [length ?l] => rewrite Hl
  end.

Ltac slice_rw :=
  repeat (first [ rewrite slice_0_app by (symmetry; assumption)
                | rewrite slice_0_all by (symmetry; assumption)
                | rewrite slice_app_shift by (len_rw; lia);
                  len_rw; cbn [Nat.sub] ]).

Section CodecFacts.

Lemma Header_serialize_length (h : Header.t) (bs : list byte) :
  Header.serialize h = Some bs -> length bs = 4%nat.
Proof.
  unfold Header.serialize. intros H. pack_inv H. inversion H; subst.
  pack_facts. rewrite !length_app. lia.
Qed.

Lemma Header_serialize_ok (h : Header.t) :
  header_wire_ok h -> exists bs, Header.serialize h = Some bs.
Proof.
  intros (Hc & Hv & Hs). unfold Header.serialize.
  rewrite !pack_uint_in_range by (simpl; lia). cbn [opt_bind]. eauto.
Qed.

Lemma Header_serialize_wire_ok (h : Header.t) (bs : list byte) :
  Header.serialize h = Some bs -> header_wire_ok h.
Proof.
  unfold Header.serialize. intros H. pack_inv H. pack_facts.
  unfold header_wire_ok. simpl in *. lia.
Qed.

Lemma Header_roundtrip (h : Header.t) (bs : list byte) :
  Header.serialize h = Some bs -> Header._from_network bs = Some h.
Proof.
  unfold Header.serialize. intros H. pack_inv H. inversion H; subst; clear H.
  pack_facts. unfold Header._from_network.
  rewrite !length_app. len_rw. cbn [Nat.add Nat.eqb Header.SIZE].
  slice_rw. destruct h; simpl in *. congruence.
Qed.

Lemma RTE_serialize_length (r : RTE.t) (bs : list byte) :
  RTE.serialize r = Some bs -> length bs = 20%nat.
Proof.
  unfold RTE.serialize. intros H. pack_inv H. inversion H; subst.
  pack_facts. rewrite !length_app. lia.
Qed.

Lemma RTE_serialize_ok (r : RTE.t) :
  rte_wire_ok r -> exists bs, RTE.serialize r = Some bs.
Proof.
  intros (H1 & H2 & H3 & H4 & H5 & H6). unfold RTE.serialize.
  rewrite !pack_uint_in_range by (simpl; lia). cbn [opt_bind]. eauto.
Qed.

Lemma RTE_serialize_wire_ok (r : RTE.t) (bs : list byte) :
  RTE.serialize r = Some bs -> rte_wire_ok r.
Proof.
  unfold RTE.serialize. intros H. pack_inv H. pack_facts.
  unfold rte_wire_ok. simpl in *. lia.
Qed.

(** Decoding a serialized RTE: five fields come back as they were; the
    next hop comes back unless it was 0, which reads as the sender. *)
Lemma RTE_decode_serialize (now : Z) (src_id : Z) (r : RTE.t) (bs : list byte) :
  RTE.serialize r = Some bs ->
  RTE._from_network now bs src_id =
  Some (RTE.mk (RTE.afi r) (RTE.tag r) (RTE.addr r) (RTE.mask r)
          (if RTE.next_hop r =? 0 then src_id else RTE.next_hop r)
          (RTE.metric r) false false false (Some now)).
Proof.
  unfold RTE.serialize. intros H. pack_inv H. inversion H; subst; clear H.
  pack_facts. unfold RTE._from_network.
  rewrite !length_app. len_rw. cbn [Nat.add Nat.eqb RTE.SIZE].
  slice_rw. cbv zeta. unfold RTE.fresh_timeout.
  rewrite Hv, Hv0, Hv1, Hv2, Hv3, Hv4. reflexivity.
Qed.

End CodecFacts.

Section PacketFacts.

Lemma serialize_loop_length (l : list RTE.t) :
  forall (packet bs : list byte),
    Packet.serialize_loop packet l = Some bs ->
    length bs = (length packet + 20 * length l)%nat.
Proof.
  induction l as [|r rest IH]; intros packet bs H; simpl in H.
  - inversion H; subst. simpl. lia.
  - destruct (RTE.serialize r) as [b|] eqn:E; cbn [opt_bind] in H; [| discriminate].
    apply IH in H. apply RTE_serialize_length in E.
    rewrite H, length_app, E. simpl. lia.
Qed.

Lemma serialize_loop_ok (l : list RTE.t) :
  Forall rte_wire_ok l ->
  forall packet, exists bs, Packet.serialize_loop packet l = Some bs.
Proof.
  induction 1 as [|r rest Hr _ IH]; intros packet; simpl.
  - eauto.
  - destruct (RTE_serialize_ok Hr) as [b ->]. cbn [opt_bind]. apply IH.
Qed.

Lemma Packet_serialize_length (p : Packet.t) (l : list RTE.t) (bs : list byte) :
  Packet.rtes p = Some l ->
  Packet.serialize p = inr bs ->
  length bs = (4 + 20 * length l)%nat.
Proof.
  unfold Packet.serialize. intros Hl H.
  destruct (Packet.header p) as [h|]; [| discriminate].
  destruct (Header.serialize h) as [hb|] eqn:Eh; [| discriminate].
  rewrite Hl in H.
  destruct (Packet.serialize_loop hb l) as [b|] eqn:Eb; [| discriminate].
  inversion H; subst. apply serialize_loop_length in Eb.
  apply Header_serialize_length in Eh. lia.
Qed.

Lemma Packet_serialize_ok (h : Header.t) (l : list RTE.t) :
  header_wire_ok h -> Forall rte_wire_ok l ->
  exists bs, Packet.serialize (Packet.mk (Some h) (Some l)) = inr bs.
Proof.
  intros Hh Hl. unfold Packet.serialize. simpl.
  destruct (Header_serialize_ok Hh) as [hb ->].
  destruct (serialize_loop_ok Hl hb) as [bs ->]. eauto.
Qed.

Lemma rte_count_ge (n : nat) :
  (4 <= n)%nat -> Packet.rte_count n = ((n - 4) / 20)%nat.
Proof.
  intros H. unfold Packet.rte_count, Header.SIZE, RTE.SIZE.
  rewrite Z.quot_div_nonneg by lia.
  replace (Z.of_nat n - Z.of_nat 4) with (Z.of_nat (n - 4)) by lia.
  rewrite <- Nat2Z.inj_div. apply Nat2Z.id.
Qed.

Lemma rte_loop_total (now src_id : Z) (data : list byte) (count : nat) :
  forall rte_start,
    (rte_start + 20 * count <= length data)%nat ->
    exists l, Packet.rte_loop now src_id data rte_start count = Some l
              /\ length l = count.
Proof.
  induction count as [|c IH]; intros rte_start H; simpl.
  - exists []. split; reflexivity.
  - unfold RTE._from_network at 1.
    rewrite slice_length by (unfold RTE.SIZE; lia).
    replace (rte_start + RTE.SIZE - rte_start)%nat with RTE.SIZE by lia.
    rewrite Nat.eqb_refl. cbn [opt_bind].
    destruct (IH (rte_start + RTE.SIZE)%nat) as (l & -> & Hlen);
      [unfold RTE.SIZE; lia |].
    cbn [opt_bind]. eexists. split; [reflexivity | simpl; now rewrite Hlen].
Qed.

Lemma init_data_short (now : Z) (data : list byte) :
  (1 <= length data < 4)%nat -> Packet.init_data now data = None.
Proof.
  intros H. destruct data as [|b rest]; [simpl in H; lia |].
  unfold Packet.init_data, Packet._from_network, Header._from_network.
  unfold slice. rewrite length_firstn, length_skipn.
  replace (Nat.min (Header.SIZE - 0) (length (b :: rest) - 0))
    with (length (b :: rest)) by (unfold Header.SIZE; lia).
  destruct (Nat.eqb_spec (length (b :: rest)) Header.SIZE) as [E|E];
    [unfold Header.SIZE in E; lia | reflexivity].
Qed.

Lemma init_data_long (now : Z) (data : list byte) :
  (4 <= length data)%nat ->
  exists h l,
    Packet.init_data now data = Some (Packet.mk (Some h) (Some l))
    /\ length l = ((length data - 4) / 20)%nat.
Proof.
  intros H. destruct data as [|b rest]; [simpl in H; lia |].
  unfold Packet.init_data, Packet._from_network, Header._from_network.
  rewrite slice_length by (unfold Header.SIZE; lia).
  cbn [Nat.sub Header.SIZE Nat.eqb opt_bind].
  rewrite rte_count_ge by exact H.
  pose proof (Nat.Div0.mul_div_le (length (b :: rest) - 4) 20) as Hd.
  match goal with
  | |- context [Packet.rte_loop now ?s ?d Header.SIZE ?c] =>
      destruct (@rte_loop_total now s d c Header.SIZE) as (l & -> & Hlen);
        [unfold Header.SIZE; lia |]
  end.
  cbn [opt_bind]. eauto.
Qed.

End PacketFacts.

(* ------------------------------------------------------------------ *)
(** * C7: wire size and the domain of the decoder *)

(** C7, as stated, fails: the decoder does not reject a length that is not
    [4 + 20 k]. A five-byte datagram decodes to a header and no RTE, the
    trailing byte being dropped. *)
Lemma decode_accepts_misaligned_length :
  Packet.init_data 0 [x02; x02; x00; x07; xff]
  = Some (Packet.mk (Some (Header.mk 2 2 7)) (Some []))
  /\ forall k : nat, length [x02; x02; x00; x07; xff] <> (4 + 20 * k)%nat.
Proof.
  split; [vm_compute; reflexivity | intros k; simpl; lia].
Qed.

(** C7, amended: a packet of [k] RTEs whose fields [struct.pack] accepts
    serializes to exactly [4 + 20 k] bytes. Decoding the empty string builds
    a packet with neither header nor RTEs; decoding fails on the lengths 1, 2
    and 3 and on no other; every string of at least 4 bytes decodes to a
    header and [(len - 4) / 20] RTEs (rounded down), so every string of
    [4 + 20 k] bytes decodes to [k] RTEs. *)
Theorem wire_size_and_decode_domain :
  forall (now : Z) (h : Header.t) (l : list RTE.t) (data : list byte),
    header_wire_ok h ->
    Forall rte_wire_ok l ->
    (exists bs, Packet.serialize (Packet.mk (Some h) (Some l)) = inr bs
                /\ length bs = (4 + 20 * length l)%nat)
    /\ (if (length data =? 0)%nat
        then Packet.init_data now data = Some (Packet.mk None None)
        else if (length data <? 4)%nat
        then Packet.init_data now data = None
        else exists h' l',
            Packet.init_data now data = Some (Packet.mk (Some h') (Some l'))
            /\ length l' = ((length data - 4) / 20)%nat).
Proof.
  intros now h l data Hh Hl. split.
  - destruct (Packet_serialize_ok Hh Hl) as [bs Hbs].
    exists bs. split; [exact Hbs |].
    eapply Packet_serialize_length; [| exact Hbs]. reflexivity.
  - destruct (Nat.eqb_spec (length data) 0) as [E0|E0].
    + destruct data; [reflexivity | discriminate].
    + destruct (Nat.ltb_spec (length data) 4) as [E4|E4].
      * apply init_data_short. lia.
      * now apply init_data_long.
Qed.

Lemma wire_size_and_decode_domain_witness :
  header_wire_ok (Header._from_host 1)
  /\ Forall rte_wire_ok [RTE._from_host 0 1 0 0 true; RTE._from_host 0 3 2 1 false]
  /\ ((exists bs,
         Packet.serialize
           (Packet.mk (Some (Header._from_host 1))
              (Some [RTE._from_host 0 1 0 0 true; RTE._from_host 0 3 2 1 false]))
         = inr bs
         /\ length bs = (4 + 20 * 2)%nat)
      /\ Packet.init_data 0 [x02; x02; x00] = None).
Proof.
  assert (Hh : header_wire_ok (Header._from_host 1))
    by (unfold header_wire_ok, Header._from_host, Header.COMMAND_RESPONSE,
          Header.VERSION; simpl; lia).
  assert (Hl : Forall rte_wire_ok
                 [RTE._from_host 0 1 0 0 true; RTE._from_host 0 3 2 1 false])
    by (repeat apply Forall_cons; try apply Forall_nil;
        unfold rte_wire_ok, RTE._from_host, RTE.AF_INET; simpl; lia).
  split; [exact Hh |]. split; [exact Hl |].
  exact (@wire_size_and_decode_domain 0 _ _ [x02; x02; x00] Hh Hl).
Defined.

(* ------------------------------------------------------------------ *)
(** * C8: round trips *)

(** C8, as stated, fails on the next hop: the self entry of router 1
    ([next_hop = 0]) decoded with sender id 1 comes back with [next_hop = 1],
    and [__eq__] tells the two apart. *)
Lemma rte_roundtrip_rewrites_zero_next_hop :
  exists bs r',
    RTE.serialize (RTE._from_host 0 1 0 0 true) = Some bs
    /\ RTE._from_network 0 bs 1 = Some r'
    /\ RTE.next_hop (RTE._from_host 0 1 0 0 true) = 0
    /\ RTE.next_hop r' = 1
    /\ RTE.eqb r' (RTE._from_host 0 1 0 0 true) = false.
Proof.
  eexists. eexists.
  split; [vm_compute; reflexivity |].
  split; [vm_compute; reflexivity |].
  repeat split.
Qed.

(** C8, amended: for every locally constructed RTE that serializes and any
    sender id, decoding the 20 bytes gives back afi, tag, addr, mask and
    metric, and gives back next_hop when it is not 0; a next_hop of 0 decodes
    to the sender id. For every locally constructed Header that serializes,
    decoding the 4 bytes gives back cmd, ver and src. *)
Theorem codec_roundtrip :
  forall (now now' address nh m : Z) (imp : bool) (src_id : Z) (bs : list byte)
         (router_id : Z) (h : Header.t) (hb : list byte),
    RTE.serialize (RTE._from_host now address nh m imp) = Some bs ->
    Header.init_host router_id = Some h ->
    Header.serialize h = Some hb ->
    (length bs = 20%nat
     /\ exists r',
        RTE._from_network now' bs src_id = Some r'
        /\ RTE.afi r' = RTE.AF_INET /\ RTE.tag r' = 0
        /\ RTE.addr r' = address /\ RTE.mask r' = 0
        /\ RTE.metric r' = m
        /\ RTE.next_hop r' = (if nh =? 0 then src_id else nh))
    /\ (length hb = 4%nat
        /\ exists h',
           Header._from_network hb = Some h'
           /\ Header.cmd h' = Header.cmd h /\ Header.ver h' = Header.ver h
           /\ Header.src h' = Header.src h /\ Header.src h = router_id).
Proof.
  intros now now' address nh m imp src_id bs router_id h hb Hr Hi Hh.
  split.
  - split; [now apply RTE_serialize_length in Hr |].
    eexists. split; [apply (RTE_decode_serialize now' src_id _ Hr) |].
    simpl. repeat split.
  - split; [now apply Header_serialize_length in Hh |].
    exists h. split; [now apply Header_roundtrip |].
    repeat split. unfold Header.init_host in Hi.
    destruct (router_id =? 0); [discriminate |].
    inversion Hi; subst. reflexivity.
Qed.

Lemma codec_roundtrip_witness :
  RTE.serialize (RTE._from_host 0 3 2 1 false)
  = Some [x00; x02; x00; x00; x00; x00; x00; x03; x00; x00; x00; x00;
          x00; x00; x00; x02; x00; x00; x00; x01]
  /\ Header.init_host 1 = Some (Header.mk 2 2 1)
  /\ Header.serialize (Header.mk 2 2 1) = Some [x02; x02; x00; x01]
  /\ exists r',
       RTE._from_network 9
         [x00; x02; x00; x00; x00; x00; x00; x03; x00; x00; x00; x00;
          x00; x00; x00; x02; x00; x00; x00; x01] 5 = Some r'
       /\ RTE.addr r' = 3 /\ RTE.metric r' = 1 /\ RTE.next_hop r' = 2.
Proof.
  assert (Hr : RTE.serialize (RTE._from_host 0 3 2 1 false)
               = Some [x00; x02; x00; x00; x00; x00; x00; x03; x00; x00; x00; x00;
                       x00; x00; x00; x02; x00; x00; x00; x01])
    by (vm_compute; reflexivity).
  assert (Hi : Header.init_host 1 = Some (Header.mk 2 2 1))
    by (vm_compute; reflexivity).
  assert (Hh : Header.serialize (Header.mk 2 2 1) = Some [x02; x02; x00; x01])
    by (vm_compute; reflexivity).
  split; [exact Hr |]. split; [exact Hi |]. split; [exact Hh |].
  destruct (@codec_roundtrip 0 9 3 2 1 false 5 _ 1 _ _ Hr Hi Hh)
    as [[_ (r' & Hd & _ & _ & Ha & _ & Hm & Hn)] _].
  exists r'. repeat split; assumption.
Defined.

(* ------------------------------------------------------------------ *)
(** * Dictionary facts *)

Section DictFacts.

Variable V : Type.
Implicit Types (d : dict V) (k : Z) (v : V).

Lemma dict_get_set_same d k v : dict_get (dict_set d k v) k = Some v.
Proof.
  induction d as [|[k' v'] rest IH]; simpl.
  - now rewrite Z.eqb_refl.
  - destruct (k' =? k) eqn:E; simpl.
    + now rewrite Z.eqb_refl.
    + now rewrite E.
Qed.

Lemma dict_get_set_other d k k' v :
  k <> k' -> dict_get (dict_set d k v) k' = dict_get d k'.
Proof.
  intros Hne. induction d as [|[k0 v0] rest IH]; simpl.
  - destruct (Z.eqb_spec k k'); [contradiction | reflexivity].
  - destruct (Z.eqb_spec k0 k) as [->|Hk]; simpl.
    + destruct (Z.eqb_spec k k'); [contradiction | reflexivity].
    + destruct (k0 =? k'); [reflexivity | exact IH].
Qed.

Lemma dict_get_In d k v : dict_get d k = Some v -> In (k, v) d.
Proof.
  induction d as [|[k0 v0] rest IH]; simpl; [discriminate |].
  destruct (Z.eqb_spec k0 k) as [->|Hk]; intros H.
  - inversion H; subst. now left.
  - right. now apply IH.
Qed.

Lemma dict_get_None d k : dict_get d k = None -> ~ In k (dict_keys d).
Proof.
  induction d as [|[k0 v0] rest IH]; simpl; [tauto |].
  destruct (Z.eqb_spec k0 k) as [->|Hk]; [discriminate |].
  intros H [E|Hin]; [contradiction | now apply IH].
Qed.

Lemma dict_In_get d k v :
  NoDup (dict_keys d) -> In (k, v) d -> dict_get d k = Some v.
Proof.
  induction d as [|[k0 v0] rest IH]; simpl; [tauto |].
  intros Hnd [E|Hin].
  - inversion E; subst. now rewrite Z.eqb_refl.
  - inversion Hnd as [|? ? Hnot Hnd']; subst.
    destruct (Z.eqb_spec k0 k) as [->|Hk].
    + exfalso. apply Hnot. unfold dict_keys.
      change k with (fst (k, v)). now apply in_map.
    + now apply IH.
Qed.

Lemma dict_keys_set_In d k v k' :
  In k' (dict_keys (dict_set d k v)) <-> k' = k \/ In k' (dict_keys d).
Proof.
  induction d as [|[k0 v0] rest IH]; simpl.
  - intuition.
  - destruct (Z.eqb_spec k0 k) as [->|Hk]; simpl; [| rewrite IH]; intuition.
Qed.

Lemma dict_set_NoDup d k v :
  NoDup (dict_keys d) -> NoDup (dict_keys (dict_set d k v)).
Proof.
  induction d as [|[k0 v0] rest IH]; simpl; intros Hnd.
  - constructor; [simpl; tauto | constructor].
  - inversion Hnd as [|? ? Hnot Hnd']; subst.
    destruct (Z.eqb_spec k0 k) as [->|Hk]; simpl.
    + now constructor.
    + constructor; [| now apply IH].
      rewrite dict_keys_set_In. intros [E|Hin]; [congruence | contradiction].
Qed.

Lemma dict_set_Forall (P : Z * V -> Prop) d k v :
  Forall P d -> P (k, v) -> Forall P (dict_set d k v).
Proof.
  intros Hf Hp. induction Hf as [|[k0 v0] rest H0 Hrest IH]; simpl.
  - now constructor.
  - destruct (k0 =? k); constructor; assumption.
Qed.

Lemma dict_del_get d d' k k' :
  dict_del d k = Some d' -> k <> k' -> dict_get d' k' = dict_get d k'.
Proof.
  revert d'. induction d as [|[k0 v0] rest IH]; simpl; intros d' H Hne;
    [discriminate |].
  destruct (Z.eqb_spec k0 k) as [->|Hk].
  - inversion H; subst.
    destruct (Z.eqb_spec k k'); [contradiction | reflexivity].
  - destruct (dict_del rest k) as [rest'|] eqn:E; [| discriminate].
    simpl in H. inversion H; subst. simpl.
    destruct (k0 =? k'); [reflexivity |]. now apply IH.
Qed.

Lemma dict_del_incl d d' k :
  dict_del d k = Some d' -> incl d' d.
Proof.
  revert d'. induction d as [|[k0 v0] rest IH]; simpl; intros d' H;
    [discriminate |].
  destruct (k0 =? k).
  - inversion H; subst. now apply incl_tl, incl_refl.
  - destruct (dict_del rest k) as [rest'|] eqn:E; [| discriminate].
    simpl in H. inversion H; subst.
    apply incl_cons; [now left |]. apply incl_tl. now apply IH.
Qed.

Lemma dict_del_NoDup d d' k :
  dict_del d k = Some d' -> NoDup (dict_keys d) -> NoDup (dict_keys d').
Proof.
  revert d'. induction d as [|[k0 v0] rest IH]; simpl; intros d' H Hnd;
    [discriminate |].
  inversion Hnd as [|? ? Hnot Hnd']; subst.
  destruct (k0 =? k).
  - now inversion H; subst.
  - destruct (dict_del rest k) as [rest'|] eqn:E; [| discriminate].
    simpl in H. inversion H; subst. simpl. constructor; [| now apply IH].
    intros Hin. apply Hnot. unfold dict_keys in *.
    apply in_map_iff in Hin. destruct Hin as ([k1 v1] & E1 & Hin).
    simpl in E1. subst k1. apply (@dict_del_incl _ _ _ E) in Hin.
    change k0 with (fst (k0, v1)). now apply in_map.
Qed.

End DictFacts.

(* ------------------------------------------------------------------ *)
(** * The routing-table invariant *)

Section TableInvariant.

Import Router.

Lemma table_inv_ext (r r' : t) :
  id r' = id r -> routing_table r' = routing_table r ->
  table_inv r -> table_inv r'.
Proof.
  intros Hid Htb [Hnd Hk (s & Hs & Hself)].
  split; rewrite ?Htb, ?Hid; try assumption.
  exists s. split; [assumption |]. unfold is_self_entry in *. now rewrite Hid.
Qed.

Lemma and_then_state (P : t -> Prop) (o : outcome) (k : t -> outcome) :
  P (state_of o) -> (forall r, P r -> P (state_of (k r))) ->
  P (state_of (o >>> k)).
Proof.
  destruct o as [r|e r]; simpl; intros H Hk; [now apply Hk | exact H].
Qed.

Lemma table_inv_log (r : t) : table_inv r -> table_inv (state_of (log_routing_table r)).
Proof.
  intros H. unfold log_routing_table.
  destruct (dict_get (routing_table r) (id r)); simpl; [| exact H].
  now apply (table_inv_ext (r:=r)).
Qed.

Lemma table_inv_store (k : Z) (v : RTE.t) (r : t) :
  k <> id r -> RTE.addr v = k -> table_inv r -> table_inv (store k v r).
Proof.
  intros Hne Hk [Hnd Hks (s & Hs & Hself)]. split; simpl.
  - now apply dict_set_NoDup.
  - now apply dict_set_Forall.
  - exists s. split; [| exact Hself]. now rewrite dict_get_set_other.
Qed.

Lemma table_inv_get_addr (r : t) (k : Z) (v : RTE.t) :
  table_inv r -> dict_get (routing_table r) k = Some v -> RTE.addr v = k.
Proof.
  intros [_ Hks _] Hg. apply dict_get_In in Hg.
  unfold keys_are_addrs in Hks. rewrite Forall_forall in Hks.
  exact (Hks _ Hg).
Qed.

Lemma table_inv_update_route (now k : Z) (cur rte : RTE.t) (r : t) :
  k <> id r -> RTE.addr cur = k -> table_inv r ->
  table_inv (update_route now k cur rte r).
Proof.
  intros Hne Hk H. unfold update_route.
  apply (table_inv_ext (r:=store k
    (RTE.set_next_hop (RTE.next_hop rte)
       (RTE.set_metric (RTE.metric rte)
          (RTE.set_changed true
             (RTE.set_is_garbage false (RTE.init_timeout now cur))))) r));
    try reflexivity.
  now apply table_inv_store.
Qed.

Lemma table_inv_update_routing_table_loop (now : Z) (h : option Header.t)
      (rtes : list RTE.t) :
  forall r, table_inv r ->
            table_inv (state_of (update_routing_table_loop now h rtes r)).
Proof.
  induction rtes as [|rte rest IH]; intros r H; simpl; [exact H |].
  destruct (Z.eqb_spec (RTE.addr rte) (id r)) as [E|E]; simpl; [now apply IH |].
  destruct h as [h|]; [| exact H].
  destruct (dict_get (outputs r) (Header.src h)) as [out|]; [| exact H].
  destruct (dict_get (routing_table r) (RTE.addr rte)) as [cur|] eqn:Ec.
  - pose proof (@table_inv_get_addr _ _ _ H Ec) as Hcur.
    apply IH. cbn [RTE.addr RTE.set_metric RTE.set_next_hop RTE.next_hop RTE.metric].
    repeat match goal with
           | |- context [if ?b then _ else _] => destruct b
           end; try exact H.
    + unfold poison_received.
      eapply table_inv_ext; [| | apply (@table_inv_store (RTE.addr rte)
        (RTE.set_changed true (RTE.set_is_garbage true
              (RTE.set_metric RTE.MAX_METRIC cur))) r E Hcur H)]; reflexivity.
    + now apply table_inv_update_route.
    + apply table_inv_store; [exact E | exact Hcur | exact H].
    + now apply table_inv_update_route.
  - cbn [RTE.addr RTE.set_metric RTE.set_next_hop RTE.metric RTE.set_changed].
    destruct (_ =? RTE.MAX_METRIC); simpl; [exact H |].
    apply table_inv_store; [exact E | reflexivity |].
    now apply (table_inv_ext (r:=r)).
Qed.

Lemma table_inv_update_routing_table (now : Z) (p : Packet.t) (r : t) :
  table_inv r -> table_inv (state_of (update_routing_table now p r)).
Proof.
  intros H. unfold update_routing_table.
  destruct (Packet.rtes p); [| exact H].
  now apply table_inv_update_routing_table_loop.
Qed.

Lemma table_inv_receive_loop (now : Z) (datagrams : list (list byte)) :
  forall r, table_inv r -> table_inv (state_of (receive_loop now datagrams r)).
Proof.
  induction datagrams as [|data rest IH]; intros r H; simpl; [exact H |].
  destruct (Packet.init_data now data) as [p|]; [| exact H].
  apply and_then_state; [now apply table_inv_update_routing_table | exact IH].
Qed.

End TableInvariant.

Section TableInvariantTimers.

Import Router.

Lemma set_changed_false_id (v : RTE.t) :
  RTE.changed v = false -> RTE.set_changed false v = v.
Proof.
  destruct v; simpl; intros ->; reflexivity.
Qed.

Lemma collect_changed_keys (tb : dict RTE.t) :
  dict_keys (snd (collect_changed tb)) = dict_keys tb.
Proof.
  induction tb as [|[k v] rest IH]; simpl; [reflexivity |].
  destruct (collect_changed rest) as [c rest'] eqn:E. simpl in IH.
  destruct (RTE.changed v); simpl; now rewrite IH.
Qed.

Lemma collect_changed_get (tb : dict RTE.t) (k : Z) :
  dict_get (snd (collect_changed tb)) k
  = option_map (RTE.set_changed false) (dict_get tb k).
Proof.
  induction tb as [|[k0 v] rest IH]; simpl; [reflexivity |].
  destruct (collect_changed rest) as [c rest'] eqn:E. simpl in IH.
  destruct (RTE.changed v) eqn:Ev; simpl; destruct (k0 =? k); simpl;
    try exact IH; try reflexivity.
  now rewrite set_changed_false_id.
Qed.

Lemma collect_changed_addrs (tb : dict RTE.t) :
  keys_are_addrs tb -> keys_are_addrs (snd (collect_changed tb)).
Proof.
  unfold keys_are_addrs.
  induction 1 as [|[k v] rest Hkv Hrest IH]; simpl; [constructor |].
  destruct (collect_changed rest) as [c rest'] eqn:E. simpl in IH.
  destruct (RTE.changed v); simpl; constructor; assumption.
Qed.

Lemma collect_changed_fst (tb : dict RTE.t) :
  fst (collect_changed tb)
  = map (RTE.set_changed false) (filter RTE.changed (dict_values tb)).
Proof.
  induction tb as [|[k v] rest IH]; simpl; [reflexivity |].
  destruct (collect_changed rest) as [c rest'] eqn:E. simpl in IH.
  destruct (RTE.changed v); simpl; now rewrite IH.
Qed.

Lemma table_inv_handle_inputs (now : Z) (datagrams : list (list byte)) (r : t) :
  table_inv r -> table_inv (state_of (handle_inputs now datagrams r)).
Proof.
  intros H. unfold handle_inputs.
  apply and_then_state; [now apply table_inv_receive_loop |].
  clear r H. intros r H. destruct (changed r); [| exact H].
  apply and_then_state; [now apply table_inv_log |].
  clear r H. intros r [Hnd Hks (s & Hs & Hself)].
  destruct (collect_changed (routing_table r)) as [c tb] eqn:E.
  assert (Etb : tb = snd (collect_changed (routing_table r))) by now rewrite E.
  split; simpl; subst tb.
  - now rewrite collect_changed_keys.
  - now apply collect_changed_addrs.
  - exists s. split; [| exact Hself].
    rewrite collect_changed_get, Hs. simpl. f_equal.
    apply set_changed_false_id. apply Hself.
Qed.

Lemma update_loop_table (now sock : Z) (h : option Header.t) (rtes : list RTE.t)
      (outs : dict out_entry) :
  forall r, id (state_of (update_loop now sock h outs rtes r)) = id r
            /\ routing_table (state_of (update_loop now sock h outs rtes r))
               = routing_table r.
Proof.
  induction outs as [|[n info] rest IH]; intros r; simpl; [now split |].
  destruct (Packet.serialize _); simpl; [now split |].
  destruct (IH (emit (SendTo sock l (port info)) r)) as [-> ->]. now split.
Qed.

Lemma table_inv_update (now : Z) (rtes : list RTE.t) (r : t) :
  table_inv r -> table_inv (state_of (update now rtes r)).
Proof.
  intros H. unfold update.
  destruct (dict_values (inputs r)) as [|sock ?]; [exact H |].
  destruct (update_loop_table now sock (Header.init_host (id r)) rtes (outputs r) r)
    as [Hid Htb].
  exact (table_inv_ext _ Hid Htb H).
Qed.

Lemma id_log (r : t) : id (state_of (log_routing_table r)) = id r.
Proof.
  unfold log_routing_table. now destruct (dict_get (routing_table r) (id r)).
Qed.

Lemma table_inv_check_timeout_loop (now : Z) (entries : dict RTE.t) :
  forall r,
    table_inv r ->
    (forall k rte, In (k, rte) entries ->
                   RTE.addr rte = k /\ (k = id r -> RTE.timeout rte = None)) ->
    table_inv (state_of (check_timeout_loop now entries r))
    /\ id (state_of (check_timeout_loop now entries r)) = id r.
Proof.
  induction entries as [|[k rte] rest IH]; intros r H Hin; simpl; [now split |].
  assert (Hrest : forall k' rte', In (k', rte') rest ->
            RTE.addr rte' = k' /\ (k' = id r -> RTE.timeout rte' = None))
    by (intros; apply Hin; now right).
  destruct (Hin k rte (or_introl eq_refl)) as [Hk Hself].
  destruct (RTE.timeout rte) as [stamp|] eqn:Et; [| now apply IH].
  destruct (age_ge now stamp ROUTE_TIMEOUT); [| now apply IH].
  assert (Hne : k <> id r) by (intros E; specialize (Hself E); discriminate).
  apply (and_then_state (fun x => table_inv x /\ id x = id r)).
  - split; [| now rewrite id_log].
    apply table_inv_log. apply table_inv_store; [exact Hne | exact Hk |].
    now apply (table_inv_ext (r:=r)).
  - intros r' [H' Hid]. destruct (IH r' H') as [H1 H2].
    + intros k' rte' Hi. rewrite Hid. now apply Hrest.
    + split; [exact H1 | congruence].
Qed.

Lemma table_inv_entries (r : t) :
  table_inv r ->
  forall k rte, In (k, rte) (routing_table r) ->
                RTE.addr rte = k /\ (k = id r -> is_self_entry r rte).
Proof.
  intros [Hnd Hks (s & Hs & Hself)] k rte Hin. split.
  - unfold keys_are_addrs in Hks. rewrite Forall_forall in Hks.
    exact (Hks _ Hin).
  - intros ->. apply (@dict_In_get _ _ _ _ Hnd) in Hin. congruence.
Qed.

Lemma table_inv_check_timeout (now : Z) (r : t) :
  table_inv r -> table_inv (state_of (check_timeout now r)).
Proof.
  intros H. apply table_inv_check_timeout_loop; [exact H |].
  intros k rte Hin. destruct (@table_inv_entries _ H _ _ Hin) as [Hk Hs].
  split; [exact Hk |]. intros E. apply Hs in E. apply E.
Qed.

Lemma garbage_to_delete_sound (now : Z) (rtes : list RTE.t) :
  forall l, garbage_to_delete now rtes = inr l ->
            forall a, In a l ->
                      exists rte, In rte rtes /\ RTE.addr rte = a
                                  /\ RTE.is_garbage rte = true.
Proof.
  induction rtes as [|rte rest IH]; simpl; intros l H a Ha.
  - inversion H; subst. contradiction.
  - destruct (RTE.is_garbage rte) eqn:Eg.
    + destruct (RTE.timeout rte) as [stamp|]; [| discriminate].
      destruct (garbage_to_delete now rest) as [e|l']; [discriminate |].
      inversion H; subst; clear H.
      destruct (age_ge now stamp DELETE_TIMEOUT).
      * destruct Ha as [<-|Ha]; [exists rte; auto |].
        destruct (IH l' eq_refl a Ha) as (x & Hx & Hx'). exists x. auto.
      * destruct (IH l' eq_refl a Ha) as (x & Hx & Hx'). exists x. auto.
    + destruct (IH l H a Ha) as (x & Hx & Hx'). exists x. auto.
Qed.

Lemma table_inv_delete_loop (to_delete : list Z) :
  forall r, table_inv r -> ~ In (id r) to_delete ->
            table_inv (state_of (delete_loop to_delete r)).
Proof.
  induction to_delete as [|a rest IH]; intros r H Hnot; simpl; [exact H |].
  destruct (dict_del (routing_table r) a) as [tb|] eqn:Ed; [| exact H].
  apply IH; [| simpl in *; tauto].
  destruct H as [Hnd Hks (s & Hs & Hself)]. split; simpl.
  - exact (@dict_del_NoDup _ _ _ _ Ed Hnd).
  - unfold keys_are_addrs in *. rewrite Forall_forall in *.
    intros kv Hin. apply Hks. exact (@dict_del_incl _ _ _ _ Ed _ Hin).
  - exists s. split; [| exact Hself].
    rewrite (@dict_del_get _ _ _ _ _ Ed); [exact Hs |]. simpl in Hnot. tauto.
Qed.

Lemma table_inv_check_is_garbage (now : Z) (r : t) :
  table_inv r -> table_inv (state_of (check_is_garbage now r)).
Proof.
  intros H. unfold check_is_garbage.
  destruct (garbage_to_delete now (dict_values (routing_table r)))
    as [e|to_delete] eqn:Eg; [exact H |].
  apply and_then_state.
  - apply table_inv_delete_loop; [exact H |].
    intros Hin. destruct (@garbage_to_delete_sound _ _ _ Eg _ Hin) as (rte & Hr & Ha & Hg).
    unfold dict_values in Hr. apply in_map_iff in Hr.
    destruct Hr as ([k v] & Ev & Hkv). simpl in Ev. subst v.
    destruct (@table_inv_entries _ H _ _ Hkv) as [Hk Hs].
    assert (E : k = id r) by congruence.
    apply Hs in E. destruct E as (_ & _ & _ & _ & _ & Hng & _). congruence.
  - intros r' H'. destruct (0 <? _); [now apply table_inv_log | exact H'].
Qed.

Lemma table_inv_timer (now : Z) (f : timer_fn) (r : t) :
  table_inv r -> table_inv (state_of (timer now f r)).
Proof.
  intros H. unfold timer. destruct (end_life r); [exact H |].
  apply and_then_state.
  - destruct f; [now apply table_inv_update | now apply table_inv_check_timeout
                 | now apply table_inv_check_is_garbage].
  - intros r' H'. now apply (table_inv_ext (r:=r')).
Qed.

Lemma table_inv_init (now : Z) (config : RouterConfig.t) (r : t) :
  init now config = inr r -> table_inv r.
Proof.
  unfold init. destruct (config_outputs _ _) as [e|outs]; [discriminate |].
  unfold log_routing_table. cbn [routing_table id dict_set dict_get].
  rewrite Z.eqb_refl. intros H. inversion H; subst; clear H.
  split; simpl.
  - constructor; [simpl; tauto | constructor].
  - repeat constructor.
  - rewrite Z.eqb_refl. eexists. split; [reflexivity |].
    unfold is_self_entry. simpl. tauto.
Qed.

Lemma table_inv_step (r r' : t) : step r r' -> table_inv r -> table_inv r'.
Proof.
  intros [now datagrams r0 | now f r0] H;
    [now apply table_inv_handle_inputs | now apply table_inv_timer].
Qed.

Lemma table_inv_reachable (r0 r : t) :
  table_inv r0 -> reachable r0 r -> table_inv r.
Proof.
  intros H0. induction 1 as [|r r' _ IH Hs]; [exact H0 |].
  exact (@table_inv_step _ _ Hs IH).
Qed.

Lemma filter_addr_absent (me : Z) (tb : dict RTE.t) :
  keys_are_addrs tb -> ~ In me (dict_keys tb) ->
  filter (fun e => RTE.addr e =? me) (dict_values tb) = [].
Proof.
  unfold keys_are_addrs.
  induction 1 as [|[k v] rest Hkv Hrest IH]; simpl; intros Hnot; [reflexivity |].
  simpl in Hkv. destruct (Z.eqb_spec (RTE.addr v) me) as [E|E].
  - exfalso. apply Hnot. left. congruence.
  - apply IH. tauto.
Qed.

Lemma filter_addr_once (me : Z) (tb : dict RTE.t) (s : RTE.t) :
  keys_are_addrs tb -> NoDup (dict_keys tb) -> dict_get tb me = Some s ->
  length (filter (fun e => RTE.addr e =? me) (dict_values tb)) = 1%nat.
Proof.
  unfold keys_are_addrs.
  induction 1 as [|[k v] rest Hkv Hrest IH]; simpl; intros Hnd Hs;
    [discriminate |].
  simpl in Hkv. inversion Hnd as [|? ? Hnot Hnd']; subst.
  destruct (Z.eqb_spec (RTE.addr v) me) as [E|E]; simpl.
  - rewrite filter_addr_absent; [reflexivity | exact Hrest | congruence].
  - now apply IH.
Qed.

Lemma table_inv_count_self (r : t) : table_inv r -> count_self r = 1%nat.
Proof.
  intros [Hnd Hks (s & Hs & _)]. unfold count_self.
  exact (@filter_addr_once _ _ s Hks Hnd Hs).
Qed.

End TableInvariantTimers.

(* ------------------------------------------------------------------ *)
(** * C5: the self entry *)

(** C5: in every state a router reaches from [__init__] by receives and
    timer ticks, the routing table holds exactly one entry whose addr is the
    router's id; it sits under that id, with next_hop 0, metric 0, imported,
    not changed, not garbage and without a timeout stamp. *)
Theorem self_entry_invariant :
  forall (now : Z) (config : RouterConfig.t) (r0 r : Router.t),
    Router.init now config = inr r0 ->
    reachable r0 r ->
    count_self r = 1%nat
    /\ exists s,
        dict_get (Router.routing_table r) (Router.id r) = Some s
        /\ RTE.addr s = Router.id r
        /\ RTE.next_hop s = 0 /\ RTE.metric s = 0
        /\ RTE.imported s = true /\ RTE.changed s = false
        /\ RTE.is_garbage s = false /\ RTE.timeout s = None.
Proof.
  intros now config r0 r Hinit Hreach.
  assert (H : table_inv r)
    by (eapply table_inv_reachable; [eapply table_inv_init; exact Hinit | exact Hreach]).
  split; [now apply table_inv_count_self |].
  destruct H as [_ _ (s & Hs & Hself)]. exists s. split; [exact Hs | exact Hself].
Qed.

Lemma self_entry_invariant_witness :
  Router.init 0 demo_config = inr demo_router
  /\ reachable demo_router
       (Router.state_of
          (Router.timer 40000000 Router.FnCheckTimeout
             (Router.state_of (Router.handle_inputs 7000000 [demo_datagram] demo_router))))
  /\ count_self
       (Router.state_of
          (Router.timer 40000000 Router.FnCheckTimeout
             (Router.state_of (Router.handle_inputs 7000000 [demo_datagram] demo_router))))
     = 1%nat.
Proof.
  assert (Hi : Router.init 0 demo_config = inr demo_router) by reflexivity.
  assert (Hr : reachable demo_router
       (Router.state_of
          (Router.timer 40000000 Router.FnCheckTimeout
             (Router.state_of (Router.handle_inputs 7000000 [demo_datagram] demo_router))))).
  { eapply reach_step; [eapply reach_step; [apply reach_refl |] |].
    - apply step_receive.
    - apply step_timer. }
  split; [exact Hi |]. split; [exact Hr |].
  exact (proj1 (@self_entry_invariant 0 demo_config demo_router _ Hi Hr)).
Defined.

(* ------------------------------------------------------------------ *)
(** * The receive path *)

Section ReceivePath.

Import Router.

Lemma trace_store (k : Z) (v : RTE.t) (r : t) : trace (store k v r) = trace r.
Proof. reflexivity. Qed.

Lemma trace_update_routing_table_loop (now : Z) (h : option Header.t)
      (rtes : list RTE.t) :
  forall r, trace (state_of (update_routing_table_loop now h rtes r)) = trace r.
Proof.
  induction rtes as [|rte rest IH]; intros r; simpl; [reflexivity |].
  destruct (negb (RTE.addr rte =? id r)); [| apply IH].
  destruct h as [h|]; [| reflexivity].
  destruct (dict_get (outputs r) (Header.src h)) as [out|]; [| reflexivity].
  destruct (dict_get (routing_table r) (RTE.addr rte)) as [cur|].
  - rewrite IH.
    repeat match goal with
           | |- context [if ?b then _ else _] => destruct b
           end; reflexivity.
  - destruct (_ =? RTE.MAX_METRIC); reflexivity.
Qed.

Lemma trace_receive_loop (now : Z) (datagrams : list (list byte)) :
  forall r, trace (state_of (receive_loop now datagrams r)) = trace r.
Proof.
  induction datagrams as [|data rest IH]; intros r; simpl; [reflexivity |].
  destruct (Packet.init_data now data) as [p|]; [| reflexivity].
  unfold update_routing_table.
  destruct (Packet.rtes p) as [rtes|]; [| reflexivity].
  pose proof (trace_update_routing_table_loop now (Packet.header p) rtes r) as Ht.
  destruct (update_routing_table_loop now (Packet.header p) rtes r) as [r1|e r1];
    simpl in *; [now rewrite IH | exact Ht].
Qed.

Lemma handle_inputs_inert (now : Z) (datagrams : list (list byte)) (r : t) :
  exists evs,
    trace (state_of (handle_inputs now datagrams r)) = trace r ++ evs
    /\ Forall inert evs.
Proof.
  unfold handle_inputs.
  pose proof (trace_receive_loop now datagrams r) as Ht.
  destruct (receive_loop now datagrams r) as [r1|e r1]; simpl in *.
  - destruct (changed r1).
    + unfold log_routing_table.
      destruct (dict_get (routing_table r1) (id r1)) as [s|]; simpl.
      * destruct (collect_changed _) as [c tb]. simpl. rewrite Ht.
        rewrite <- app_assoc. eexists. split; [reflexivity |].
        repeat constructor.
      * exists []. rewrite app_nil_r. now split.
    + exists []. rewrite app_nil_r. now split.
  - exists []. rewrite app_nil_r. now split.
Qed.

End ReceivePath.

(* ------------------------------------------------------------------ *)
(** * C1: the triggered update *)

(** C1 fails on the code. A receive that marks a route changed logs the
    table, collects the changed RTEs, clears their flags and the table-level
    flag, and builds the two-second Timer, but never starts it: whatever is
    received, [handle_inputs] sends no datagram and arms no timer. On
    [demo_datagram] the new route to 2 is logged as changed and handed,
    flag cleared, to a Timer that stays unstarted. *)
Theorem triggered_update_is_never_started :
  (forall (now : Z) (datagrams : list (list byte)) (r : Router.t),
      exists evs,
        Router.trace (Router.state_of (Router.handle_inputs now datagrams r))
        = Router.trace r ++ evs
        /\ Forall inert evs)
  /\ Router.handle_inputs 7000000 [demo_datagram] demo_router
     = Router.Ok
         {| Router.id := 1;
            Router.inputs := [(5001, 5001)];
            Router.outputs := [(2, Router.mk_out 5002 1); (4, Router.mk_out 5004 1)];
            Router.routing_table :=
              [(1, demo_self);
               (2, RTE.mk 2 0 2 0 2 1 false false false (Some 7000000))];
            Router.changed := false;
            Router.end_life := false;
            Router.trace :=
              [Router.Log [demo_self];
               Router.Log [demo_self;
                           RTE.mk 2 0 2 0 2 1 true false false (Some 7000000)];
               Router.TimerObj 2
                 (Router.CbUpdate
                    [RTE.mk 2 0 2 0 2 1 false false false (Some 7000000)])
                 false] |}.
Proof.
  split; [exact handle_inputs_inert | vm_compute; reflexivity].
Qed.

(* ------------------------------------------------------------------ *)
(** * C3: every RTE of a datagram *)

(** C3 fails on the code. [demo_datagram] carries two routes new to
    [demo_router]; [update_routing_table] installs the first (to 2) and
    returns, so the route to 3 is not installed, although the same RTE
    received alone is. A first RTE that is unreachable from scratch
    ends the method just the same. *)
Theorem update_routing_table_returns_after_new_route :
  Packet.init_data 7000000 demo_datagram
  = Some (Packet.mk (Some (Header.mk 2 2 2))
            (Some [demo_rte2 7000000; demo_rte3 7000000]))
  /\ Router.routing_table
       (Router.state_of
          (Router.update_routing_table 7000000
             (Packet.mk (Some (Header.mk 2 2 2))
                (Some [demo_rte2 7000000; demo_rte3 7000000]))
             demo_router))
     = [(1, demo_self); (2, RTE.mk 2 0 2 0 2 1 true false false (Some 7000000))]
  /\ Router.routing_table
       (Router.state_of
          (Router.update_routing_table 7000000
             (Packet.mk (Some (Header.mk 2 2 2)) (Some [demo_rte3 7000000]))
             demo_router))
     = [(1, demo_self); (3, RTE.mk 2 0 3 0 2 2 true false false (Some 7000000))]
  /\ Router.update_routing_table 7000000
       (Packet.mk (Some (Header.mk 2 2 2))
          (Some [RTE.mk 2 0 5 0 5 16 false false false (Some 7000000);
                 demo_rte3 7000000]))
       demo_router
     = Router.Ok demo_router.
Proof.
  repeat split; vm_compute; reflexivity.
Qed.

(* ------------------------------------------------------------------ *)
(** * C2: datagrams from an unknown sender *)

Lemma unknown_sender_loop (now : Z) (h : Header.t) (rtes : list RTE.t) (r : Router.t) :
  dict_get (Router.outputs r) (Header.src h) = None ->
  Router.update_routing_table_loop now (Some h) rtes r
  = if forallb (fun rte => RTE.addr rte =? Router.id r) rtes
    then Router.Ok r else Router.Raise KeyError r.
Proof.
  intros Hout. induction rtes as [|rte rest IH]; simpl; [reflexivity |].
  destruct (RTE.addr rte =? Router.id r); simpl; [exact IH |].
  now rewrite Hout.
Qed.

(** C2, as stated, fails: a datagram from router 9, which is not a key of
    [outputs], makes the lookup of the link metric raise [KeyError], and the
    exception leaves [update_routing_table] and [handle_inputs]. *)
Lemma unknown_sender_raises_key_error :
  Packet.init_data 7000000 stranger_datagram
  = Some (Packet.mk (Some (Header.mk 2 2 9)) (Some [demo_rte3 7000000]))
  /\ dict_get (Router.outputs demo_router) 9 = None
  /\ Router.handle_inputs 7000000 [stranger_datagram] demo_router
     = Router.Raise KeyError demo_router.
Proof.
  repeat split; vm_compute; reflexivity.
Qed.

(** C2, amended: a received datagram whose header src is not a key of
    [outputs] leaves the routing table, and the whole router state,
    unchanged. When every RTE of it has the router's own id as addr (or it
    has no RTE) it is dropped without an exception and the receive goes on
    with the next datagram; otherwise [KeyError] is raised at the first
    other RTE and leaves both [update_routing_table] and [handle_inputs]. *)
Theorem unknown_sender_datagram :
  forall (now : Z) (data : list byte) (h : Header.t) (rtes : list RTE.t)
         (rest : list (list byte)) (r : Router.t),
    Packet.init_data now data = Some (Packet.mk (Some h) (Some rtes)) ->
    dict_get (Router.outputs r) (Header.src h) = None ->
    Router.update_routing_table now (Packet.mk (Some h) (Some rtes)) r
    = (if forallb (fun rte => RTE.addr rte =? Router.id r) rtes
       then Router.Ok r else Router.Raise KeyError r)
    /\ Router.handle_inputs now (data :: rest) r
       = (if forallb (fun rte => RTE.addr rte =? Router.id r) rtes
          then Router.handle_inputs now rest r else Router.Raise KeyError r).
Proof.
  intros now data h rtes rest r Hd Hout.
  assert (Hu : Router.update_routing_table now (Packet.mk (Some h) (Some rtes)) r
               = (if forallb (fun rte => RTE.addr rte =? Router.id r) rtes
                  then Router.Ok r else Router.Raise KeyError r))
    by (unfold Router.update_routing_table; simpl; now apply unknown_sender_loop).
  split; [exact Hu |].
  unfold Router.handle_inputs. cbn [Router.receive_loop]. rewrite Hd, Hu.
  destruct (forallb _ rtes); reflexivity.
Qed.

Lemma unknown_sender_datagram_witness :
  Packet.init_data 7000000 stranger_datagram
  = Some (Packet.mk (Some (Header.mk 2 2 9)) (Some [demo_rte3 7000000]))
  /\ dict_get (Router.outputs demo_router) (Header.src (Header.mk 2 2 9)) = None
  /\ Router.update_routing_table 7000000
       (Packet.mk (Some (Header.mk 2 2 9)) (Some [demo_rte3 7000000])) demo_router
     = Router.Raise KeyError demo_router
  /\ Router.handle_inputs 7000000 [stranger_datagram; demo_datagram] demo_router
     = Router.Raise KeyError demo_router.
Proof.
  assert (Hd : Packet.init_data 7000000 stranger_datagram
               = Some (Packet.mk (Some (Header.mk 2 2 9)) (Some [demo_rte3 7000000])))
    by (vm_compute; reflexivity).
  assert (Ho : dict_get (Router.outputs demo_router) (Header.src (Header.mk 2 2 9))
               = None) by reflexivity.
  split; [exact Hd |]. split; [exact Ho |].
  exact (@unknown_sender_datagram 7000000 stranger_datagram _ _ [demo_datagram]
           demo_router Hd Ho).
Defined.

(* ------------------------------------------------------------------ *)
(** * C4: poisoning *)

Section Poisoning.

Import Router.

Lemma dict_get_absent (V : Type) (d : dict V) (k : Z) :
  ~ In k (dict_keys d) -> dict_get d k = None.
Proof.
  induction d as [|[k0 v0] rest IH]; simpl; intros H; [reflexivity |].
  destruct (Z.eqb_spec k0 k) as [E|E]; [tauto |]. apply IH. tauto.
Qed.

Lemma check_timeout_loop_get (now : Z) (entries : dict RTE.t) :
  forall r,
    NoDup (dict_keys entries) ->
    (forall k e, In (k, e) entries -> dict_get (routing_table r) k = Some e) ->
    dict_get (routing_table r) (id r) <> None ->
    exists r',
      check_timeout_loop now entries r = Ok r'
      /\ forall k, dict_get (routing_table r') k
                   = match dict_get entries k with
                     | Some e => Some (tick_entry now e)
                     | None => dict_get (routing_table r) k
                     end.
Proof.
  induction entries as [|[k0 e0] rest IH]; intros r Hnd Hin Hself.
  - exists r. split; reflexivity.
  - inversion Hnd as [|? ? Hnot Hnd']; subst.
    assert (H0 : dict_get (routing_table r) k0 = Some e0)
      by (apply Hin; now left).
    (* the state after the visit of [(k0, e0)] *)
    assert (Hstep : exists r1,
               check_timeout_loop now ((k0, e0) :: rest) r
               = check_timeout_loop now rest r1
               /\ id r1 = id r
               /\ forall k, dict_get (routing_table r1) k
                            = if k0 =? k then Some (tick_entry now e0)
                              else dict_get (routing_table r) k).
    { unfold tick_entry, timed_out. cbn [check_timeout_loop].
      destruct (RTE.timeout e0) as [stamp|] eqn:Et.
      - destruct (age_ge now stamp ROUTE_TIMEOUT).
        + unfold log_routing_table. cbn [store with_changed with_table routing_table id].
          destruct (Z.eqb_spec k0 (id r)) as [E|E].
          * rewrite E, dict_get_set_same. cbn [and_then].
            eexists. split; [reflexivity | split; [reflexivity |]].
            intros k. simpl.
            destruct (Z.eqb_spec (id r) k) as [<-|Hk].
            -- rewrite dict_get_set_same. reflexivity.
            -- now rewrite dict_get_set_other.
          * rewrite dict_get_set_other by exact E.
            destruct (dict_get (routing_table r) (id r)) as [s|] eqn:Es;
              [| congruence].
            cbn [and_then]. eexists. split; [reflexivity | split; [reflexivity |]].
            intros k. simpl.
            destruct (Z.eqb_spec k0 k) as [<-|Hk].
            -- rewrite dict_get_set_same. reflexivity.
            -- now rewrite dict_get_set_other.
        + exists r. split; [reflexivity | split; [reflexivity |]]. intros k.
          destruct (Z.eqb_spec k0 k) as [<-|Hk]; [exact H0 | reflexivity].
      - exists r. split; [reflexivity | split; [reflexivity |]]. intros k.
        destruct (Z.eqb_spec k0 k) as [<-|Hk]; [exact H0 | reflexivity]. }
    destruct Hstep as (r1 & Heq & Hid & Hget).
    destruct (IH r1 Hnd') as (r' & Hr' & Hget').
    + intros k e Hke. rewrite Hget.
      destruct (Z.eqb_spec k0 k) as [<-|Hk]; [| apply Hin; now right].
      exfalso. apply Hnot. unfold dict_keys.
      change k0 with (fst (k0, e)). now apply in_map.
    + rewrite Hget, Hid. destruct (k0 =? id r); [discriminate | exact Hself].
    + exists r'. split; [now rewrite Heq |].
      intros k. rewrite Hget'. cbn [dict_get].
      destruct (Z.eqb_spec k0 k) as [<-|Hk].
      * rewrite (@dict_get_absent _ _ _ Hnot), Hget, Z.eqb_refl. reflexivity.
      * destruct (dict_get rest k); [reflexivity |].
        rewrite Hget. destruct (Z.eqb_spec k0 k); [contradiction | reflexivity].
Qed.

Lemma check_timeout_get (now : Z) (r : t) :
  table_inv r ->
  exists r',
    check_timeout now r = Ok r'
    /\ forall k, dict_get (routing_table r') k
                 = option_map (tick_entry now) (dict_get (routing_table r) k).
Proof.
  intros [Hnd _ (s & Hs & _)]. unfold check_timeout.
  destruct (@check_timeout_loop_get now (routing_table r) r Hnd) as (r' & Hr' & Hget).
  - intros k e Hin. now apply dict_In_get.
  - congruence.
  - exists r'. split; [exact Hr' |]. intros k. rewrite Hget.
    now destruct (dict_get (routing_table r) k).
Qed.

End Poisoning.

(** C4, as stated, fails twice. On the receive path the poisoning leaves the
    timeout stamp as it was (1 s, the receive being at 9 s). And
    [check_timeout] does not look at [is_garbage]: an entry poisoned at 31 s
    is poisoned again at 61 s, its change flag set and its stamp renewed. *)
Lemma poisoning_keeps_stamp_and_repeats :
  Router.update_routing_table 9000000
    (Packet.mk (Some (Header.mk 2 2 2)) (Some [demo_unreachable3 9000000]))
    (demo_router_with demo_route3)
  = Router.Ok
      (Router.with_changed true
         (demo_router_with (RTE.mk 2 0 3 0 2 16 true false true (Some 1000000))))
  /\ Router.routing_table
       (Router.state_of
          (Router.check_timeout 61000000 (demo_router_with demo_garbage3)))
     = [(1, demo_self);
        (3, RTE.mk 2 0 3 0 2 16 true false true (Some 61000000))].
Proof.
  split; vm_compute; reflexivity.
Qed.

(** C4, amended: a receive-path unreachable report from the current next hop
    on an entry whose metric is not yet 16 sets metric = 16,
    is_garbage = true and changed = true on that entry (and the table-level
    flag); an entry whose metric is already 16 is not poisoned again by it
    (a garbage one is left alone, a live one refreshed). [check_timeout]
    poisons every entry that has a timeout stamp (every non-imported one,
    live or garbage) aged 30 seconds or more: metric = 16, is_garbage = true,
    changed = true and timeout = now; the other entries are left as they
    are. *)
Theorem poisoning_transitions :
  forall (now : Z) (h : Header.t) (rte : RTE.t) (out : Router.out_entry)
         (cur : RTE.t) (r : Router.t),
    table_inv r ->
    RTE.addr rte <> Router.id r ->
    dict_get (Router.outputs r) (Header.src h) = Some out ->
    dict_get (Router.routing_table r) (RTE.addr rte) = Some cur ->
    RTE.next_hop cur = Header.src h ->
    16 <= RTE.metric rte + Router.metric out ->
    (exists r1,
        Router.update_routing_table now (Packet.mk (Some h) (Some [rte])) r
        = Router.Ok r1
        /\ if negb (RTE.metric cur =? 16) then
             exists cur',
               r1 = Router.with_changed true (Router.store (RTE.addr rte) cur' r)
               /\ RTE.metric cur' = 16 /\ RTE.is_garbage cur' = true
               /\ RTE.changed cur' = true
               /\ RTE.addr cur' = RTE.addr cur
               /\ RTE.next_hop cur' = RTE.next_hop cur
           else if RTE.is_garbage cur then r1 = r
           else r1 = Router.store (RTE.addr rte) (RTE.init_timeout now cur) r)
    /\ (exists r2,
           Router.check_timeout now r = Router.Ok r2
           /\ forall k, dict_get (Router.routing_table r2) k
                        = option_map (tick_entry now)
                            (dict_get (Router.routing_table r) k)).
Proof.
  intros now h rte out cur r Hinv Hne Hout Hcur Hnh Hm.
  split; [| now apply check_timeout_get].
  unfold Router.update_routing_table. cbn [Packet.rtes Packet.header].
  cbn [Router.update_routing_table_loop].
  apply Z.eqb_neq in Hne. rewrite Hne. cbn [negb].
  rewrite Hout.
  cbn [RTE.addr RTE.set_next_hop RTE.set_metric RTE.metric RTE.next_hop].
  rewrite Hcur, Hnh, Z.eqb_refl.
  rewrite Z.min_r by (unfold RTE.MAX_METRIC; lia).
  unfold RTE.MAX_METRIC. rewrite Z.leb_refl, andb_true_r.
  destruct (RTE.metric cur =? 16); cbn [negb].
  - destruct (RTE.is_garbage cur); cbn [negb]; eexists; split; reflexivity.
  - eexists. split; [reflexivity |]. unfold Router.poison_received.
    eexists. split; [reflexivity |]. simpl. repeat split. exact Hnh.
Qed.

Lemma demo_router_with_route3_inv : table_inv (demo_router_with demo_route3).
Proof.
  split; simpl.
  - repeat constructor; simpl; intuition discriminate.
  - repeat constructor.
  - exists demo_self. split; [reflexivity |]. repeat split.
Qed.

Lemma poisoning_transitions_witness :
  table_inv (demo_router_with demo_route3)
  /\ RTE.addr (demo_unreachable3 9000000) <> Router.id (demo_router_with demo_route3)
  /\ dict_get (Router.outputs (demo_router_with demo_route3))
       (Header.src (Header.mk 2 2 2)) = Some (Router.mk_out 5002 1)
  /\ dict_get (Router.routing_table (demo_router_with demo_route3))
       (RTE.addr (demo_unreachable3 9000000)) = Some demo_route3
  /\ RTE.next_hop demo_route3 = Header.src (Header.mk 2 2 2)
  /\ 16 <= RTE.metric (demo_unreachable3 9000000)
           + Router.metric (Router.mk_out 5002 1)
  /\ exists r2,
       Router.check_timeout 9000000 (demo_router_with demo_route3) = Router.Ok r2
       /\ forall k, dict_get (Router.routing_table r2) k
                    = option_map (tick_entry 9000000)
                        (dict_get (Router.routing_table (demo_router_with demo_route3)) k).
Proof.
  assert (H2 : RTE.addr (demo_unreachable3 9000000)
               <> Router.id (demo_router_with demo_route3))
    by (simpl; discriminate).
  assert (H3 : dict_get (Router.outputs (demo_router_with demo_route3))
                 (Header.src (Header.mk 2 2 2)) = Some (Router.mk_out 5002 1))
    by reflexivity.
  assert (H4 : dict_get (Router.routing_table (demo_router_with demo_route3))
                 (RTE.addr (demo_unreachable3 9000000)) = Some demo_route3)
    by reflexivity.
  assert (H5 : RTE.next_hop demo_route3 = Header.src (Header.mk 2 2 2))
    by reflexivity.
  assert (H6 : 16 <= RTE.metric (demo_unreachable3 9000000)
                     + Router.metric (Router.mk_out 5002 1))
    by (simpl; lia).
  repeat (split; [assumption || exact demo_router_with_route3_inv |]).
  exact (proj2 (@poisoning_transitions 9000000 _ _ _ _ _
                  demo_router_with_route3_inv H2 H3 H4 H5 H6)).
Defined.

(* ------------------------------------------------------------------ *)
(** * The emit path *)

Section EmitPath.

Import Router.

Lemma validated_rtes_split_horizon (now n : Z) (rtes : list RTE.t) :
  Forall2 (split_horizon_of n) rtes (validated_rtes now n rtes).
Proof.
  induction rtes as [|e rest IH]; simpl; constructor; [| exact IH].
  unfold split_horizon_of.
  destruct (RTE.next_hop e =? n); simpl; [repeat split | reflexivity].
Qed.

Lemma validated_rtes_law (now n : Z) (rtes : list RTE.t) :
  Forall (fun e' => 16 <= RTE.metric e' \/ RTE.next_hop e' <> n)
         (validated_rtes now n rtes).
Proof.
  induction rtes as [|e rest IH]; simpl; constructor; [| exact IH].
  destruct (Z.eqb_spec (RTE.next_hop e) n) as [E|E]; simpl.
  - left. unfold RTE.MAX_METRIC. lia.
  - now right.
Qed.

Lemma validated_rtes_keeps (now n : Z) (e : RTE.t) (rtes : list RTE.t) :
  In e rtes -> RTE.next_hop e <> n -> In e (validated_rtes now n rtes).
Proof.
  intros Hin Hne. induction rtes as [|e0 rest IH]; simpl in *; [contradiction |].
  destruct Hin as [->|Hin]; [| right; now apply IH].
  left. destruct (Z.eqb_spec (RTE.next_hop e) n); [contradiction | reflexivity].
Qed.

Lemma serialize_loop_concat (l : list RTE.t) :
  forall (packet bs : list byte),
    Packet.serialize_loop packet l = Some bs ->
    exists chunks,
      Forall2 (fun e c => RTE.serialize e = Some c) l chunks
      /\ bs = packet ++ concat chunks.
Proof.
  induction l as [|e rest IH]; intros packet bs H; simpl in H.
  - inversion H; subst. exists []. split; [constructor | now rewrite app_nil_r].
  - destruct (RTE.serialize e) as [c|] eqn:E; cbn [opt_bind] in H; [| discriminate].
    destruct (IH _ _ H) as (chunks & Hf & ->).
    exists (c :: chunks). split; [now constructor |].
    simpl. now rewrite <- app_assoc.
Qed.

Lemma Packet_serialize_datagram (now sock : Z) (h : option Header.t)
      (rtes : list RTE.t) (n : Z) (info : out_entry) (bytes : list byte) :
  Packet.serialize (Packet._from_host h (Some (validated_rtes now n rtes)))
  = inr bytes ->
  datagram_to now sock h rtes (SendTo sock bytes (port info)) (n, info).
Proof.
  intros H. exists bytes. split; [reflexivity |]. split; [exact H |].
  unfold Packet.serialize in H. cbn [Packet.header Packet.rtes Packet._from_host] in H.
  destruct h as [hd|]; [| discriminate].
  destruct (Header.serialize hd) as [hb|] eqn:Eh; [| discriminate].
  destruct (Packet.serialize_loop hb _) as [bs|] eqn:El; [| discriminate].
  inversion H; subst.
  destruct (serialize_loop_concat _ _ El) as (chunks & Hf & ->).
  exists hd, hb, chunks. repeat split; assumption.
Qed.

Lemma update_loop_sends (now sock : Z) (h : option Header.t) (rtes : list RTE.t)
      (outs : dict out_entry) :
  forall r,
  exists sends,
    trace (state_of (update_loop now sock h outs rtes r)) = trace r ++ sends
    /\ Forall2 (datagram_to now sock h rtes) sends (firstn (length sends) outs)
    /\ match raised (update_loop now sock h outs rtes r) with
       | None => length sends = length outs
       | Some _ => True
       end.
Proof.
  induction outs as [|[n info] rest IH]; intros r; simpl.
  - exists []. rewrite app_nil_r. repeat split. constructor.
  - destruct (Packet.serialize _) as [e|bytes] eqn:Es; simpl.
    + exists []. rewrite app_nil_r. repeat split. constructor.
    + destruct (IH (emit (SendTo sock bytes (port info)) r)) as (sends & Ht & Hf & Hr).
      exists (SendTo sock bytes (port info) :: sends). simpl in Ht.
      split; [rewrite Ht, <- app_assoc; reflexivity |].
      split.
      * simpl. constructor; [| exact Hf].
        now apply Packet_serialize_datagram.
      * destruct (raised _); [exact I | simpl; now rewrite Hr].
Qed.

Lemma update_sends (now : Z) (rtes : list RTE.t) (r : t) :
  exists sends,
    trace (state_of (update now rtes r)) = trace r ++ sends
    /\ match dict_values (inputs r) with
       | [] => sends = []
       | sock :: _ =>
           Forall2 (datagram_to now sock (Header.init_host (id r)) rtes)
                   sends (firstn (length sends) (outputs r))
           /\ match raised (update now rtes r) with
              | None => length sends = length (outputs r)
              | Some _ => True
              end
       end.
Proof.
  unfold update. destruct (dict_values (inputs r)) as [|sock rest].
  - exists []. simpl. now rewrite app_nil_r.
  - destruct (update_loop_sends now sock (Header.init_host (id r)) rtes (outputs r) r)
      as (sends & Ht & Hf & Hr).
    exists sends. repeat split; assumption.
Qed.

End EmitPath.

(* ------------------------------------------------------------------ *)
(** * C6: split horizon with poisoned reverse *)

(** The router knowing 3 through 2: the datagram for 2 carries that route
    poisoned, the datagram for 4 carries it as it is; the self entry passes
    untouched to both. *)
Example validated_rtes_demo :
  Router.validated_rtes 8000000 2 [demo_self; demo_route3]
  = [demo_self; RTE.mk 2 0 3 0 2 16 false false false (Some 8000000)]
  /\ Router.validated_rtes 8000000 4 [demo_self; demo_route3]
     = [demo_self; demo_route3].
Proof.
  split; reflexivity.
Qed.


(** C6: for every candidate list and every neighbour [n], the RTE list built
    for [n] has one RTE per candidate, in order: a candidate whose next_hop is
    [n] is replaced by an RTE with the same addr and next_hop and metric 16,
    every other candidate is passed through unchanged; so every RTE of it
    has metric at least 16 or a next_hop other than [n]. What [update] hands
    to [sendto] is, for the configured outputs in order, the serialized local
    header followed by the serialization of each RTE of that list. *)
Theorem split_horizon_poisoned_reverse :
  forall (now : Z) (rtes : list RTE.t) (r : Router.t),
    (forall n : Z,
        Forall2 (split_horizon_of n) rtes (Router.validated_rtes now n rtes)
        /\ Forall (fun e' => 16 <= RTE.metric e' \/ RTE.next_hop e' <> n)
                  (Router.validated_rtes now n rtes))
    /\ exists sends,
        Router.trace (Router.state_of (Router.update now rtes r))
        = Router.trace r ++ sends
        /\ match dict_values (Router.inputs r) with
           | [] => sends = []
           | sock :: _ =>
               Forall2 (datagram_to now sock (Header.init_host (Router.id r)) rtes)
                       sends (firstn (length sends) (Router.outputs r))
               /\ match Router.raised (Router.update now rtes r) with
                  | None => length sends = length (Router.outputs r)
                  | Some _ => True
                  end
           end.
Proof.
  intros now rtes r. split.
  - intros n. split;
      [apply validated_rtes_split_horizon | apply validated_rtes_law].
  - apply update_sends.
Qed.

(* ------------------------------------------------------------------ *)
(** * C9: the periodic update *)

Lemma validated_rtes_In (now n : Z) (e : RTE.t) (rtes : list RTE.t) :
  In e rtes ->
  In (if RTE.next_hop e =? n
      then RTE._from_host now (RTE.addr e) (RTE.next_hop e) RTE.MAX_METRIC
             (RTE.imported e)
      else e)
     (Router.validated_rtes now n rtes).
Proof.
  intros Hin. induction rtes as [|e0 rest IH]; simpl in *; [contradiction |].
  destruct Hin as [->|Hin]; [left | right; now apply IH].
  destruct (RTE.next_hop e =? n); reflexivity.
Qed.

(** C9, as stated, fails: [config_outputs] accepts a neighbour with id 0,
    and the periodic datagram sent to it carries the self entry of router 1
    rewritten by split horizon, with metric 16 (last byte x10) instead of
    0. *)
Lemma self_entry_is_poisoned_for_neighbour_zero :
  Router.init 0 (RouterConfig.mk 1 [5001] [Output.mk 0 5000 1])
  = inr (Router.mk 1 [(5001, 5001)] [(0, Router.mk_out 5000 1)]
           [(1, demo_self)] false false [Router.Log [demo_self]])
  /\ Router.validated_rtes 5000000 0 [demo_self]
     = [RTE.mk 2 0 1 0 0 16 false true false None]
  /\ Router.timer 5000000 Router.FnUpdate
       (Router.mk 1 [(5001, 5001)] [(0, Router.mk_out 5000 1)]
          [(1, demo_self)] false false [Router.Log [demo_self]])
     = Router.Ok
         (Router.mk 1 [(5001, 5001)] [(0, Router.mk_out 5000 1)]
            [(1, demo_self)] false false
            [Router.Log [demo_self];
             Router.SendTo 5001
               [x02; x02; x00; x01;
                x00; x02; x00; x00;  x00; x00; x00; x01;  x00; x00; x00; x00;
                x00; x00; x00; x00;  x00; x00; x00; x10]
               5000;
             Router.TimerObj 5 (Router.CbTimer Router.FnUpdate) true]).
Proof.
  repeat split; vm_compute; reflexivity.
Qed.

(** C9, amended: the periodic task calls [update] on all the values of the
    routing table. In every reachable state and for every neighbour id [n],
    the RTE list built for [n] has, in table order, one RTE per table entry
    with split horizon / poisoned reverse applied, the self entry among
    them: for every [n] other than 0 it is the self entry itself, with
    metric 0 and next_hop 0, not rewritten; for a neighbour with id 0 it is
    its poisoned copy, with the same addr and next_hop and metric 16. The
    datagrams handed to [sendto] are the serializations of these lists. *)
Theorem periodic_update_contents :
  forall (now0 now : Z) (config : RouterConfig.t) (r0 r : Router.t) (n : Z),
    Router.init now0 config = inr r0 ->
    reachable r0 r ->
    Router.timer now Router.FnUpdate r
    = (if Router.end_life r then Router.Ok r
       else Router.and_then
              (Router.update now (dict_values (Router.routing_table r)) r)
              (fun r' => Router.Ok
                 (Router.emit
                    (Router.TimerObj Router.TIMER (Router.CbTimer Router.FnUpdate) true)
                    r')))
    /\ Forall2 (split_horizon_of n)
         (dict_values (Router.routing_table r))
         (Router.validated_rtes now n (dict_values (Router.routing_table r)))
    /\ (exists s,
           dict_get (Router.routing_table r) (Router.id r) = Some s
           /\ RTE.addr s = Router.id r /\ RTE.metric s = 0 /\ RTE.next_hop s = 0
           /\ In (if n =? 0
                  then RTE.mk 2 0 (Router.id r) 0 0 16 false true false None
                  else s)
                 (Router.validated_rtes now n (dict_values (Router.routing_table r))))
    /\ exists sends,
        Router.trace
          (Router.state_of
             (Router.update now (dict_values (Router.routing_table r)) r))
        = Router.trace r ++ sends
        /\ match dict_values (Router.inputs r) with
           | [] => sends = []
           | sock :: _ =>
               Forall2 (datagram_to now sock (Header.init_host (Router.id r))
                          (dict_values (Router.routing_table r)))
                       sends (firstn (length sends) (Router.outputs r))
               /\ match Router.raised
                          (Router.update now (dict_values (Router.routing_table r)) r)
                  with
                  | None => length sends = length (Router.outputs r)
                  | Some _ => True
                  end
           end.
Proof.
  intros now0 now config r0 r n Hinit Hreach.
  assert (H : table_inv r)
    by (eapply table_inv_reachable; [eapply table_inv_init; exact Hinit | exact Hreach]).
  split; [reflexivity |].
  split; [apply validated_rtes_split_horizon |].
  split; [| apply update_sends].
  destruct H as [_ _ (s & Hs & Ha & Hnh & Hm & Hi & _)].
  exists s. repeat split; try assumption.
  assert (Hin : In s (dict_values (Router.routing_table r))).
  { apply dict_get_In in Hs. unfold dict_values.
    change s with (snd (Router.id r, s)). now apply in_map. }
  pose proof (validated_rtes_In now n _ _ Hin) as Hv.
  rewrite Hnh, Ha, Hi in Hv. rewrite (Z.eqb_sym n 0).
  destruct (0 =? n); exact Hv.
Qed.

Lemma periodic_update_contents_witness :
  Router.init 0 demo_config = inr demo_router
  /\ reachable demo_router
       (Router.state_of (Router.handle_inputs 7000000 [demo_datagram] demo_router))
  /\ Forall2 (split_horizon_of 2)
       [demo_self; RTE.mk 2 0 2 0 2 1 false false false (Some 7000000)]
       [demo_self; RTE.mk 2 0 2 0 2 16 false false false (Some 8000000)].
Proof.
  assert (Hi : Router.init 0 demo_config = inr demo_router) by reflexivity.
  assert (Hr : reachable demo_router
       (Router.state_of (Router.handle_inputs 7000000 [demo_datagram] demo_router)))
    by (eapply reach_step; [apply reach_refl | apply step_receive]).
  split; [exact Hi |]. split; [exact Hr |].
  exact (proj1 (proj2 (@periodic_update_contents 0 8000000 demo_config demo_router
                         _ 2 Hi Hr))).
Defined.

(* ------------------------------------------------------------------ *)
(** * The fixed wire fields are never read *)

Section Erasure.

Import Router.

Lemma erase_table_get (tb : dict RTE.t) (k : Z) :
  dict_get (erase_table tb) k = option_map erase_rte (dict_get tb k).
Proof.
  induction tb as [|[k0 v] rest IH]; simpl; [reflexivity |].
  destruct (k0 =? k); [reflexivity | exact IH].
Qed.

Lemma erase_table_set (tb : dict RTE.t) (k : Z) (v : RTE.t) :
  erase_table (dict_set tb k v) = dict_set (erase_table tb) k (erase_rte v).
Proof.
  induction tb as [|[k0 v0] rest IH]; simpl; [reflexivity |].
  destruct (k0 =? k); simpl; [reflexivity | now rewrite IH].
Qed.

Lemma erase_store (k : Z) (v : RTE.t) (r : t) :
  erase_router (store k v r) = store k (erase_rte v) (erase_router r).
Proof.
  unfold erase_router, store, with_table. simpl. now rewrite erase_table_set.
Qed.

Lemma erase_with_changed (c : bool) (r : t) :
  erase_router (with_changed c r) = with_changed c (erase_router r).
Proof. reflexivity. Qed.

Lemma erase_update_route (now k : Z) (cur rte : RTE.t) (r : t) :
  erase_router (update_route now k cur rte r)
  = update_route now k (erase_rte cur) (erase_rte rte) (erase_router r).
Proof.
  unfold update_route. rewrite erase_with_changed, erase_store. reflexivity.
Qed.

Lemma erase_poison_received (k : Z) (cur : RTE.t) (r : t) :
  erase_router (poison_received k cur r)
  = poison_received k (erase_rte cur) (erase_router r).
Proof.
  unfold poison_received. rewrite erase_with_changed, erase_store. reflexivity.
Qed.

Lemma erase_update_routing_table_loop (now : Z) (h : option Header.t)
      (rtes : list RTE.t) :
  forall r,
    update_routing_table_loop now (option_map erase_header h)
      (map erase_rte rtes) (erase_router r)
    = erase_outcome (update_routing_table_loop now h rtes r).
Proof.
  induction rtes as [|rte rest IH]; intros r; [reflexivity |].
  cbn [map update_routing_table_loop].
  change (RTE.addr (erase_rte rte)) with (RTE.addr rte).
  change (id (erase_router r)) with (id r).
  destruct (negb (RTE.addr rte =? id r)); [| apply IH].
  change (routing_table (erase_router r)) with (erase_table (routing_table r)).
  rewrite erase_table_get.
  destruct h as [h|]; [| reflexivity]. cbn [option_map].
  change (Header.src (erase_header h)) with (Header.src h).
  change (outputs (erase_router r)) with (outputs r).
  destruct (dict_get (outputs r) (Header.src h)) as [out|]; [| reflexivity].
  destruct (dict_get (routing_table r) (RTE.addr rte)) as [cur|]; cbn [option_map].
  - cbn [RTE.metric RTE.next_hop RTE.addr RTE.is_garbage RTE.set_metric
         RTE.set_next_hop erase_rte].
    repeat match goal with
           | |- context [if ?b then _ else _] => destruct b
           end;
      rewrite <- ?IH, ?erase_poison_received, ?erase_update_route, ?erase_store;
      reflexivity.
  - cbn [RTE.metric RTE.next_hop RTE.addr RTE.set_metric RTE.set_next_hop
         RTE.set_changed erase_rte].
    destruct (_ =? RTE.MAX_METRIC); [reflexivity |].
    cbn [erase_outcome]. rewrite erase_store, erase_with_changed. reflexivity.
Qed.

Lemma erase_update_routing_table (now : Z) (p : Packet.t) (r : t) :
  update_routing_table now (erase_packet p) (erase_router r)
  = erase_outcome (update_routing_table now p r).
Proof.
  unfold update_routing_table, erase_packet. cbn [Packet.rtes Packet.header].
  destruct (Packet.rtes p) as [rtes|]; [| reflexivity].
  apply erase_update_routing_table_loop.
Qed.

End Erasure.

Section ErasureDecode.

Import Router.

Lemma nth_error_slice (A : Type) (s e : nat) (l : list A) (i : nat) :
  nth_error (slice s e l) i
  = if (i <? e - s)%nat then nth_error l (s + i) else None.
Proof.
  unfold slice. rewrite nth_error_firstn.
  destruct (i <? e - s)%nat; [apply nth_error_skipn | reflexivity].
Qed.

Lemma slice_ext (A : Type) (s e : nat) (l1 l2 : list A) :
  (forall i, (s <= i < e)%nat -> nth_error l1 i = nth_error l2 i) ->
  slice s e l1 = slice s e l2.
Proof.
  intros H. apply nth_error_ext. intros i. rewrite !nth_error_slice.
  destruct (Nat.ltb_spec i (e - s)); [apply H; lia | reflexivity].
Qed.

Lemma slice_length_min (A : Type) (s e : nat) (l : list A) :
  length (slice s e l) = Nat.min (e - s) (length l - s).
Proof.
  unfold slice. now rewrite length_firstn, length_skipn.
Qed.

Lemma fixed_field_pos_header (i : nat) :
  (2 <= i < 4)%nat -> fixed_field_pos i = false.
Proof.
  intros H. unfold fixed_field_pos.
  destruct (Nat.ltb_spec i 4); [| lia].
  destruct (Nat.ltb_spec i 2); [lia | reflexivity].
Qed.

Lemma fixed_field_pos_rte (j o : nat) :
  (4 <= o < 8)%nat \/ (12 <= o < 20)%nat ->
  fixed_field_pos (4 + 20 * j + o) = false.
Proof.
  intros H. unfold fixed_field_pos.
  destruct (Nat.ltb_spec (4 + 20 * j + o) 4); [lia |].
  replace (4 + 20 * j + o - 4)%nat with (o + j * 20)%nat by lia.
  rewrite Nat.Div0.mod_add, Nat.mod_small by lia. cbv zeta.
  destruct (Nat.ltb_spec o 4); [lia |].
  destruct (Nat.leb_spec 8 o); [| reflexivity].
  destruct (Nat.ltb_spec o 12); [lia | reflexivity].
Qed.

Lemma header_decode_agree (d1 d2 : list byte) :
  wire_equiv d1 d2 ->
  option_map erase_header (Header._from_network (slice 0 Header.SIZE d1))
  = option_map erase_header (Header._from_network (slice 0 Header.SIZE d2)).
Proof.
  intros [Hlen Hpos]. unfold Header._from_network.
  rewrite !slice_length_min, Hlen.
  destruct (Nat.eqb _ Header.SIZE); [| reflexivity].
  cbn [option_map]. unfold erase_header. cbn [Header.src].
  do 3 f_equal. apply slice_ext. intros i Hi.
  rewrite !nth_error_slice. unfold Header.SIZE.
  destruct (Nat.ltb_spec i (4 - 0)); [| reflexivity].
  apply Hpos. now apply fixed_field_pos_header.
Qed.

Lemma chunk_field_agree (d1 d2 : list byte) (j a b : nat) :
  wire_equiv d1 d2 ->
  ((4 <= a)%nat /\ (b <= 8)%nat) \/ ((12 <= a)%nat /\ (b <= 20)%nat) ->
  slice a b (slice (4 + 20 * j) (4 + 20 * j + RTE.SIZE) d1)
  = slice a b (slice (4 + 20 * j) (4 + 20 * j + RTE.SIZE) d2).
Proof.
  intros [Hlen Hpos] Hab. apply slice_ext. intros i Hi.
  rewrite !nth_error_slice.
  destruct (Nat.ltb_spec i (4 + 20 * j + RTE.SIZE - (4 + 20 * j)));
    [| reflexivity].
  apply Hpos. apply fixed_field_pos_rte. lia.
Qed.

Lemma rte_decode_agree (now src_id : Z) (d1 d2 : list byte) (j : nat) :
  wire_equiv d1 d2 ->
  option_map erase_rte
    (RTE._from_network now (slice (4 + 20 * j) (4 + 20 * j + RTE.SIZE) d1) src_id)
  = option_map erase_rte
      (RTE._from_network now (slice (4 + 20 * j) (4 + 20 * j + RTE.SIZE) d2) src_id).
Proof.
  intros Hw. unfold RTE._from_network.
  rewrite !slice_length_min, (proj1 Hw).
  destruct (Nat.eqb _ RTE.SIZE); [| reflexivity].
  cbn [option_map]. unfold erase_rte.
  cbn [RTE.addr RTE.next_hop RTE.metric RTE.changed RTE.imported
       RTE.is_garbage RTE.timeout].
  rewrite (@chunk_field_agree d1 d2 j 4 8 Hw) by lia.
  rewrite (@chunk_field_agree d1 d2 j 12 16 Hw) by lia.
  rewrite (@chunk_field_agree d1 d2 j 16 20 Hw) by lia.
  reflexivity.
Qed.

Lemma rte_loop_agree (now src_id : Z) (d1 d2 : list byte) (count : nat) :
  wire_equiv d1 d2 ->
  forall j,
    option_map (map erase_rte) (Packet.rte_loop now src_id d1 (4 + 20 * j) count)
    = option_map (map erase_rte) (Packet.rte_loop now src_id d2 (4 + 20 * j) count).
Proof.
  intros Hw. induction count as [|c IH]; intros j; [reflexivity |].
  cbn [Packet.rte_loop].
  pose proof (@rte_decode_agree now src_id d1 d2 j Hw) as Hd.
  replace (4 + 20 * j + RTE.SIZE)%nat with (4 + 20 * S j)%nat in *
    by (unfold RTE.SIZE; lia).
  specialize (IH (S j)).
  destruct (RTE._from_network now (slice (4 + 20 * j) (4 + 20 * S j) d1) src_id)
    as [x1|];
    destruct (RTE._from_network now (slice (4 + 20 * j) (4 + 20 * S j) d2) src_id)
    as [x2|]; cbn [option_map opt_bind] in *; try discriminate; [| reflexivity].
  destruct (Packet.rte_loop now src_id d1 (4 + 20 * S j) c) as [l1|];
    destruct (Packet.rte_loop now src_id d2 (4 + 20 * S j) c) as [l2|];
    cbn [option_map opt_bind map] in *; try discriminate; [| reflexivity].
  congruence.
Qed.

Lemma packet_decode_agree (now : Z) (d1 d2 : list byte) :
  wire_equiv d1 d2 ->
  option_map erase_packet (Packet.init_data now d1)
  = option_map erase_packet (Packet.init_data now d2).
Proof.
  intros Hw. pose proof (proj1 Hw) as Hlen.
  destruct d1 as [|b1 t1]; destruct d2 as [|b2 t2]; try discriminate;
    [reflexivity |].
  cbn [Packet.init_data]. unfold Packet._from_network.
  pose proof (header_decode_agree Hw) as Hh. rewrite Hlen.
  destruct (Header._from_network (slice 0 Header.SIZE (b1 :: t1))) as [h1|];
    destruct (Header._from_network (slice 0 Header.SIZE (b2 :: t2))) as [h2|];
    cbn [option_map opt_bind] in *; try discriminate; [| reflexivity].
  assert (Hsrc : Header.src h1 = Header.src h2)
    by (unfold erase_header in Hh; congruence).
  pose proof (@rte_loop_agree now (Header.src h2) (b1 :: t1) (b2 :: t2)
                (Packet.rte_count (length (b2 :: t2))) Hw 0%nat) as Hl.
  rewrite Hsrc.
  change (4 + 20 * 0)%nat with Header.SIZE in Hl.
  destruct (Packet.rte_loop now (Header.src h2) (b1 :: t1) Header.SIZE _) as [l1|];
    destruct (Packet.rte_loop now (Header.src h2) (b2 :: t2) Header.SIZE _) as [l2|];
    cbn [option_map opt_bind] in *; try discriminate; [| reflexivity].
  unfold erase_packet. cbn [Packet.header Packet.rtes option_map].
  congruence.
Qed.

End ErasureDecode.

Section ErasureReceive.

Import Router.

Lemma erase_outcome_cases (o1 o2 : outcome) :
  erase_outcome o1 = erase_outcome o2 ->
  raised o1 = raised o2 /\ erase_router (state_of o1) = erase_router (state_of o2).
Proof.
  destruct o1 as [r1|e1 r1]; destruct o2 as [r2|e2 r2];
    cbn [erase_outcome state_of raised]; intros H; try discriminate H;
    split; congruence.
Qed.

Lemma erase_values_filter (f : Z -> bool) (tb : dict RTE.t) :
  dict_values (filter (fun kv => f (fst kv)) (erase_table tb))
  = map erase_rte (dict_values (filter (fun kv => f (fst kv)) tb)).
Proof.
  induction tb as [|[k v] rest IH]; simpl; [reflexivity |].
  destruct (f k); simpl; now rewrite IH.
Qed.

Lemma erase_log (r : t) :
  log_routing_table (erase_router r) = erase_outcome (log_routing_table r).
Proof.
  unfold log_routing_table.
  change (routing_table (erase_router r)) with (erase_table (routing_table r)).
  change (id (erase_router r)) with (id r).
  rewrite erase_table_get.
  destruct (dict_get (routing_table r) (id r)) as [s|]; cbn [option_map];
    [| reflexivity].
  rewrite (erase_values_filter (fun k => negb (k =? id r))).
  unfold erase_outcome, erase_router, emit. cbn [id inputs outputs routing_table
    changed end_life trace]. rewrite map_app. reflexivity.
Qed.

Lemma erase_collect_changed (tb : dict RTE.t) :
  collect_changed (erase_table tb)
  = (map erase_rte (fst (collect_changed tb)), erase_table (snd (collect_changed tb))).
Proof.
  induction tb as [|[k v] rest IH]; simpl; [reflexivity |].
  change (collect_changed (map (fun kv => (fst kv, erase_rte (snd kv))) rest))
    with (collect_changed (erase_table rest)).
  rewrite IH. destruct (collect_changed rest) as [c rest'].
  destruct (RTE.changed v); reflexivity.
Qed.

Lemma erase_handle_inputs_tail (r : t) :
  (if changed (erase_router r) then
     log_routing_table (erase_router r) >>> fun r =>
     let (changed_rtes, tb) := collect_changed (routing_table r) in
     let r := with_changed false (with_table tb r) in
     let delay := 2 in
     Ok (emit (TimerObj delay (CbUpdate changed_rtes) false) r)
   else Ok (erase_router r))
  = erase_outcome
      (if changed r then
         log_routing_table r >>> fun r =>
         let (changed_rtes, tb) := collect_changed (routing_table r) in
         let r := with_changed false (with_table tb r) in
         let delay := 2 in
         Ok (emit (TimerObj delay (CbUpdate changed_rtes) false) r)
       else Ok r).
Proof.
  change (changed (erase_router r)) with (changed r).
  destruct (changed r); [| reflexivity].
  rewrite erase_log.
  destruct (log_routing_table r) as [r1|e r1]; [| reflexivity].
  cbn [erase_outcome and_then].
  change (routing_table (erase_router r1)) with (erase_table (routing_table r1)).
  rewrite erase_collect_changed.
  destruct (collect_changed (routing_table r1)) as [c tb]. cbn [fst snd].
  unfold erase_outcome, erase_router, emit, with_changed, with_table.
  cbn [id inputs outputs routing_table changed end_life trace].
  rewrite map_app. reflexivity.
Qed.

Lemma receive_loop_agree (now : Z) (ds1 ds2 : list (list byte)) :
  Forall2 wire_equiv ds1 ds2 ->
  forall r1 r2,
    erase_router r1 = erase_router r2 ->
    erase_outcome (receive_loop now ds1 r1) = erase_outcome (receive_loop now ds2 r2).
Proof.
  induction 1 as [|d1 d2 t1 t2 Hw _ IH]; intros r1 r2 Hr; simpl;
    [now rewrite Hr |].
  pose proof (@packet_decode_agree now d1 d2 Hw) as Hp.
  destruct (Packet.init_data now d1) as [p1|];
    destruct (Packet.init_data now d2) as [p2|];
    cbn [option_map] in Hp; try discriminate; [| simpl; now rewrite Hr].
  assert (Hu : erase_outcome (update_routing_table now p1 r1)
               = erase_outcome (update_routing_table now p2 r2)).
  { rewrite <- !erase_update_routing_table. congruence. }
  apply erase_outcome_cases in Hu. destruct Hu as [Hra Hst].
  destruct (update_routing_table now p1 r1) as [r1'|e1 r1'];
    destruct (update_routing_table now p2 r2) as [r2'|e2 r2'];
    cbn [raised state_of] in Hra, Hst; try discriminate Hra; cbn [and_then].
  - apply IH. exact Hst.
  - cbn [erase_outcome]. congruence.
Qed.

Lemma handle_inputs_agree (now : Z) (ds1 ds2 : list (list byte)) (r1 r2 : t) :
  Forall2 wire_equiv ds1 ds2 ->
  erase_router r1 = erase_router r2 ->
  erase_outcome (handle_inputs now ds1 r1) = erase_outcome (handle_inputs now ds2 r2).
Proof.
  intros Hw Hr. unfold handle_inputs.
  pose proof (@receive_loop_agree now ds1 ds2 Hw r1 r2 Hr) as Hl.
  apply erase_outcome_cases in Hl. destruct Hl as [Hra Hst].
  destruct (receive_loop now ds1 r1) as [r1'|e1 r1'];
    destruct (receive_loop now ds2 r2) as [r2'|e2 r2'];
    cbn [raised state_of] in Hra, Hst; try discriminate Hra; cbn [and_then].
  - rewrite <- !erase_handle_inputs_tail. now rewrite Hst.
  - cbn [erase_outcome]. congruence.
Qed.

Lemma erase_table_agree (t1 t2 : dict RTE.t) :
  erase_table t1 = erase_table t2 ->
  dict_keys t1 = dict_keys t2
  /\ forall k, entries_agree (dict_get t1 k) (dict_get t2 k).
Proof.
  intros H. split.
  - assert (Hk : forall tb, dict_keys (erase_table tb) = dict_keys tb).
    { intros tb. unfold dict_keys, erase_table. rewrite map_map. reflexivity. }
    rewrite <- (Hk t1), <- (Hk t2). now rewrite H.
  - intros k. pose proof (erase_table_get t1 k) as H1.
    pose proof (erase_table_get t2 k) as H2. rewrite H in H1. rewrite H1 in H2.
    unfold entries_agree.
    destruct (dict_get t1 k) as [x|]; destruct (dict_get t2 k) as [y|];
      cbn [option_map] in H2; try discriminate; [| exact I].
    unfold erase_rte in H2. inversion H2. repeat split; assumption.
Qed.

Lemma decodes_agree (now : Z) (d1 d2 : list byte) :
  wire_equiv d1 d2 -> decodes now d1 = decodes now d2.
Proof.
  intros Hw. pose proof (@packet_decode_agree now d1 d2 Hw) as Hp.
  unfold decodes.
  destruct (Packet.init_data now d1); destruct (Packet.init_data now d2);
    cbn [option_map] in Hp; try discriminate; reflexivity.
Qed.

End ErasureReceive.

(* ------------------------------------------------------------------ *)
(** * C10: the fixed wire fields *)

(** C10: for received datagrams of equal length that differ only in the
    header's cmd or ver or in the afi, tag or mask fields of their RTEs, the
    decoder accepts the one exactly when it accepts the other, the receive
    raises in the one run exactly when it raises in the other, and the two
    resulting routing tables hold the same destinations in the same order
    and agree, per destination, on metric, next_hop, changed and
    is_garbage. *)
Theorem fixed_fields_are_ignored :
  forall (now : Z) (datagrams1 datagrams2 : list (list byte)) (r : Router.t),
    Forall2 wire_equiv datagrams1 datagrams2 ->
    Forall2 (fun d1 d2 => decodes now d1 = decodes now d2) datagrams1 datagrams2
    /\ Router.raised (Router.handle_inputs now datagrams1 r)
       = Router.raised (Router.handle_inputs now datagrams2 r)
    /\ dict_keys (Router.routing_table
                    (Router.state_of (Router.handle_inputs now datagrams1 r)))
       = dict_keys (Router.routing_table
                      (Router.state_of (Router.handle_inputs now datagrams2 r)))
    /\ forall k,
        entries_agree
          (dict_get (Router.routing_table
                       (Router.state_of (Router.handle_inputs now datagrams1 r))) k)
          (dict_get (Router.routing_table
                       (Router.state_of (Router.handle_inputs now datagrams2 r))) k).
Proof.
  intros now ds1 ds2 r Hw. split.
  - induction Hw as [|d1 d2 t1 t2 H _ IH]; constructor;
      [now apply decodes_agree | exact IH].
  - pose proof (@handle_inputs_agree now ds1 ds2 r r Hw eq_refl) as H.
    apply erase_outcome_cases in H. destruct H as [Hr Hs].
    split; [exact Hr |].
    apply erase_table_agree.
    exact (f_equal Router.routing_table Hs).
Qed.

Lemma demo_datagrams_wire_equiv : wire_equiv demo_datagram demo_datagram_variant.
Proof.
  split; [reflexivity |].
  intros i H.
  do 44 (destruct i as [|i];
         [first [reflexivity | vm_compute in H; discriminate H] |]).
  reflexivity.
Defined.

Lemma fixed_fields_are_ignored_witness :
  Forall2 wire_equiv [demo_datagram] [demo_datagram_variant]
  /\ Router.raised (Router.handle_inputs 7000000 [demo_datagram] demo_router)
     = Router.raised (Router.handle_inputs 7000000 [demo_datagram_variant] demo_router)
  /\ dict_keys (Router.routing_table
                  (Router.state_of
                     (Router.handle_inputs 7000000 [demo_datagram] demo_router)))
     = dict_keys (Router.routing_table
                    (Router.state_of
                       (Router.handle_inputs 7000000 [demo_datagram_variant]
                          demo_router))).
Proof.
  assert (Hw : Forall2 wire_equiv [demo_datagram] [demo_datagram_variant])
    by (constructor; [exact demo_datagrams_wire_equiv | constructor]).
  split; [exact Hw |].
  destruct (@fixed_fields_are_ignored 7000000 _ _ demo_router Hw)
    as (_ & Hr & Hk & _).
  split; [exact Hr | exact Hk].
Defined.

(* ------------------------------------------------------------------ *)
(** * Beyond the claims: the wire codec *)

Section CodecMore.

Lemma serialize_loop_wire_ok (l : list RTE.t) :
  forall packet bs,
    Packet.serialize_loop packet l = Some bs -> Forall rte_wire_ok l.
Proof.
  induction l as [|e rest IH]; intros packet bs H; [constructor |].
  simpl in H. destruct (RTE.serialize e) as [c|] eqn:E; cbn [opt_bind] in H;
    [| discriminate].
  constructor; [now apply RTE_serialize_wire_ok in E | now apply IH in H].
Qed.

Lemma rte_loop_concat (now src_id : Z) (l : list RTE.t) (chunks : list (list byte)) :
  Forall2 (fun e c => RTE.serialize e = Some c) l chunks ->
  forall pre,
    Packet.rte_loop now src_id (pre ++ concat chunks) (length pre) (length chunks)
    = Some (map (as_received now src_id) l).
Proof.
  induction 1 as [|e c es cs Hc _ IH]; intros pre; [reflexivity |].
  cbn [length Packet.rte_loop concat map].
  pose proof (RTE_serialize_length _ Hc) as Hlen.
  rewrite slice_app_shift by lia.
  replace (length pre - length pre)%nat with 0%nat by lia.
  replace (length pre + RTE.SIZE - length pre)%nat with 20%nat
    by (unfold RTE.SIZE; lia).
  rewrite slice_0_app by (symmetry; exact Hlen).
  rewrite (RTE_decode_serialize now src_id _ Hc). cbn [opt_bind].
  specialize (IH (pre ++ c)).
  rewrite length_app, Hlen, <- app_assoc in IH.
  unfold RTE.SIZE. rewrite IH. reflexivity.
Qed.

End CodecMore.

(** X1: serializing a packet succeeds exactly when every header and RTE
    field is inside the unsigned range of its format code ("!BBH" and
    "!HHIIII"); otherwise [struct.error] is raised. *)
Theorem serialize_accepts_exactly_wire_ranges :
  forall (h : Header.t) (l : list RTE.t),
    match Packet.serialize (Packet.mk (Some h) (Some l)) with
    | inr bs => header_wire_ok h /\ Forall rte_wire_ok l
    | inl e => e = StructError /\ ~ (header_wire_ok h /\ Forall rte_wire_ok l)
    end.
Proof.
  intros h l. unfold Packet.serialize. cbn [Packet.header Packet.rtes].
  destruct (Header.serialize h) as [hb|] eqn:Eh.
  - destruct (Packet.serialize_loop hb l) as [bs|] eqn:El.
    + split; [now apply Header_serialize_wire_ok in Eh
             | now apply serialize_loop_wire_ok in El].
    + split; [reflexivity |]. intros [_ Hl].
      destruct (serialize_loop_ok Hl hb) as [bs Hbs]. congruence.
  - split; [reflexivity |]. intros [Hh _].
    destruct (Header_serialize_ok Hh) as [hb Hhb]. congruence.
Qed.

Lemma serialize_then_decode (now : Z) (h : Header.t) (l : list RTE.t)
      (bs : list byte) :
  Packet.serialize (Packet.mk (Some h) (Some l)) = inr bs ->
  Packet.init_data now bs
  = Some (Packet.mk (Some h) (Some (map (as_received now (Header.src h)) l))).
Proof.
  intros H.
  assert (Hlen : length bs = (4 + 20 * length l)%nat)
    by (eapply Packet_serialize_length; [| exact H]; reflexivity).
  unfold Packet.serialize in H. cbn [Packet.header Packet.rtes] in H.
  destruct (Header.serialize h) as [hb|] eqn:Eh; [| discriminate].
  destruct (Packet.serialize_loop hb l) as [bs'|] eqn:El; [| discriminate].
  inversion H; subst bs'; clear H.
  destruct (serialize_loop_concat _ _ El) as (chunks & Hf & ->).
  pose proof (Header_serialize_length _ Eh) as Hhb.
  assert (Hk : length chunks = length l)
    by (symmetry; eapply Forall2_length; exact Hf).
  destruct (hb ++ concat chunks) as [|b0 t0] eqn:Ebs;
    [cbn [length] in Hlen; lia |].
  cbn [Packet.init_data]. rewrite <- Ebs in Hlen |- *.
  unfold Packet._from_network.
  rewrite slice_0_app by (unfold Header.SIZE; lia).
  rewrite (Header_roundtrip _ Eh). cbn [opt_bind].
  rewrite rte_count_ge by lia. rewrite Hlen.
  replace ((4 + 20 * length l - 4) / 20)%nat with (length chunks).
  - replace Header.SIZE with (length hb).
    rewrite (rte_loop_concat now (Header.src h) Hf hb). reflexivity.
  - rewrite Hk. replace (4 + 20 * length l - 4)%nat with (length l * 20)%nat by lia.
    now rewrite Nat.div_mul.
Qed.

(** X2: decoding what [Packet.serialize] produced gives back the header and,
    per RTE and in order, the six wire fields, a next hop of 0 being read as
    the header's src; the bookkeeping fields are those of a fresh received
    RTE (not changed, not imported, not garbage, stamped with the clock). *)
Theorem packet_roundtrip :
  forall (now : Z) (h : Header.t) (l : list RTE.t) (bs : list byte),
    Packet.serialize (Packet.mk (Some h) (Some l)) = inr bs ->
    Packet.init_data now bs
    = Some (Packet.mk (Some h) (Some (map (as_received now (Header.src h)) l))).
Proof.
  intros now h l bs H. now apply serialize_then_decode.
Qed.

Lemma packet_roundtrip_witness :
  Packet.serialize
    (Packet.mk (Some (Header.mk 2 2 1)) (Some [demo_self; demo_route3]))
  = inr [x02; x02; x00; x01;
         x00; x02; x00; x00;  x00; x00; x00; x01;  x00; x00; x00; x00;
         x00; x00; x00; x00;  x00; x00; x00; x00;
         x00; x02; x00; x00;  x00; x00; x00; x03;  x00; x00; x00; x00;
         x00; x00; x00; x02;  x00; x00; x00; x02]
  /\ Packet.init_data 5
       [x02; x02; x00; x01;
        x00; x02; x00; x00;  x00; x00; x00; x01;  x00; x00; x00; x00;
        x00; x00; x00; x00;  x00; x00; x00; x00;
        x00; x02; x00; x00;  x00; x00; x00; x03;  x00; x00; x00; x00;
        x00; x00; x00; x02;  x00; x00; x00; x02]
     = Some (Packet.mk (Some (Header.mk 2 2 1))
               (Some [RTE.mk 2 0 1 0 1 0 false false false (Some 5);
                      RTE.mk 2 0 3 0 2 2 false false false (Some 5)])).
Proof.
  assert (H : Packet.serialize
                (Packet.mk (Some (Header.mk 2 2 1)) (Some [demo_self; demo_route3]))
              = inr [x02; x02; x00; x01;
                     x00; x02; x00; x00;  x00; x00; x00; x01;  x00; x00; x00; x00;
                     x00; x00; x00; x00;  x00; x00; x00; x00;
                     x00; x02; x00; x00;  x00; x00; x00; x03;  x00; x00; x00; x00;
                     x00; x00; x00; x02;  x00; x00; x00; x02])
    by (vm_compute; reflexivity).
  split; [exact H |].
  exact (@packet_roundtrip 5 _ _ _ H).
Defined.

(** X3: two RTEs that both serialize are equal under [__eq__] exactly when
    their serializations are the same 20 bytes. *)
Theorem rte_eq_iff_same_bytes :
  forall (x y : RTE.t) (bx bY : list byte),
    RTE.serialize x = Some bx ->
    RTE.serialize y = Some bY ->
    (RTE.eqb x y = true <-> bx = bY).
Proof.
  intros x y bx bY Hx Hy. split.
  - unfold RTE.eqb. rewrite !andb_true_iff, !Z.eqb_eq.
    intros (((((Ha & Hd) & Hm) & Ht) & Hn) & Hmt).
    unfold RTE.serialize in Hx, Hy.
    rewrite Ha, Hd, Hm, Ht, Hn, Hmt in Hx. congruence.
  - intros ->.
    pose proof (RTE_decode_serialize 0 0 _ Hx) as Dx.
    pose proof (RTE_decode_serialize 0 0 _ Hy) as Dy.
    rewrite Dx in Dy. inversion Dy as [[Ha Ht Hd Hm Hn Hmt]].
    assert (Hn' : RTE.next_hop x = RTE.next_hop y).
    { destruct (Z.eqb_spec (RTE.next_hop x) 0);
        destruct (Z.eqb_spec (RTE.next_hop y) 0); congruence. }
    unfold RTE.eqb. rewrite Ha, Ht, Hd, Hm, Hn', Hmt, !Z.eqb_refl. reflexivity.
Qed.

Lemma rte_eq_iff_same_bytes_witness :
  RTE.serialize demo_route3
  = Some [x00; x02; x00; x00;  x00; x00; x00; x03;  x00; x00; x00; x00;
          x00; x00; x00; x02;  x00; x00; x00; x02]
  /\ RTE.serialize (RTE.mk 2 0 3 0 2 2 true true true None)
     = Some [x00; x02; x00; x00;  x00; x00; x00; x03;  x00; x00; x00; x00;
             x00; x00; x00; x02;  x00; x00; x00; x02]
  /\ RTE.eqb demo_route3 (RTE.mk 2 0 3 0 2 2 true true true None) = true.
Proof.
  assert (Hx : RTE.serialize demo_route3
               = Some [x00; x02; x00; x00;  x00; x00; x00; x03;  x00; x00; x00; x00;
                       x00; x00; x00; x02;  x00; x00; x00; x02])
    by (vm_compute; reflexivity).
  assert (Hy : RTE.serialize (RTE.mk 2 0 3 0 2 2 true true true None)
               = Some [x00; x02; x00; x00;  x00; x00; x00; x03;  x00; x00; x00; x00;
                       x00; x00; x00; x02;  x00; x00; x00; x02])
    by (vm_compute; reflexivity).
  split; [exact Hx |]. split; [exact Hy |].
  exact (proj2 (@rte_eq_iff_same_bytes _ _ _ _ Hx Hy) eq_refl).
Defined.

(* ------------------------------------------------------------------ *)
(** * Beyond the claims: what the decoder hands to the receive path *)

Section Decoded.

Lemma be_value_slice_bound (s e : nat) (l : list byte) (n : nat) :
  (e - s <= n)%nat -> 0 <= be_value (slice s e l) < 256 ^ Z.of_nat n.
Proof.
  intros H. pose proof (be_value_range (slice s e l)) as Hr.
  rewrite slice_length_min in Hr.
  assert (256 ^ Z.of_nat (Nat.min (e - s) (length l - s)) <= 256 ^ Z.of_nat n)
    by (apply Z.pow_le_mono_r; lia).
  lia.
Qed.

Lemma RTE_from_network_received_ok (now src_id : Z) (raw : list byte) (e : RTE.t) :
  RTE._from_network now raw src_id = Some e -> received_ok e.
Proof.
  unfold RTE._from_network. destruct (Nat.eqb _ _); [| discriminate].
  intros H. inversion H; subst; clear H. unfold received_ok. simpl.
  pose proof (@be_value_slice_bound 0 2 raw 2 ltac:(lia)).
  pose proof (@be_value_slice_bound 2 4 raw 2 ltac:(lia)).
  pose proof (@be_value_slice_bound 4 8 raw 4 ltac:(lia)).
  pose proof (@be_value_slice_bound 8 12 raw 4 ltac:(lia)).
  pose proof (@be_value_slice_bound 16 20 raw 4 ltac:(lia)).
  change (256 ^ Z.of_nat 2) with 65536 in *.
  change (256 ^ Z.of_nat 4) with 4294967296 in *.
  repeat split; try lia; discriminate.
Qed.

Lemma rte_loop_received_ok (now src_id : Z) (data : list byte) (count : nat) :
  forall rte_start l,
    Packet.rte_loop now src_id data rte_start count = Some l ->
    Forall received_ok l.
Proof.
  induction count as [|c IH]; intros rte_start l H; simpl in H.
  - inversion H. constructor.
  - destruct (RTE._from_network now _ src_id) as [e|] eqn:Ee;
      cbn [opt_bind] in H; [| discriminate].
    destruct (Packet.rte_loop now src_id data _ c) as [rest|] eqn:Er;
      cbn [opt_bind] in H; [| discriminate].
    inversion H; subst. constructor.
    + exact (RTE_from_network_received_ok _ _ _ Ee).
    + exact (IH _ _ Er).
Qed.

Lemma init_data_received_ok (now : Z) (data : list byte) (p : Packet.t) :
  Packet.init_data now data = Some p -> packet_received_ok p.
Proof.
  destruct data as [|b t]; simpl.
  - intros H. inversion H. exact I.
  - unfold Packet._from_network, Header._from_network.
    destruct (Nat.eqb _ Header.SIZE); cbn [opt_bind]; [| discriminate].
    destruct (Packet.rte_loop _ _ _ _ _) as [l|] eqn:El; cbn [opt_bind];
      [| discriminate].
    intros H. inversion H; subst; clear H.
    unfold packet_received_ok. cbn [Packet.header Packet.rtes Header.src].
    split; [| exact (rte_loop_received_ok _ _ _ _ _ El)].
    pose proof (@be_value_slice_bound 2 4 (slice 0 Header.SIZE (b :: t)) 2
                  ltac:(lia)) as Hb.
    change (256 ^ Z.of_nat 2) with 65536 in Hb. exact Hb.
Qed.

End Decoded.

(* ------------------------------------------------------------------ *)
(** * Beyond the claims: the state invariant *)

Section StateInvariant.

Import Router.

Lemma state_ok_ext (r r' : t) :
  id r' = id r -> routing_table r' = routing_table r ->
  outputs r' = outputs r -> changed r' = changed r ->
  state_ok r -> state_ok r'.
Proof.
  intros Hid Htb Hout Hch [Ht He Ho Hf].
  split; rewrite ?Hid, ?Htb, ?Hout, ?Hch; try assumption.
  exact (@table_inv_ext r r' Hid Htb Ht).
Qed.

Lemma state_ok_store_flagged (k : Z) (v : RTE.t) (r : t) :
  state_ok r -> k <> id r -> RTE.addr v = k -> entry_ok (id r) (k, v) ->
  state_ok (with_changed true (store k v r)).
Proof.
  intros [Ht He Ho Hf] Hne Hk Hv. split.
  - apply (@table_inv_ext (store k v r)); try reflexivity.
    now apply table_inv_store.
  - simpl. now apply dict_set_Forall.
  - exact Ho.
  - simpl. discriminate.
Qed.

Lemma state_ok_store_quiet (k : Z) (v : RTE.t) (r : t) :
  state_ok r -> k <> id r -> RTE.addr v = k -> entry_ok (id r) (k, v) ->
  (changed r = false -> RTE.changed v = false) ->
  state_ok (store k v r).
Proof.
  intros [Ht He Ho Hf] Hne Hk Hv Hc. split.
  - now apply table_inv_store.
  - simpl. now apply dict_set_Forall.
  - exact Ho.
  - simpl. intros E. apply dict_set_Forall; [now apply Hf | now apply Hc].
Qed.

Lemma state_ok_entry (r : t) (k : Z) (e : RTE.t) :
  state_ok r -> dict_get (routing_table r) k = Some e ->
  entry_ok (id r) (k, e) /\ RTE.addr e = k.
Proof.
  intros [Ht He _ _] Hg. split.
  - apply dict_get_In in Hg. rewrite Forall_forall in He. exact (He _ Hg).
  - exact (@table_inv_get_addr r k e Ht Hg).
Qed.

Lemma state_ok_update_routing_table_loop (now : Z) (h : option Header.t)
      (rtes : list RTE.t) :
  (forall hd, h = Some hd -> 0 <= Header.src hd < 65536) ->
  Forall received_ok rtes ->
  forall r, state_ok r ->
            state_ok (state_of (update_routing_table_loop now h rtes r)).
Proof.
  intros Hh. induction 1 as [|rte rest Hrte _ IH]; intros r Hok; [exact Hok |].
  cbn [update_routing_table_loop].
  destruct (Z.eqb_spec (RTE.addr rte) (id r)) as [E|E]; cbn [negb];
    [now apply IH |].
  destruct h as [hd|]; [| exact Hok].
  specialize (Hh hd eq_refl).
  destruct (dict_get (outputs r) (Header.src hd)) as [out|] eqn:Eo; [| exact Hok].
  assert (Hout : out_entry_ok (Header.src hd, out)).
  { destruct Hok as [_ _ Ho _]. rewrite Forall_forall in Ho.
    apply Ho. now apply dict_get_In. }
  destruct Hout as [Hlink _]. cbn [snd] in Hlink.
  destruct Hrte as (Ra & Rt & Rd & Rm & Rme & Ri & Rg & Rs).
  cbn [RTE.addr RTE.metric RTE.next_hop RTE.set_metric RTE.set_next_hop
       RTE.set_changed].
  set (eff := Z.min (RTE.metric rte + metric out) RTE.MAX_METRIC).
  assert (Heff : 1 <= eff <= 16) by (unfold eff, RTE.MAX_METRIC; lia).
  destruct (dict_get (routing_table r) (RTE.addr rte)) as [cur|] eqn:Ec.
  - destruct (state_ok_entry _ Hok Ec) as
      [(Ca & Ct & Cm & Cn & Cme & Cg & Cx) Cad].
    cbn [fst snd] in *. destruct (Cx E) as (Ci & Cs & C1 & Cd).
    apply IH.
    destruct (Z.eqb_spec (Header.src hd) (RTE.next_hop cur)) as [En|En].
    + destruct (Z.eqb_spec (RTE.metric cur) eff) as [Em|Em]; cbn [negb andb].
      * destruct (RTE.is_garbage cur) eqn:Eg; cbn [negb]; [exact Hok |].
        apply state_ok_store_quiet; try assumption.
        -- unfold entry_ok, RTE.init_timeout. cbn [fst snd RTE.afi RTE.tag
             RTE.mask RTE.next_hop RTE.metric RTE.is_garbage RTE.imported
             RTE.timeout RTE.addr RTE.set_is_garbage RTE.set_timeout].
           rewrite Ci. repeat split; try lia; try discriminate;
             try (intros E16; apply Cg in E16; congruence).
        -- intros Ech. destruct Hok as [_ _ _ Hf]. specialize (Hf Ech).
           unfold unflagged in Hf. rewrite Forall_forall in Hf.
           apply dict_get_In in Ec. exact (Hf _ Ec).
      * destruct (Z.leb_spec RTE.MAX_METRIC eff) as [E16|E16].
        -- apply state_ok_store_flagged; try assumption.
           unfold entry_ok. cbn [fst snd RTE.afi RTE.tag RTE.mask RTE.next_hop
             RTE.metric RTE.is_garbage RTE.imported RTE.timeout RTE.addr
             RTE.set_is_garbage RTE.set_metric RTE.set_changed].
           unfold RTE.MAX_METRIC. repeat split; try lia; try assumption.
        -- apply state_ok_store_flagged; try assumption.
           unfold entry_ok, RTE.init_timeout. cbn [fst snd RTE.afi RTE.tag
             RTE.mask RTE.next_hop RTE.metric RTE.is_garbage RTE.imported
             RTE.timeout RTE.addr RTE.set_is_garbage RTE.set_timeout
             RTE.set_metric RTE.set_changed RTE.set_next_hop].
           rewrite Ci. unfold RTE.MAX_METRIC in E16.
           repeat split; try lia; try discriminate.
    + destruct (Z.ltb_spec eff (RTE.metric cur)) as [El|El]; [| exact Hok].
      apply state_ok_store_flagged; try assumption.
      unfold entry_ok, RTE.init_timeout. cbn [fst snd RTE.afi RTE.tag
        RTE.mask RTE.next_hop RTE.metric RTE.is_garbage RTE.imported
        RTE.timeout RTE.addr RTE.set_is_garbage RTE.set_timeout
        RTE.set_metric RTE.set_changed RTE.set_next_hop].
      rewrite Ci. repeat split; try lia; try discriminate.
  - destruct (Z.eqb_spec eff RTE.MAX_METRIC) as [E16|E16]; [exact Hok |].
    unfold RTE.MAX_METRIC in E16.
    apply (@state_ok_store_flagged (RTE.addr rte)
             (RTE.mk (RTE.afi rte) (RTE.tag rte) (RTE.addr rte) (RTE.mask rte)
                (Header.src hd) eff true (RTE.imported rte) (RTE.is_garbage rte)
                (RTE.timeout rte)) r Hok E eq_refl).
    unfold entry_ok. cbn [fst snd RTE.afi RTE.tag RTE.mask RTE.next_hop
      RTE.metric RTE.is_garbage RTE.imported RTE.timeout RTE.addr].
    rewrite Rg. repeat split; try lia; try discriminate; try assumption.
Qed.

End StateInvariant.

Section StateInvariantOps.

Import Router.

Lemma state_ok_update_routing_table (now : Z) (p : Packet.t) (r : t) :
  packet_received_ok p -> state_ok r ->
  state_ok (state_of (update_routing_table now p r)).
Proof.
  intros Hp Hok. unfold update_routing_table, packet_received_ok in *.
  destruct (Packet.rtes p) as [rtes|]; [| exact Hok].
  destruct (Packet.header p) as [hd|]; [| contradiction].
  destruct Hp as [Hs Hl].
  apply state_ok_update_routing_table_loop; [| exact Hl | exact Hok].
  intros hd' E. inversion E; subst. exact Hs.
Qed.

Lemma state_ok_receive_loop (now : Z) (datagrams : list (list byte)) :
  forall r, state_ok r -> state_ok (state_of (receive_loop now datagrams r)).
Proof.
  induction datagrams as [|data rest IH]; intros r H; simpl; [exact H |].
  destruct (Packet.init_data now data) as [p|] eqn:Ep; [| exact H].
  apply and_then_state; [| exact IH].
  apply state_ok_update_routing_table; [| exact H].
  exact (init_data_received_ok _ _ Ep).
Qed.

Lemma state_ok_log (r : t) : state_ok r -> state_ok (state_of (log_routing_table r)).
Proof.
  intros H. unfold log_routing_table.
  destruct (dict_get (routing_table r) (id r)); simpl; [| exact H].
  now apply (@state_ok_ext r).
Qed.

Lemma collect_changed_Forall (P : Z * RTE.t -> Prop) (tb : dict RTE.t) :
  (forall k v, P (k, v) -> P (k, RTE.set_changed false v)) ->
  Forall P tb -> Forall P (snd (collect_changed tb)).
Proof.
  intros HP. induction 1 as [|[k v] rest Hkv _ IH]; simpl; [constructor |].
  destruct (collect_changed rest) as [c rest']. simpl in IH.
  destruct (RTE.changed v); simpl; constructor; auto.
Qed.

Lemma collect_changed_unflagged (tb : dict RTE.t) :
  unflagged (snd (collect_changed tb)).
Proof.
  unfold unflagged. induction tb as [|[k v] rest IH]; simpl; [constructor |].
  destruct (collect_changed rest) as [c rest']. simpl in IH.
  destruct (RTE.changed v) eqn:E; simpl; constructor; auto.
Qed.

Lemma state_ok_handle_inputs (now : Z) (datagrams : list (list byte)) (r : t) :
  state_ok r -> state_ok (state_of (handle_inputs now datagrams r)).
Proof.
  intros H.
  assert (Ht : table_inv (state_of (handle_inputs now datagrams r)))
    by (apply table_inv_handle_inputs; apply H).
  revert Ht. unfold handle_inputs.
  pose proof (state_ok_receive_loop now datagrams H) as H1.
  destruct (receive_loop now datagrams r) as [r1|e r1]; cbn [and_then state_of] in *;
    [| intros _; exact H1].
  destruct (changed r1); [| intros _; exact H1].
  pose proof (state_ok_log H1) as H2.
  destruct (log_routing_table r1) as [r2|e r2]; cbn [and_then state_of] in *;
    [| intros _; exact H2].
  destruct (collect_changed (routing_table r2)) as [c tb] eqn:Ec.
  assert (Etb : tb = snd (collect_changed (routing_table r2))) by now rewrite Ec.
  cbn [state_of]. intros Ht. destruct H2 as [_ He Ho _].
  split; [exact Ht | | exact Ho |]; simpl; subst tb.
  - apply collect_changed_Forall; [| exact He].
    intros k v Hv. exact Hv.
  - intros _. apply collect_changed_unflagged.
Qed.

Lemma state_ok_update (now : Z) (rtes : list RTE.t) (r : t) :
  state_ok r -> state_ok (state_of (update now rtes r)).
Proof.
  intros H. unfold update.
  destruct (dict_values (inputs r)) as [|sock ?]; [exact H |].
  revert H. generalize (Header.init_host (id r)) as hd.
  generalize (outputs r) at 1 as outs.
  intros outs. revert r.
  induction outs as [|[n info] rest IH]; intros r hd H; simpl; [exact H |].
  destruct (Packet.serialize _); simpl; [exact H |].
  apply IH. now apply (@state_ok_ext r).
Qed.

Lemma state_ok_check_timeout_loop (now : Z) (entries : dict RTE.t) :
  forall r,
    state_ok r ->
    (forall k rte, In (k, rte) entries ->
                   RTE.addr rte = k /\ entry_ok (id r) (k, rte)
                   /\ (k = id r -> RTE.timeout rte = None)) ->
    state_ok (state_of (check_timeout_loop now entries r))
    /\ id (state_of (check_timeout_loop now entries r)) = id r.
Proof.
  induction entries as [|[k rte] rest IH]; intros r H Hin; simpl; [now split |].
  assert (Hrest : forall k' rte', In (k', rte') rest ->
            RTE.addr rte' = k' /\ entry_ok (id r) (k', rte')
            /\ (k' = id r -> RTE.timeout rte' = None))
    by (intros; apply Hin; now right).
  destruct (Hin k rte (or_introl eq_refl)) as (Hk & He & Hself).
  destruct (RTE.timeout rte) as [stamp|] eqn:Et; [| now apply IH].
  destruct (age_ge now stamp ROUTE_TIMEOUT); [| now apply IH].
  assert (Hne : k <> id r) by (intros E; specialize (Hself E); discriminate).
  apply (and_then_state (fun x => state_ok x /\ id x = id r)).
  - split; [| now rewrite id_log].
    apply state_ok_log.
    apply (@state_ok_store_flagged k
             (RTE.set_timeout (Some now)
                (RTE.set_metric RTE.MAX_METRIC
                   (RTE.set_changed true (RTE.set_is_garbage true rte)))) r H Hne Hk).
    destruct He as (Ca & Ct & Cm & Cn & Cme & Cg & Cx).
    cbn [fst snd] in *. destruct (Cx Hne) as (Ci & Cs & C1 & Cd).
    unfold entry_ok, RTE.MAX_METRIC. cbn [fst snd RTE.afi RTE.tag RTE.mask
      RTE.next_hop RTE.metric RTE.is_garbage RTE.imported RTE.timeout RTE.addr
      RTE.set_is_garbage RTE.set_metric RTE.set_changed RTE.set_timeout].
    repeat split; try lia; try discriminate; try assumption.
  - intros r' [H' Hid]. destruct (IH r' H') as [H1 H2].
    + intros k' rte' Hi. rewrite Hid. now apply Hrest.
    + split; [exact H1 | congruence].
Qed.

Lemma state_ok_check_timeout (now : Z) (r : t) :
  state_ok r -> state_ok (state_of (check_timeout now r)).
Proof.
  intros H. apply state_ok_check_timeout_loop; [exact H |].
  intros k rte Hin. destruct H as [Ht He _ _].
  destruct (@table_inv_entries r Ht k rte Hin) as [Hk Hs].
  rewrite Forall_forall in He.
  split; [exact Hk | split; [apply (He _ Hin) |]].
  intros E. apply Hs in E. apply E.
Qed.

Lemma state_ok_delete_loop (to_delete : list Z) :
  forall r, state_ok r -> ~ In (id r) to_delete ->
            state_ok (state_of (delete_loop to_delete r)).
Proof.
  induction to_delete as [|a rest IH]; intros r H Hnot; simpl; [exact H |].
  destruct (dict_del (routing_table r) a) as [tb|] eqn:Ed; [| exact H].
  assert (Ht : table_inv (with_table tb r)).
  { pose proof (@table_inv_delete_loop [a] r (ok_table H)) as Hd.
    simpl in Hd. rewrite Ed in Hd. apply Hd. simpl in *. tauto. }
  apply IH; [| simpl in *; tauto].
  destruct H as [_ He Ho Hf]. split; [exact Ht | | exact Ho |]; simpl.
  - rewrite Forall_forall in *. intros kv Hin. apply He.
    exact (@dict_del_incl _ _ _ _ Ed _ Hin).
  - intros E. specialize (Hf E). unfold unflagged in *.
    rewrite Forall_forall in *. intros kv Hin. apply Hf.
    exact (@dict_del_incl _ _ _ _ Ed _ Hin).
Qed.

Lemma garbage_to_delete_not_self (now : Z) (r : t) (to_delete : list Z) :
  table_inv r ->
  garbage_to_delete now (dict_values (routing_table r)) = inr to_delete ->
  ~ In (id r) to_delete.
Proof.
  intros H Eg Hin.
  destruct (@garbage_to_delete_sound _ _ _ Eg _ Hin) as (rte & Hr & Ha & Hg).
  unfold dict_values in Hr. apply in_map_iff in Hr.
  destruct Hr as ([k v] & Ev & Hkv). simpl in Ev. subst v.
  destruct (@table_inv_entries _ H _ _ Hkv) as [Hk Hs].
  assert (E : k = id r) by congruence.
  apply Hs in E. destruct E as (_ & _ & _ & _ & _ & Hng & _). congruence.
Qed.

Lemma state_ok_check_is_garbage (now : Z) (r : t) :
  state_ok r -> state_ok (state_of (check_is_garbage now r)).
Proof.
  intros H. unfold check_is_garbage.
  destruct (garbage_to_delete now (dict_values (routing_table r)))
    as [e|to_delete] eqn:Eg; [exact H |].
  apply and_then_state.
  - apply state_ok_delete_loop; [exact H |].
    exact (@garbage_to_delete_not_self now r to_delete (ok_table H) Eg).
  - intros r' H'. destruct (0 <? _); [now apply state_ok_log | exact H'].
Qed.

Lemma state_ok_timer (now : Z) (f : timer_fn) (r : t) :
  state_ok r -> state_ok (state_of (timer now f r)).
Proof.
  intros H. unfold timer. destruct (end_life r); [exact H |].
  apply and_then_state.
  - destruct f; [now apply state_ok_update | now apply state_ok_check_timeout
                 | now apply state_ok_check_is_garbage].
  - intros r' H'. now apply (@state_ok_ext r').
Qed.

Lemma config_outputs_ok (outs : list Output.t) :
  forall d d',
    Forall out_entry_ok d ->
    config_outputs outs d = inr d' -> Forall out_entry_ok d'.
Proof.
  induction outs as [|o rest IH]; intros d d' Hd H; simpl in H.
  - now inversion H; subst.
  - destruct (Z.leb_spec 1 (Output.metric o));
      destruct (Z.leb_spec (Output.metric o) 16);
      destruct (Z.leb_spec 1024 (Output.port o));
      destruct (Z.leb_spec (Output.port o) 49151);
      cbn [andb negb orb] in H; try discriminate.
    refine (IH _ _ _ H). apply dict_set_Forall; [exact Hd |].
    unfold out_entry_ok. simpl. lia.
Qed.

Lemma state_ok_init (now : Z) (config : RouterConfig.t) (r : t) :
  init now config = inr r -> state_ok r.
Proof.
  intros Hi. pose proof (@table_inv_init _ _ _ Hi) as Ht. revert Hi.
  unfold init.
  destruct (config_outputs _ _) as [e|outs] eqn:Eo; [discriminate |].
  unfold log_routing_table. cbn [routing_table id dict_set dict_get].
  rewrite Z.eqb_refl. intros H. inversion H; subst; clear H.
  split; [exact Ht | | |]; simpl.
  - constructor; [| constructor].
    unfold entry_ok, RTE.AF_INET. simpl.
    repeat split; try lia; try discriminate; try (intros E; congruence).
  - exact (@config_outputs_ok _ _ _ (Forall_nil _) Eo).
  - intros _. repeat constructor.
Qed.

Lemma state_ok_reachable (r0 r : t) :
  state_ok r0 -> reachable r0 r -> state_ok r.
Proof.
  intros H0. induction 1 as [|r r' _ IH Hs]; [exact H0 |].
  destruct Hs as [now datagrams r | now f r];
    [now apply state_ok_handle_inputs | now apply state_ok_timer].
Qed.

End StateInvariantOps.

(** X4: in every state a router reaches from [__init__] by receives and
    timer ticks, every entry of the routing table sits under its own addr and
    has a metric between 0 and 16; it is garbage exactly when its metric is
    16; and every entry other than the self entry is not imported, carries a
    timeout stamp and has a metric of at least 1. *)
Theorem reachable_table_entries :
  forall (now : Z) (config : RouterConfig.t) (r0 r : Router.t) (k : Z) (e : RTE.t),
    Router.init now config = inr r0 ->
    reachable r0 r ->
    dict_get (Router.routing_table r) k = Some e ->
    RTE.addr e = k
    /\ 0 <= RTE.metric e <= 16
    /\ (RTE.is_garbage e = true <-> RTE.metric e = 16)
    /\ (k <> Router.id r ->
        RTE.imported e = false /\ RTE.timeout e <> None /\ 1 <= RTE.metric e).
Proof.
  intros now config r0 r k e Hi Hr Hg.
  assert (H : state_ok r)
    by (eapply state_ok_reachable; [eapply state_ok_init; exact Hi | exact Hr]).
  destruct (state_ok_entry _ H Hg) as [(_ & _ & _ & _ & Hm & Hgm & Hx) Ha].
  cbn [fst snd] in *. repeat split; try tauto; try lia.
Qed.

Lemma reachable_table_entries_witness :
  Router.init 0 demo_config = inr demo_router
  /\ reachable demo_router
       (Router.state_of
          (Router.timer 40000000 Router.FnCheckTimeout
             (Router.state_of (Router.handle_inputs 7000000 [demo_datagram] demo_router))))
  /\ dict_get
       (Router.routing_table
          (Router.state_of
             (Router.timer 40000000 Router.FnCheckTimeout
                (Router.state_of
                   (Router.handle_inputs 7000000 [demo_datagram] demo_router))))) 2
     = Some (RTE.mk 2 0 2 0 2 16 true false true (Some 40000000))
  /\ 0 <= RTE.metric (RTE.mk 2 0 2 0 2 16 true false true (Some 40000000)) <= 16.
Proof.
  assert (Hi : Router.init 0 demo_config = inr demo_router) by reflexivity.
  assert (Hr : reachable demo_router
       (Router.state_of
          (Router.timer 40000000 Router.FnCheckTimeout
             (Router.state_of (Router.handle_inputs 7000000 [demo_datagram] demo_router))))).
  { eapply reach_step; [eapply reach_step; [apply reach_refl |] |].
    - apply step_receive.
    - apply step_timer. }
  assert (Hg : dict_get
       (Router.routing_table
          (Router.state_of
             (Router.timer 40000000 Router.FnCheckTimeout
                (Router.state_of
                   (Router.handle_inputs 7000000 [demo_datagram] demo_router))))) 2
     = Some (RTE.mk 2 0 2 0 2 16 true false true (Some 40000000)))
    by (vm_compute; reflexivity).
  split; [exact Hi |]. split; [exact Hr |]. split; [exact Hg |].
  exact (proj1 (proj2 (@reachable_table_entries 0 demo_config demo_router _ 2 _
                         Hi Hr Hg))).
Defined.

(** X5: when [handle_inputs] returns, in any reachable state, the
    table-level change flag is cleared and no entry of the routing table is
    flagged as changed. *)
Theorem handle_inputs_clears_change_flags :
  forall (now0 now : Z) (config : RouterConfig.t) (r0 r r' : Router.t)
         (datagrams : list (list byte)),
    Router.init now0 config = inr r0 ->
    reachable r0 r ->
    Router.handle_inputs now datagrams r = Router.Ok r' ->
    Router.changed r' = false /\ unflagged (Router.routing_table r').
Proof.
  intros now0 now config r0 r r' ds Hi Hr.
  assert (H : state_ok r)
    by (eapply state_ok_reachable; [eapply state_ok_init; exact Hi | exact Hr]).
  pose proof (state_ok_receive_loop now ds H) as H1.
  unfold Router.handle_inputs.
  destruct (Router.receive_loop now ds r) as [r1|e r1];
    cbn [Router.and_then Router.state_of] in *; [| discriminate].
  destruct (Router.changed r1) eqn:Ec.
  - unfold Router.log_routing_table.
    destruct (dict_get (Router.routing_table r1) (Router.id r1)) as [s|];
      cbn [Router.and_then]; [| discriminate].
    cbn [Router.emit Router.routing_table].
    pose proof (collect_changed_unflagged (Router.routing_table r1)) as Hu.
    destruct (Router.collect_changed (Router.routing_table r1)) as [c tb].
    intros E. inversion E; subst; clear E. simpl. split; [reflexivity | exact Hu].
  - intros E. inversion E; subst; clear E.
    split; [exact Ec | exact (ok_flags H1 Ec)].
Qed.

Lemma handle_inputs_clears_change_flags_witness :
  Router.init 0 demo_config = inr demo_router
  /\ reachable demo_router demo_router
  /\ Router.handle_inputs 7000000 [demo_datagram] demo_router
     = Router.Ok
         (Router.mk 1 [(5001, 5001)]
            [(2, Router.mk_out 5002 1); (4, Router.mk_out 5004 1)]
            [(1, demo_self);
             (2, RTE.mk 2 0 2 0 2 1 false false false (Some 7000000))]
            false false
            [Router.Log [demo_self];
             Router.Log [demo_self;
                         RTE.mk 2 0 2 0 2 1 true false false (Some 7000000)];
             Router.TimerObj 2
               (Router.CbUpdate
                  [RTE.mk 2 0 2 0 2 1 false false false (Some 7000000)])
               false])
  /\ unflagged
       [(1, demo_self);
        (2, RTE.mk 2 0 2 0 2 1 false false false (Some 7000000))].
Proof.
  assert (Hi : Router.init 0 demo_config = inr demo_router) by reflexivity.
  assert (Hr : reachable demo_router demo_router) by apply reach_refl.
  assert (Hh : Router.handle_inputs 7000000 [demo_datagram] demo_router
     = Router.Ok
         (Router.mk 1 [(5001, 5001)]
            [(2, Router.mk_out 5002 1); (4, Router.mk_out 5004 1)]
            [(1, demo_self);
             (2, RTE.mk 2 0 2 0 2 1 false false false (Some 7000000))]
            false false
            [Router.Log [demo_self];
             Router.Log [demo_self;
                         RTE.mk 2 0 2 0 2 1 true false false (Some 7000000)];
             Router.TimerObj 2
               (Router.CbUpdate
                  [RTE.mk 2 0 2 0 2 1 false false false (Some 7000000)])
               false]))
    by (vm_compute; reflexivity).
  split; [exact Hi |]. split; [exact Hr |]. split; [exact Hh |].
  exact (proj2 (@handle_inputs_clears_change_flags 0 7000000 demo_config
                  demo_router demo_router _ _ Hi Hr Hh)).
Defined.

(* ------------------------------------------------------------------ *)
(** * Beyond the claims: garbage collection *)

Section GarbageCollection.

Import Router.

Lemma garbage_to_delete_filter (now : Z) (rtes : list RTE.t) :
  (forall rte, In rte rtes -> RTE.is_garbage rte = true -> RTE.timeout rte <> None) ->
  garbage_to_delete now rtes = inr (map RTE.addr (filter (collectable now) rtes)).
Proof.
  induction rtes as [|rte rest IH]; intros H; [reflexivity |].
  cbn [garbage_to_delete filter]. unfold collectable at 1.
  rewrite IH by (intros; apply H; [now right | assumption]).
  destruct (RTE.is_garbage rte) eqn:Eg; cbn [andb]; [| reflexivity].
  destruct (RTE.timeout rte) as [stamp|] eqn:Et.
  - destruct (age_ge now stamp DELETE_TIMEOUT); reflexivity.
  - exfalso. apply (H rte (or_introl eq_refl) Eg). exact Et.
Qed.

Lemma addrs_of_filter (c : RTE.t -> bool) (tb : dict RTE.t) :
  keys_are_addrs tb ->
  map RTE.addr (filter c (dict_values tb))
  = map fst (filter (fun kv => c (snd kv)) tb).
Proof.
  unfold keys_are_addrs.
  induction 1 as [|[k v] rest Hkv _ IH]; simpl; [reflexivity |].
  simpl in Hkv. destruct (c v); simpl; now rewrite IH, ?Hkv.
Qed.

Lemma dict_del_app (V : Type) (pre rest : dict V) (k : Z) (v : V) :
  ~ In k (dict_keys pre) ->
  dict_del (pre ++ (k, v) :: rest) k = Some (pre ++ rest).
Proof.
  induction pre as [|[k0 v0] pre IH]; simpl; intros H.
  - now rewrite Z.eqb_refl.
  - destruct (Z.eqb_spec k0 k) as [E|E]; [tauto |].
    rewrite IH by tauto. reflexivity.
Qed.

Lemma delete_loop_filter (c : Z * RTE.t -> bool) (tb : dict RTE.t) :
  forall (pre : dict RTE.t) (r : t),
    NoDup (dict_keys (pre ++ tb)) ->
    delete_loop (map fst (filter c tb)) (with_table (pre ++ tb) r)
    = Ok (with_table (pre ++ filter (fun kv => negb (c kv)) tb) r).
Proof.
  induction tb as [|[k v] rest IH]; intros pre r Hnd; [reflexivity |].
  cbn [filter]. destruct (c (k, v)) eqn:Ec; cbn [negb map fst delete_loop].
  - cbn [routing_table with_table].
    assert (Hk : ~ In k (dict_keys pre)).
    { unfold dict_keys in *. rewrite map_app in Hnd. simpl in Hnd.
      apply NoDup_remove_2 in Hnd. intros Hin. apply Hnd.
      apply in_or_app. now left. }
    rewrite dict_del_app by exact Hk.
    apply (IH pre r).
    unfold dict_keys in *. rewrite map_app in *. simpl in Hnd.
    now apply NoDup_remove_1 in Hnd.
  - replace (pre ++ (k, v) :: rest) with ((pre ++ [(k, v)]) ++ rest) in *
      by (rewrite <- app_assoc; reflexivity).
    rewrite (IH (pre ++ [(k, v)]) r Hnd).
    rewrite <- app_assoc. reflexivity.
Qed.

Lemma with_table_same (r : t) : with_table (routing_table r) r = r.
Proof. destruct r; reflexivity. Qed.

Lemma length_filter_existsb (A : Type) (c : A -> bool) (l : list A) :
  (0 <? Z.of_nat (length (filter c l))) = existsb c l.
Proof.
  induction l as [|x rest IH]; [reflexivity |].
  simpl. destruct (c x); simpl; [| exact IH].
  apply Z.ltb_lt. lia.
Qed.

Lemma filter_none_collectable (A : Type) (c : A -> bool) (l : list A) :
  existsb c l = false -> filter (fun x => negb (c x)) l = l.
Proof.
  induction l as [|x rest IH]; [reflexivity |].
  simpl. intros E. apply orb_false_iff in E. destruct E as [E1 E2].
  rewrite E1. simpl. now rewrite IH.
Qed.

Lemma check_is_garbage_spec (now : Z) (r : t) :
  state_ok r ->
  check_is_garbage now r
  = (if existsb (fun kv => collectable now (snd kv)) (routing_table r)
     then log_routing_table
            (with_table
               (filter (fun kv => negb (collectable now (snd kv))) (routing_table r))
               r)
     else Ok r)
  /\ raised (check_is_garbage now r) = None.
Proof.
  intros Hok. pose proof (ok_table Hok) as Ht.
  assert (Hg : garbage_to_delete now (dict_values (routing_table r))
               = inr (map fst (filter (fun kv => collectable now (snd kv))
                                 (routing_table r)))).
  { rewrite garbage_to_delete_filter.
    - now rewrite addrs_of_filter by apply Ht.
    - intros rte Hin Hgar. unfold dict_values in Hin. apply in_map_iff in Hin.
      destruct Hin as ([k v] & Ev & Hkv). simpl in Ev. subst v.
      destruct Hok as [_ He _ _]. rewrite Forall_forall in He.
      destruct (He _ Hkv) as (_ & _ & _ & _ & _ & Hgm & Hx). cbn [fst snd] in *.
      destruct (Z.eq_dec k (id r)) as [E|E]; [| now apply Hx].
      exfalso. destruct (@table_inv_entries r Ht k rte Hkv) as [_ Hs].
      destruct (Hs E) as (_ & _ & _ & _ & _ & Hng & _). congruence. }
  assert (Hd : delete_loop
                 (map fst (filter (fun kv => collectable now (snd kv)) (routing_table r)))
                 r
               = Ok (with_table
                       (filter (fun kv => negb (collectable now (snd kv)))
                          (routing_table r)) r)).
  { pose proof (@delete_loop_filter (fun kv => collectable now (snd kv))
                  (routing_table r) [] r) as Hl.
    simpl in Hl. rewrite with_table_same in Hl. apply Hl. apply Ht. }
  assert (Heq : check_is_garbage now r
    = (if existsb (fun kv => collectable now (snd kv)) (routing_table r)
       then log_routing_table
              (with_table
                 (filter (fun kv => negb (collectable now (snd kv))) (routing_table r))
                 r)
       else Ok r)).
  { unfold check_is_garbage. rewrite Hg, Hd. cbn [and_then].
    rewrite length_map, length_filter_existsb.
    destruct (existsb _ (routing_table r)) eqn:Ee; [reflexivity |].
    rewrite (filter_none_collectable _ _ Ee). now rewrite with_table_same. }
  split; [exact Heq |].
  pose proof (state_ok_check_is_garbage now Hok) as Hok'.
  rewrite Heq in *.
  destruct (existsb _ (routing_table r)); [| reflexivity].
  unfold log_routing_table in *.
  destruct (dict_get _ _) as [s|] eqn:Es; [reflexivity |].
  exfalso. cbn [state_of] in Hok'.
  destruct (ok_table Hok') as [_ _ (s & Hs & _)]. congruence.
Qed.

End GarbageCollection.

(** X6: in every reachable state [check_is_garbage] returns without an
    exception and deletes exactly the entries that are garbage and whose
    timeout stamp is 30 seconds old or more; the other entries stay, in
    their order and unchanged, and the table is logged once when, and only
    when, something was deleted. *)
Theorem garbage_collection_is_exact :
  forall (now0 now : Z) (config : RouterConfig.t) (r0 r : Router.t),
    Router.init now0 config = inr r0 ->
    reachable r0 r ->
    Router.check_is_garbage now r
    = (if existsb (fun kv => collectable now (snd kv)) (Router.routing_table r)
       then Router.log_routing_table
              (Router.with_table
                 (filter (fun kv => negb (collectable now (snd kv)))
                    (Router.routing_table r))
                 r)
       else Router.Ok r)
    /\ Router.raised (Router.check_is_garbage now r) = None.
Proof.
  intros now0 now config r0 r Hi Hr.
  apply check_is_garbage_spec.
  eapply state_ok_reachable; [eapply state_ok_init; exact Hi | exact Hr].
Qed.

(* ------------------------------------------------------------------ *)
(** * Beyond the claims: the timer tasks *)

Section Timers.

Import Router.

Lemma same_config_refl (r : t) : same_config r r.
Proof. repeat split. Qed.

Lemma same_config_trans (r1 r2 r3 : t) :
  same_config r1 r2 -> same_config r2 r3 -> same_config r1 r3.
Proof.
  unfold same_config. intros (A1 & A2 & A3 & A4) (B1 & B2 & B3 & B4).
  repeat split; congruence.
Qed.

Lemma same_config_and_then (r : t) (o : outcome) (k : t -> outcome) :
  same_config r (state_of o) ->
  (forall r', same_config r' (state_of (k r'))) ->
  same_config r (state_of (o >>> k)).
Proof.
  destruct o as [r1|e r1]; simpl; intros H Hk; [| exact H].
  exact (same_config_trans H (Hk r1)).
Qed.

Lemma same_config_log (r : t) : same_config r (state_of (log_routing_table r)).
Proof.
  unfold log_routing_table.
  destruct (dict_get (routing_table r) (id r)); repeat split.
Qed.

Lemma same_config_update_routing_table_loop (now : Z) (h : option Header.t)
      (rtes : list RTE.t) :
  forall r, same_config r (state_of (update_routing_table_loop now h rtes r)).
Proof.
  induction rtes as [|rte rest IH]; intros r; simpl; [apply same_config_refl |].
  destruct (negb (RTE.addr rte =? id r)); [| apply IH].
  destruct h as [h|]; [| apply same_config_refl].
  destruct (dict_get (outputs r) (Header.src h)) as [out|];
    [| apply same_config_refl].
  destruct (dict_get (routing_table r) (RTE.addr rte)) as [cur|].
  - eapply same_config_trans; [| apply IH].
    repeat match goal with
           | |- context [if ?b then _ else _] => destruct b
           end; repeat split.
  - destruct (_ =? RTE.MAX_METRIC); repeat split.
Qed.

Lemma same_config_receive_loop (now : Z) (datagrams : list (list byte)) :
  forall r, same_config r (state_of (receive_loop now datagrams r)).
Proof.
  induction datagrams as [|data rest IH]; intros r; simpl;
    [apply same_config_refl |].
  destruct (Packet.init_data now data) as [p|]; [| apply same_config_refl].
  apply same_config_and_then; [| exact IH].
  unfold update_routing_table.
  destruct (Packet.rtes p); [| apply same_config_refl].
  apply same_config_update_routing_table_loop.
Qed.

Lemma same_config_handle_inputs (now : Z) (datagrams : list (list byte)) (r : t) :
  same_config r (state_of (handle_inputs now datagrams r)).
Proof.
  unfold handle_inputs.
  apply same_config_and_then; [apply same_config_receive_loop |].
  intros r1. destruct (changed r1); [| apply same_config_refl].
  apply same_config_and_then; [apply same_config_log |].
  intros r2. destruct (collect_changed (routing_table r2)). repeat split.
Qed.

Lemma same_config_update_loop (now sock : Z) (h : option Header.t)
      (rtes : list RTE.t) (outs : dict out_entry) :
  forall r, same_config r (state_of (update_loop now sock h outs rtes r)).
Proof.
  induction outs as [|[n info] rest IH]; intros r; simpl;
    [apply same_config_refl |].
  destruct (Packet.serialize _); simpl; [apply same_config_refl |].
  eapply same_config_trans; [| apply IH]. repeat split.
Qed.

Lemma same_config_check_timeout_loop (now : Z) (entries : dict RTE.t) :
  forall r, same_config r (state_of (check_timeout_loop now entries r)).
Proof.
  induction entries as [|[k rte] rest IH]; intros r; simpl;
    [apply same_config_refl |].
  destruct (RTE.timeout rte) as [stamp|]; [| apply IH].
  destruct (age_ge now stamp ROUTE_TIMEOUT); [| apply IH].
  apply same_config_and_then; [| exact IH].
  eapply same_config_trans; [| apply same_config_log]. repeat split.
Qed.

Lemma same_config_delete_loop (to_delete : list Z) :
  forall r, same_config r (state_of (delete_loop to_delete r)).
Proof.
  induction to_delete as [|a rest IH]; intros r; simpl;
    [apply same_config_refl |].
  destruct (dict_del (routing_table r) a); [| apply same_config_refl].
  eapply same_config_trans; [| apply IH]. repeat split.
Qed.

Lemma same_config_timer (now : Z) (f : timer_fn) (r : t) :
  same_config r (state_of (timer now f r)).
Proof.
  unfold timer. destruct (end_life r) eqn:E; [apply same_config_refl |].
  apply same_config_and_then; [| intros r'; repeat split].
  destruct f.
  - unfold update. destruct (dict_values (inputs r)); [apply same_config_refl |].
    apply same_config_update_loop.
  - apply same_config_check_timeout_loop.
  - unfold check_is_garbage.
    destruct (garbage_to_delete _ _); [apply same_config_refl |].
    apply same_config_and_then; [apply same_config_delete_loop |].
    intros r'. destruct (0 <? _); [apply same_config_log | apply same_config_refl].
Qed.

Lemma same_config_reachable (r0 r : t) : reachable r0 r -> same_config r0 r.
Proof.
  induction 1 as [|r r' _ IH Hs]; [apply same_config_refl |].
  eapply same_config_trans; [exact IH |].
  destruct Hs; [apply same_config_handle_inputs | apply same_config_timer].
Qed.

Lemma init_config (now : Z) (config : RouterConfig.t) (r : t) :
  init now config = inr r ->
  id r = RouterConfig.id config /\ end_life r = false.
Proof.
  unfold init. destruct (config_outputs _ _); [discriminate |].
  unfold log_routing_table. cbn [routing_table id dict_set dict_get].
  rewrite Z.eqb_refl. intros H. inversion H; subst. now split.
Qed.

Lemma validated_rtes_wire_ok (now n : Z) (rtes : list RTE.t) :
  Forall rte_wire_ok rtes -> Forall rte_wire_ok (validated_rtes now n rtes).
Proof.
  induction 1 as [|e rest He _ IH]; simpl; constructor; [| exact IH].
  destruct (RTE.next_hop e =? n); simpl; [| exact He].
  destruct He as (_ & _ & Ha & _ & Hn & _).
  unfold rte_wire_ok, RTE._from_host, RTE.AF_INET, RTE.MAX_METRIC.
  cbn [RTE.afi RTE.tag RTE.addr RTE.mask RTE.next_hop RTE.metric].
  repeat split; lia.
Qed.

Lemma update_loop_ok (now sock : Z) (hd : Header.t) (rtes : list RTE.t)
      (outs : dict out_entry) :
  header_wire_ok hd -> Forall rte_wire_ok rtes ->
  forall r, raised (update_loop now sock (Some hd) outs rtes r) = None.
Proof.
  intros Hh Hl. induction outs as [|[n info] rest IH]; intros r; simpl;
    [reflexivity |].
  destruct (Packet_serialize_ok Hh (validated_rtes_wire_ok now n Hl)) as [bs Hbs].
  unfold Packet._from_host. rewrite Hbs. apply IH.
Qed.

Lemma table_values_wire_ok (r : t) :
  state_ok r -> 0 <= id r < 4294967296 ->
  Forall rte_wire_ok (dict_values (routing_table r)).
Proof.
  intros Hok Hid. pose proof (ok_table Hok) as Ht.
  destruct Hok as [_ He _ _]. rewrite Forall_forall in *.
  intros e Hin. unfold dict_values in Hin. apply in_map_iff in Hin.
  destruct Hin as ([k v] & Ev & Hkv). simpl in Ev. subst v.
  destruct (He _ Hkv) as (Ha & Htg & Hm & Hn & Hme & _ & Hx). cbn [fst snd] in *.
  destruct (@table_inv_entries r Ht k e Hkv) as [Hk _].
  unfold rte_wire_ok. destruct (Z.eq_dec k (id r)) as [E|E].
  - repeat split; lia.
  - destruct (Hx E) as (_ & _ & _ & Hd). repeat split; lia.
Qed.

Lemma timer_ok (now : Z) (f : timer_fn) (r : t) :
  state_ok r -> 1 <= id r <= 65535 ->
  raised (timer now f r) = None
  /\ (end_life r = true
      \/ last (trace (state_of (timer now f r))) (Log [])
         = TimerObj TIMER (CbTimer f) true).
Proof.
  intros Hok Hid. unfold timer. destruct (end_life r); [now split; [| left] |].
  assert (Hf : exists r',
             match f with
             | FnUpdate => update now (dict_values (routing_table r)) r
             | FnCheckTimeout => check_timeout now r
             | FnCheckIsGarbage => check_is_garbage now r
             end = Ok r').
  { destruct f.
    - assert (Hr : raised (update now (dict_values (routing_table r)) r) = None).
      { unfold update. destruct (dict_values (inputs r)); [reflexivity |].
        unfold Header.init_host.
        destruct (Z.eqb_spec (id r) 0) as [E|E]; [lia |].
        apply update_loop_ok.
        - unfold header_wire_ok, Header._from_host, Header.COMMAND_RESPONSE,
            Header.VERSION. simpl. lia.
        - apply table_values_wire_ok; [exact Hok | lia]. }
      destruct (update now (dict_values (routing_table r)) r) as [r'|e r'];
        [now exists r' | discriminate].
    - destruct (check_timeout_get now (ok_table Hok)) as (r' & Hr' & _).
      now exists r'.
    - destruct (check_is_garbage_spec now Hok) as [_ Hr].
      destruct (check_is_garbage now r) as [r'|e r']; [now exists r' | discriminate]. }
  destruct Hf as [r' ->]. cbn [and_then raised state_of emit trace].
  split; [reflexivity | right]. apply last_last.
Qed.

End Timers.

(** X7: for a router whose id fits the header's 16-bit src field and is not
    0, in every reachable state each of the three periodic tasks (update,
    check_timeout, check_is_garbage) run by [timer] returns without an
    exception and, unless end-of-life is set, ends by starting the next Timer
    for the same function after 5 seconds. *)
Theorem timers_never_raise :
  forall (now0 now : Z) (config : RouterConfig.t) (r0 r : Router.t)
         (f : Router.timer_fn),
    Router.init now0 config = inr r0 ->
    1 <= RouterConfig.id config <= 65535 ->
    reachable r0 r ->
    Router.raised (Router.timer now f r) = None
    /\ (Router.end_life r = true
        \/ last (Router.trace (Router.state_of (Router.timer now f r)))
                (Router.Log [])
           = Router.TimerObj Router.TIMER (Router.CbTimer f) true).
Proof.
  intros now0 now config r0 r f Hi Hid Hr.
  apply timer_ok.
  - eapply state_ok_reachable; [eapply state_ok_init; exact Hi | exact Hr].
  - destruct (same_config_reachable Hr) as (E & _).
    destruct (init_config _ _ Hi) as [E0 _]. lia.
Qed.

Lemma garbage_collection_is_exact_witness :
  Router.init 0 demo_config = inr demo_router
  /\ reachable demo_router
       (Router.state_of
          (Router.timer 40000000 Router.FnCheckTimeout
             (Router.state_of (Router.handle_inputs 7000000 [demo_datagram] demo_router))))
  /\ Router.raised
       (Router.check_is_garbage 71000000
          (Router.state_of
             (Router.timer 40000000 Router.FnCheckTimeout
                (Router.state_of
                   (Router.handle_inputs 7000000 [demo_datagram] demo_router)))))
     = None.
Proof.
  assert (Hi : Router.init 0 demo_config = inr demo_router) by reflexivity.
  assert (Hr : reachable demo_router
       (Router.state_of
          (Router.timer 40000000 Router.FnCheckTimeout
             (Router.state_of (Router.handle_inputs 7000000 [demo_datagram] demo_router))))).
  { eapply reach_step; [eapply reach_step; [apply reach_refl |] |].
    - apply step_receive.
    - apply step_timer. }
  split; [exact Hi |]. split; [exact Hr |].
  exact (proj2 (@garbage_collection_is_exact 0 71000000 demo_config demo_router
                  _ Hi Hr)).
Defined.

(** The table of the router that timed out its route to 2 at 40 s, after
    garbage collection at 71 s: the route is gone, the self entry stays. *)
Example garbage_collection_demo :
  Router.routing_table
    (Router.state_of
       (Router.check_is_garbage 71000000
          (Router.state_of
             (Router.timer 40000000 Router.FnCheckTimeout
                (Router.state_of
                   (Router.handle_inputs 7000000 [demo_datagram] demo_router))))))
  = [(1, demo_self)].
Proof. vm_compute. reflexivity. Qed.

Lemma timers_never_raise_witness :
  Router.init 0 demo_config = inr demo_router
  /\ 1 <= RouterConfig.id demo_config <= 65535
  /\ reachable demo_router
       (Router.state_of (Router.handle_inputs 7000000 [demo_datagram] demo_router))
  /\ Router.raised
       (Router.timer 8000000 Router.FnUpdate
          (Router.state_of (Router.handle_inputs 7000000 [demo_datagram] demo_router)))
     = None.
Proof.
  assert (Hi : Router.init 0 demo_config = inr demo_router) by reflexivity.
  assert (Hid : 1 <= RouterConfig.id demo_config <= 65535) by (simpl; lia).
  assert (Hr : reachable demo_router
       (Router.state_of (Router.handle_inputs 7000000 [demo_datagram] demo_router)))
    by (eapply reach_step; [apply reach_refl | apply step_receive]).
  split; [exact Hi |]. split; [exact Hid |]. split; [exact Hr |].
  exact (proj1 (@timers_never_raise 0 8000000 demo_config demo_router _
                  Router.FnUpdate Hi Hid Hr)).
Defined.

(* ------------------------------------------------------------------ *)
(** * Beyond the claims: single receive rules *)

Section ReceiveRules.

Import Router.

Lemma dict_set_absent (V : Type) (d : dict V) (k : Z) (v : V) :
  dict_get d k = None -> dict_set d k v = d ++ [(k, v)].
Proof.
  induction d as [|[k0 v0] rest IH]; simpl; intros H; [reflexivity |].
  destruct (k0 =? k); [discriminate |]. now rewrite IH.
Qed.

End ReceiveRules.

(** X8: an RTE for a destination the table does not hold, received from a
    known neighbour, ends the processing of its datagram. When the metric
    plus the link cost reaches 16 nothing is stored; otherwise the route is
    appended at the end of the table with the sender as next hop, the summed
    metric and its change flag set, and the table-level flag is set; the
    entries already there are not touched. *)
Theorem new_route_is_appended :
  forall (now : Z) (h : Header.t) (rte : RTE.t) (rest : list RTE.t)
         (out : Router.out_entry) (r : Router.t),
    RTE.addr rte <> Router.id r ->
    dict_get (Router.outputs r) (Header.src h) = Some out ->
    dict_get (Router.routing_table r) (RTE.addr rte) = None ->
    Router.update_routing_table now (Packet.mk (Some h) (Some (rte :: rest))) r
    = Router.Ok
        (if 16 <=? RTE.metric rte + Router.metric out then r
         else
           Router.with_changed true
             (Router.with_table
                (Router.routing_table r
                 ++ [(RTE.addr rte,
                      RTE.mk (RTE.afi rte) (RTE.tag rte) (RTE.addr rte)
                        (RTE.mask rte) (Header.src h)
                        (RTE.metric rte + Router.metric out) true
                        (RTE.imported rte) (RTE.is_garbage rte)
                        (RTE.timeout rte))])
                r)).
Proof.
  intros now h rte rest out r Hne Hout Hcur.
  unfold Router.update_routing_table. cbn [Packet.rtes Packet.header].
  cbn [Router.update_routing_table_loop].
  apply Z.eqb_neq in Hne. rewrite Hne. cbn [negb]. rewrite Hout.
  cbn [RTE.addr RTE.set_next_hop RTE.set_metric RTE.metric RTE.set_changed].
  rewrite Hcur. unfold RTE.MAX_METRIC.
  destruct (Z.leb_spec 16 (RTE.metric rte + Router.metric out)) as [E|E].
  - rewrite Z.min_r by lia. reflexivity.
  - rewrite Z.min_l by lia.
    destruct (Z.eqb_spec (RTE.metric rte + Router.metric out) 16); [lia |].
    unfold Router.store. cbn [Router.routing_table Router.with_changed].
    rewrite (dict_set_absent _ _ _ Hcur). reflexivity.
Qed.

Lemma new_route_is_appended_witness :
  RTE.addr (demo_rte3 7000000) <> Router.id demo_router
  /\ dict_get (Router.outputs demo_router) (Header.src (Header.mk 2 2 2))
     = Some (Router.mk_out 5002 1)
  /\ dict_get (Router.routing_table demo_router) (RTE.addr (demo_rte3 7000000)) = None
  /\ Router.update_routing_table 7000000
       (Packet.mk (Some (Header.mk 2 2 2))
          (Some [demo_rte3 7000000; demo_rte2 7000000]))
       demo_router
     = Router.Ok
         (Router.with_changed true
            (Router.with_table
               [(1, demo_self);
                (3, RTE.mk 2 0 3 0 2 2 true false false (Some 7000000))]
               demo_router)).
Proof.
  assert (H1 : RTE.addr (demo_rte3 7000000) <> Router.id demo_router)
    by (simpl; discriminate).
  assert (H2 : dict_get (Router.outputs demo_router) (Header.src (Header.mk 2 2 2))
               = Some (Router.mk_out 5002 1)) by reflexivity.
  assert (H3 : dict_get (Router.routing_table demo_router)
                 (RTE.addr (demo_rte3 7000000)) = None) by reflexivity.
  split; [exact H1 |]. split; [exact H2 |]. split; [exact H3 |].
  exact (@new_route_is_appended 7000000 _ _ [demo_rte2 7000000] _ _ H1 H2 H3).
Defined.

(** X9: an RTE for a destination the table holds through another next hop
    replaces the route only when its metric plus the link cost is strictly
    lower than the stored metric: then the entry takes the sender as next
    hop and the summed metric, is stamped, flagged as changed and no longer
    garbage; on an equal or higher cost the router state stays as it is. *)
Theorem other_neighbour_must_be_strictly_better :
  forall (now : Z) (h : Header.t) (rte cur : RTE.t)
         (out : Router.out_entry) (r : Router.t),
    RTE.addr rte <> Router.id r ->
    dict_get (Router.outputs r) (Header.src h) = Some out ->
    dict_get (Router.routing_table r) (RTE.addr rte) = Some cur ->
    RTE.next_hop cur <> Header.src h ->
    Router.update_routing_table now (Packet.mk (Some h) (Some [rte])) r
    = Router.Ok
        (if Z.min (RTE.metric rte + Router.metric out) 16 <? RTE.metric cur
         then
           Router.with_changed true
             (Router.store (RTE.addr rte)
                (RTE.mk (RTE.afi cur) (RTE.tag cur) (RTE.addr cur) (RTE.mask cur)
                   (Header.src h)
                   (Z.min (RTE.metric rte + Router.metric out) 16)
                   true (RTE.imported cur) false
                   (if RTE.imported cur then None else Some now))
                r)
         else r).
Proof.
  intros now h rte cur out r Hne Hout Hcur Hnh.
  unfold Router.update_routing_table. cbn [Packet.rtes Packet.header].
  cbn [Router.update_routing_table_loop].
  apply Z.eqb_neq in Hne. rewrite Hne. cbn [negb]. rewrite Hout.
  cbn [RTE.addr RTE.set_next_hop RTE.set_metric RTE.metric RTE.next_hop].
  rewrite Hcur.
  destruct (Z.eqb_spec (Header.src h) (RTE.next_hop cur)) as [E|E];
    [congruence |].
  unfold RTE.MAX_METRIC.
  destruct (Z.min (RTE.metric rte + Router.metric out) 16 <? RTE.metric cur);
    reflexivity.
Qed.

Lemma other_neighbour_must_be_strictly_better_witness :
  RTE.addr (demo_rte3 7000000) <> Router.id (demo_router_with demo_route3)
  /\ dict_get (Router.outputs (demo_router_with demo_route3))
       (Header.src (Header.mk 2 2 4)) = Some (Router.mk_out 5004 1)
  /\ dict_get (Router.routing_table (demo_router_with demo_route3))
       (RTE.addr (demo_rte3 7000000)) = Some demo_route3
  /\ RTE.next_hop demo_route3 <> Header.src (Header.mk 2 2 4)
  /\ Router.update_routing_table 7000000
       (Packet.mk (Some (Header.mk 2 2 4)) (Some [demo_rte3 7000000]))
       (demo_router_with demo_route3)
     = Router.Ok (demo_router_with demo_route3).
Proof.
  assert (H1 : RTE.addr (demo_rte3 7000000)
               <> Router.id (demo_router_with demo_route3))
    by (simpl; discriminate).
  assert (H2 : dict_get (Router.outputs (demo_router_with demo_route3))
                 (Header.src (Header.mk 2 2 4)) = Some (Router.mk_out 5004 1))
    by reflexivity.
  assert (H3 : dict_get (Router.routing_table (demo_router_with demo_route3))
                 (RTE.addr (demo_rte3 7000000)) = Some demo_route3)
    by reflexivity.
  assert (H4 : RTE.next_hop demo_route3 <> Header.src (Header.mk 2 2 4))
    by (simpl; discriminate).
  split; [exact H1 |]. split; [exact H2 |]. split; [exact H3 |].
  split; [exact H4 |].
  exact (@other_neighbour_must_be_strictly_better 7000000 _ _ _ _ _ H1 H2 H3 H4).
Defined.

(* ------------------------------------------------------------------ *)
(** * Beyond the claims: the log *)

Section LogSnapshot.

Import Router.

Lemma filter_other_keys_all (me : Z) (tb : dict RTE.t) :
  ~ In me (dict_keys tb) ->
  filter (fun kv => negb (fst kv =? me)) tb = tb.
Proof.
  induction tb as [|[k v] rest IH]; simpl; intros H; [reflexivity |].
  destruct (Z.eqb_spec k me) as [E|E]; [tauto |]. simpl.
  rewrite IH by tauto. reflexivity.
Qed.

Lemma log_snapshot_perm (me : Z) (s : RTE.t) (tb : dict RTE.t) :
  NoDup (dict_keys tb) -> dict_get tb me = Some s ->
  Permutation (s :: dict_values (filter (fun kv => negb (fst kv =? me)) tb))
              (dict_values tb).
Proof.
  induction tb as [|[k v] rest IH]; simpl; intros Hnd Hs; [discriminate |].
  inversion Hnd as [|? ? Hnot Hnd']; subst.
  destruct (Z.eqb_spec k me) as [E|E]; simpl.
  - inversion Hs; subst. rewrite filter_other_keys_all by exact Hnot.
    apply Permutation_refl.
  - eapply perm_trans; [apply perm_swap |].
    apply perm_skip. now apply IH.
Qed.

End LogSnapshot.

(** X10: in every reachable state [log_routing_table] returns without an
    exception and writes one snapshot that starts with the self entry and
    holds every entry of the routing table exactly once. *)
Theorem log_snapshot_holds_every_entry_once :
  forall (now : Z) (config : RouterConfig.t) (r0 r : Router.t),
    Router.init now config = inr r0 ->
    reachable r0 r ->
    exists self others,
      dict_get (Router.routing_table r) (Router.id r) = Some self
      /\ Router.log_routing_table r
         = Router.Ok (Router.emit (Router.Log (self :: others)) r)
      /\ Permutation (self :: others) (dict_values (Router.routing_table r)).
Proof.
  intros now config r0 r Hi Hr.
  assert (H : table_inv r)
    by (eapply table_inv_reachable; [eapply table_inv_init; exact Hi | exact Hr]).
  destruct H as [Hnd _ (s & Hs & _)].
  exists s. eexists. split; [exact Hs |].
  unfold Router.log_routing_table. rewrite Hs. split; [reflexivity |].
  now apply log_snapshot_perm.
Qed.

Lemma log_snapshot_holds_every_entry_once_witness :
  Router.init 0 demo_config = inr demo_router
  /\ reachable demo_router
       (Router.state_of (Router.handle_inputs 7000000 [demo_datagram] demo_router))
  /\ exists self others,
       Router.log_routing_table
         (Router.state_of (Router.handle_inputs 7000000 [demo_datagram] demo_router))
       = Router.Ok
           (Router.emit (Router.Log (self :: others))
              (Router.state_of
                 (Router.handle_inputs 7000000 [demo_datagram] demo_router))).
Proof.
  assert (Hi : Router.init 0 demo_config = inr demo_router) by reflexivity.
  assert (Hr : reachable demo_router
       (Router.state_of (Router.handle_inputs 7000000 [demo_datagram] demo_router)))
    by (eapply reach_step; [apply reach_refl | apply step_receive]).
  split; [exact Hi |]. split; [exact Hr |].
  destruct (@log_snapshot_holds_every_entry_once 0 demo_config demo_router _ Hi Hr)
    as (self & others & _ & Hl & _).
  exists self, others. exact Hl.
Defined.

(* ------------------------------------------------------------------ *)
(** * Beyond the claims: from [update] to the receiver's decoder *)

Section Interop.

Import Router.

Lemma Forall2_In_l (A B : Type) (R : A -> B -> Prop) (l1 : list A) (l2 : list B) :
  Forall2 R l1 l2 -> forall x, In x l1 -> exists y, In y l2 /\ R x y.
Proof.
  induction 1 as [|a b t1 t2 Hab _ IH]; intros x Hin; [contradiction |].
  destruct Hin as [<-|Hin].
  - exists b. split; [now left | exact Hab].
  - destruct (IH x Hin) as (y & Hy & Hxy). exists y. split; [now right | exact Hxy].
Qed.

Lemma In_firstn_In (A : Type) (n : nat) (l : list A) (x : A) :
  In x (firstn n l) -> In x l.
Proof.
  revert l. induction n as [|n IH]; intros l H; [contradiction |].
  destruct l as [|a t]; [contradiction |]. simpl in H.
  destruct H as [<-|H]; [now left | right; now apply IH].
Qed.

Lemma new_events_app (r : t) (o : outcome) (evs : list event) :
  trace (state_of o) = trace r ++ evs -> new_events r o = evs.
Proof.
  intros H. unfold new_events. rewrite H, skipn_app, skipn_all, Nat.sub_diag.
  reflexivity.
Qed.

End Interop.

Section ReceivedPrefix.

Lemma serialize_loop_of_chunks (l : list RTE.t) (chunks : list (list byte)) :
  Forall2 (fun e c => RTE.serialize e = Some c) l chunks ->
  forall packet,
    Packet.serialize_loop packet l = Some (packet ++ concat chunks).
Proof.
  induction 1 as [|e c es cs Hc _ IH]; intros packet; simpl.
  - now rewrite app_nil_r.
  - rewrite Hc. cbn [opt_bind]. rewrite IH, <- app_assoc. reflexivity.
Qed.

Lemma Forall2_firstn (A B : Type) (R : A -> B -> Prop) (l1 : list A) (l2 : list B) :
  Forall2 R l1 l2 -> forall j, Forall2 R (firstn j l1) (firstn j l2).
Proof.
  induction 1 as [|a b t1 t2 Hab _ IH]; intros j.
  - rewrite !firstn_nil. constructor.
  - destruct j as [|j]; simpl; constructor; [exact Hab | apply IH].
Qed.

Lemma firstn_concat_chunks (chunks : list (list byte)) :
  Forall (fun c => length c = 20%nat) chunks ->
  forall j, firstn (20 * j) (concat chunks) = concat (firstn j chunks).
Proof.
  induction 1 as [|c cs Hc _ IH]; intros j.
  - simpl. now rewrite !firstn_nil.
  - destruct j as [|j]; [reflexivity |].
    cbn [concat firstn].
    rewrite firstn_app, Hc.
    replace (20 * S j - 20)%nat with (20 * j)%nat by lia.
    rewrite firstn_all2 by lia. now rewrite IH.
Qed.

Lemma serialize_prefix (h : Header.t) (l : list RTE.t) (bs : list byte) (j : nat) :
  Packet.serialize (Packet.mk (Some h) (Some l)) = inr bs ->
  Packet.serialize (Packet.mk (Some h) (Some (firstn j l)))
  = inr (firstn (4 + 20 * j) bs).
Proof.
  unfold Packet.serialize. cbn [Packet.header Packet.rtes].
  destruct (Header.serialize h) as [hb|] eqn:Eh; [| discriminate].
  destruct (Packet.serialize_loop hb l) as [bs'|] eqn:El; [| discriminate].
  intros H. inversion H; subst bs'; clear H.
  destruct (serialize_loop_concat _ _ El) as (chunks & Hf & ->).
  pose proof (Header_serialize_length _ Eh) as Hhb.
  rewrite (serialize_loop_of_chunks (Forall2_firstn Hf j) hb).
  f_equal. rewrite firstn_app, Hhb.
  rewrite (@firstn_all2 _ (4 + 20 * j)%nat hb) by (rewrite Hhb; lia).
  replace (4 + 20 * j - 4)%nat with (20 * j)%nat by lia.
  rewrite firstn_concat_chunks; [reflexivity |].
  clear -Hf. induction Hf as [|e c es cs Hc _ IH]; constructor;
    [now apply RTE_serialize_length in Hc | exact IH].
Qed.

End ReceivedPrefix.

(** X11: every event [update] adds to the trace is a [sendto], from the
    first input socket to the port of a configured output, of a datagram of
    exactly 4 + 20 k bytes, k being the number of candidate RTEs. What the
    receiver reads of it with [recvfrom(1024)] decodes to the header (cmd 2,
    ver 2, src = the sender's id) and, in order, the first 51 RTEs built for
    that output (all of them when there are no more than 51), a next hop of
    0 being read as the sender's id. *)
Theorem emitted_datagrams_decode :
  forall (now now' : Z) (rtes : list RTE.t) (r : Router.t),
    Forall
      (fun ev =>
         exists sock n info bytes,
           hd_error (dict_values (Router.inputs r)) = Some sock
           /\ In (n, info) (Router.outputs r)
           /\ ev = Router.SendTo sock bytes (Router.port info)
           /\ length bytes = (4 + 20 * length rtes)%nat
           /\ Packet.init_data now' (recvfrom 1024 bytes)
              = Some (Packet.mk (Some (Header.mk 2 2 (Router.id r)))
                        (Some (map (as_received now' (Router.id r))
                                 (firstn 51 (Router.validated_rtes now n rtes))))))
      (new_events r (Router.update now rtes r)).
Proof.
  intros now now' rtes r.
  destruct (update_sends now rtes r) as (sends & Ht & Hs).
  rewrite (@new_events_app _ _ _ Ht).
  destruct (dict_values (Router.inputs r)) as [|sock rest] eqn:Ei.
  - subst sends. constructor.
  - destruct Hs as [Hf _]. rewrite Forall_forall. intros ev Hin.
    destruct (@Forall2_In_l _ _ _ _ _ Hf ev Hin) as ([n info] & Hout & Hd).
    apply In_firstn_In in Hout.
    destruct Hd as (bytes & Hev & Hser & hd & hb & chunks & Hh & _).
    cbn [fst snd] in *.
    exists sock, n, info, bytes.
    unfold Header.init_host in Hh.
    destruct (Router.id r =? 0); [discriminate |].
    inversion Hh; subst hd; clear Hh.
    assert (Hser' : Packet.serialize
                      (Packet.mk (Some (Header._from_host (Router.id r)))
                         (Some (Router.validated_rtes now n rtes))) = inr bytes).
    { unfold Header.init_host, Packet._from_host in Hser.
      destruct (Router.id r =? 0) eqn:E0; [discriminate Hser | exact Hser]. }
    repeat split; try assumption; try reflexivity.
    + rewrite (@Packet_serialize_length
                 (Packet.mk (Some (Header._from_host (Router.id r)))
                    (Some (Router.validated_rtes now n rtes)))
                 (Router.validated_rtes now n rtes) bytes eq_refl Hser').
      f_equal. f_equal.
      clear. induction rtes as [|e t IH]; simpl; [reflexivity | now rewrite IH].
    + unfold recvfrom. change 1024%nat with (4 + 20 * 51)%nat.
      exact (@serialize_then_decode now' _ _ _ (@serialize_prefix _ _ _ 51%nat Hser')).
Qed.

(** Fifty-two candidates make a datagram of 1044 bytes; the receiver reads
    1024 of them and decodes 51 RTEs. *)
Example emitted_datagram_is_cut_at_1024_bytes :
  map (fun ev =>
         match ev with
         | Router.SendTo _ bytes _ =>
             (length bytes,
              match Packet.init_data 9000000 (recvfrom 1024 bytes) with
              | Some (Packet.mk _ (Some l)) => length l
              | _ => 0%nat
              end)
         | _ => (0%nat, 0%nat)
         end)
      (new_events (demo_router_with demo_route3)
         (Router.update 8000000 (repeat demo_route3 52)
            (demo_router_with demo_route3)))
  = [(1044%nat, 51%nat); (1044%nat, 51%nat)].
Proof. vm_compute. reflexivity. Qed.

(** The two datagrams of the periodic update of the router that knows 3
    through 2, as its neighbours decode them at 9 s: the route to 3 arrives
    poisoned at 2 and unchanged at 4; the self entry arrives with the
    sender as next hop. *)
Example emitted_datagrams_demo :
  map (fun ev =>
         match ev with
         | Router.SendTo _ bytes port =>
             (port, option_map Packet.rtes (Packet.init_data 9000000 bytes))
         | _ => (0, None)
         end)
      (new_events (demo_router_with demo_route3)
         (Router.update 8000000 [demo_self; demo_route3]
            (demo_router_with demo_route3)))
  = [(5002, Some (Some [RTE.mk 2 0 1 0 1 0 false false false (Some 9000000);
                        RTE.mk 2 0 3 0 2 16 false false false (Some 9000000)]));
     (5004, Some (Some [RTE.mk 2 0 1 0 1 0 false false false (Some 9000000);
                        RTE.mk 2 0 3 0 2 2 false false false (Some 9000000)]))].
Proof. vm_compute. reflexivity. Qed.

(* ------------------------------------------------------------------ *)
(** * Beyond the claims: receiving the same RTE again *)

Section ReceiveTwice.

Import Router.

Lemma forget_refresh (now : Z) (c : RTE.t) :
  RTE.is_garbage c = false ->
  RTE.set_timeout None (RTE.init_timeout now c) = RTE.set_timeout None c.
Proof.
  destruct c; simpl; intros ->; reflexivity.
Qed.

Lemma map_dict_set_same (f : RTE.t -> RTE.t) (tb : dict RTE.t) (k : Z) (c c' : RTE.t) :
  dict_get tb k = Some c -> f c' = f c ->
  map (fun kv => (fst kv, f (snd kv))) (dict_set tb k c')
  = map (fun kv => (fst kv, f (snd kv))) tb.
Proof.
  intros Hg Hf. induction tb as [|[k0 v0] rest IH]; simpl in *; [discriminate |].
  destruct (Z.eqb_spec k0 k) as [E|E]; simpl.
  - inversion Hg; subst. now rewrite Hf.
  - now rewrite IH.
Qed.

Lemma forget_store_refresh (now : Z) (k : Z) (c : RTE.t) (r : t) :
  dict_get (routing_table r) k = Some c ->
  RTE.is_garbage c = false ->
  forget_timeouts (store k (RTE.init_timeout now c) r) = forget_timeouts r.
Proof.
  intros Hg Hc. unfold forget_timeouts, store, with_table. simpl.
  rewrite (@map_dict_set_same (RTE.set_timeout None) _ _ c _ Hg
             (forget_refresh now c Hc)).
  reflexivity.
Qed.

(** Receiving an RTE that matches the stored route: nothing but a refresh. *)
Lemma receive_matching (now : Z) (h : Header.t) (rte c : RTE.t)
      (out : out_entry) (r : t) :
  RTE.addr rte <> id r ->
  dict_get (outputs r) (Header.src h) = Some out ->
  dict_get (routing_table r) (RTE.addr rte) = Some c ->
  RTE.next_hop c = Header.src h ->
  RTE.metric c = Z.min (RTE.metric rte + metric out) RTE.MAX_METRIC ->
  update_routing_table now (Packet.mk (Some h) (Some [rte])) r
  = Ok (if RTE.is_garbage c then r
        else store (RTE.addr rte) (RTE.init_timeout now c) r).
Proof.
  intros Hne Hout Hc Hn Hm.
  unfold update_routing_table. cbn [Packet.rtes Packet.header].
  cbn [update_routing_table_loop].
  apply Z.eqb_neq in Hne. rewrite Hne. cbn [negb]. rewrite Hout.
  cbn [RTE.addr RTE.set_next_hop RTE.set_metric RTE.metric RTE.next_hop].
  rewrite Hc, Hn, Hm, !Z.eqb_refl. cbn [negb andb].
  destruct (RTE.is_garbage c); reflexivity.
Qed.

Lemma receive_matching_forget (now : Z) (h : Header.t) (rte c : RTE.t)
      (out : out_entry) (r : t) :
  RTE.addr rte <> id r ->
  dict_get (outputs r) (Header.src h) = Some out ->
  dict_get (routing_table r) (RTE.addr rte) = Some c ->
  RTE.next_hop c = Header.src h ->
  RTE.metric c = Z.min (RTE.metric rte + metric out) RTE.MAX_METRIC ->
  raised (update_routing_table now (Packet.mk (Some h) (Some [rte])) r) = None
  /\ forget_timeouts
       (state_of (update_routing_table now (Packet.mk (Some h) (Some [rte])) r))
     = forget_timeouts r.
Proof.
  intros Hne Hout Hc Hn Hm.
  rewrite (@receive_matching now h rte c out r Hne Hout Hc Hn Hm).
  split; [reflexivity |]. cbn [state_of].
  destruct (RTE.is_garbage c) eqn:Eg; [reflexivity |].
  now apply forget_store_refresh.
Qed.

End ReceiveTwice.

(** X12: receiving the same single-RTE datagram a second time (the RTE
    differing from the first decoding by its stamp only) changes nothing in
    the router but timeout stamps: the routing table apart from its stamps,
    every change flag and the table-level flag are as the first receive left
    them, and the second receive raises exactly when the first did. *)
Theorem single_rte_receive_is_idempotent :
  forall (now now' : Z) (h : Header.t) (rte : RTE.t) (r : Router.t),
    Router.raised
      (Router.update_routing_table now'
         (Packet.mk (Some h) (Some [RTE.set_timeout (Some now') rte]))
         (Router.state_of
            (Router.update_routing_table now
               (Packet.mk (Some h) (Some [RTE.set_timeout (Some now) rte])) r)))
    = Router.raised
        (Router.update_routing_table now
           (Packet.mk (Some h) (Some [RTE.set_timeout (Some now) rte])) r)
    /\ forget_timeouts
         (Router.state_of
            (Router.update_routing_table now'
               (Packet.mk (Some h) (Some [RTE.set_timeout (Some now') rte]))
               (Router.state_of
                  (Router.update_routing_table now
                     (Packet.mk (Some h) (Some [RTE.set_timeout (Some now) rte]))
                     r))))
       = forget_timeouts
           (Router.state_of
              (Router.update_routing_table now
                 (Packet.mk (Some h) (Some [RTE.set_timeout (Some now) rte])) r)).
Proof.
  intros now now' h rte r.
  set (p := fun t : Z => Packet.mk (Some h) (Some [RTE.set_timeout (Some t) rte])).
  change (Router.raised
            (Router.update_routing_table now' (p now')
               (Router.state_of (Router.update_routing_table now (p now) r)))
          = Router.raised (Router.update_routing_table now (p now) r)
          /\ forget_timeouts
               (Router.state_of
                  (Router.update_routing_table now' (p now')
                     (Router.state_of (Router.update_routing_table now (p now) r))))
             = forget_timeouts
                 (Router.state_of (Router.update_routing_table now (p now) r))).
  assert (Hcases :
    (exists o, (forall t, Router.update_routing_table t (p t) r = o)
               /\ Router.state_of o = r)
    \/ exists c out,
        Router.raised (Router.update_routing_table now (p now) r) = None
        /\ RTE.addr rte
           <> Router.id (Router.state_of (Router.update_routing_table now (p now) r))
        /\ dict_get
             (Router.outputs
                (Router.state_of (Router.update_routing_table now (p now) r)))
             (Header.src h) = Some out
        /\ dict_get
             (Router.routing_table
                (Router.state_of (Router.update_routing_table now (p now) r)))
             (RTE.addr rte) = Some c
        /\ RTE.next_hop c = Header.src h
        /\ RTE.metric c = Z.min (RTE.metric rte + Router.metric out) RTE.MAX_METRIC).
  { unfold Router.update_routing_table, p. cbn [Packet.rtes Packet.header].
    cbn [Router.update_routing_table_loop].
    cbn [RTE.addr RTE.set_next_hop RTE.set_metric RTE.metric RTE.next_hop
         RTE.set_changed RTE.set_timeout].
    destruct (Z.eqb_spec (RTE.addr rte) (Router.id r)) as [Eid|Eid]; cbn [negb].
    { left. eexists. split; [intros t; reflexivity | reflexivity]. }
    destruct (dict_get (Router.outputs r) (Header.src h)) as [out|] eqn:Eo.
    2:{ left. eexists. split; [intros t; reflexivity | reflexivity]. }
    set (eff := Z.min (RTE.metric rte + Router.metric out) RTE.MAX_METRIC).
    destruct (dict_get (Router.routing_table r) (RTE.addr rte)) as [cur|] eqn:Ec.
    - destruct (Z.eqb_spec (Header.src h) (RTE.next_hop cur)) as [En|En].
      + destruct (Z.eqb_spec (RTE.metric cur) eff) as [Em|Em]; cbn [negb andb].
        * destruct (RTE.is_garbage cur) eqn:Eg; cbn [negb].
          { left. eexists. split; [intros t; reflexivity | reflexivity]. }
          right. eexists. exists out. cbn [Router.raised Router.state_of].
          split; [reflexivity |]. split; [exact Eid |]. split; [exact Eo |].
          split; [apply dict_get_set_same |]. simpl. unfold eff in *.
          split; congruence.
        * destruct (Z.leb_spec RTE.MAX_METRIC eff) as [E16|E16].
          -- right. eexists. exists out. cbn [Router.raised Router.state_of].
             split; [reflexivity |]. split; [exact Eid |]. split; [exact Eo |].
             split; [apply dict_get_set_same |]. simpl.
             unfold eff, RTE.MAX_METRIC in *. split; [congruence | lia].
          -- right. eexists. exists out. cbn [Router.raised Router.state_of].
             split; [reflexivity |]. split; [exact Eid |]. split; [exact Eo |].
             split; [apply dict_get_set_same |]. simpl. split; reflexivity.
      + destruct (eff <? RTE.metric cur).
        * right. eexists. exists out. cbn [Router.raised Router.state_of].
          split; [reflexivity |]. split; [exact Eid |]. split; [exact Eo |].
          split; [apply dict_get_set_same |]. simpl. split; reflexivity.
        * left. eexists. split; [intros t; reflexivity | reflexivity].
    - destruct (eff =? RTE.MAX_METRIC).
      + left. eexists. split; [intros t; reflexivity | reflexivity].
      + right. eexists. exists out. cbn [Router.raised Router.state_of].
        split; [reflexivity |]. split; [exact Eid |]. split; [exact Eo |].
        split; [apply dict_get_set_same |]. simpl. split; reflexivity. }
  destruct Hcases as [(o & Ho & Hs) | (c & out & Hra & Hid & Hout & Hc & Hn & Hm)].
  - rewrite (Ho now), Hs, (Ho now'), ?Hs. now split.
  - destruct (@receive_matching_forget now' h (RTE.set_timeout (Some now') rte)
                c out _ Hid Hout Hc Hn Hm) as [H1 H2].
    fold (p now') in H1, H2. rewrite H1, Hra. split; [reflexivity | exact H2].
Qed.

(** The route to 3 learnt at 7 s and heard again at 12 s: only the stamp
    moves, the flags stay as the first receive left them. *)
Example single_rte_receive_twice_demo :
  Router.routing_table
    (Router.state_of
       (Router.update_routing_table 12000000
          (Packet.mk (Some (Header.mk 2 2 2)) (Some [demo_rte3 12000000]))
          (Router.state_of
             (Router.update_routing_table 7000000
                (Packet.mk (Some (Header.mk 2 2 2)) (Some [demo_rte3 7000000]))
                demo_router))))
  = [(1, demo_self); (3, RTE.mk 2 0 3 0 2 2 true false false (Some 12000000))].
Proof. vm_compute. reflexivity. Qed.

(* ------------------------------------------------------------------ *)
(** * Beyond the claims: configuration *)

Section Configuration.

Import Router.

Lemma find_app_last (A : Type) (f : A -> bool) (l : list A) (x : A) :
  find f (l ++ [x])
  = match find f l with
    | Some y => Some y
    | None => if f x then Some x else None
    end.
Proof.
  induction l as [|a t IH]; simpl; [reflexivity |].
  destruct (f a); [reflexivity | exact IH].
Qed.

Lemma config_outputs_valid (outs : list Output.t) :
  forall d,
    match config_outputs outs d with
    | inr _ => forallb output_valid outs = true
    | inl e => e = ConfigError /\ forallb output_valid outs = false
    end.
Proof.
  induction outs as [|o rest IH]; intros d; simpl; [reflexivity |].
  unfold output_valid at 1 3.
  destruct (1 <=? Output.metric o); destruct (Output.metric o <=? 16);
    destruct (1024 <=? Output.port o); destruct (Output.port o <=? 49151);
    cbn [andb negb orb]; try (split; reflexivity).
  apply IH.
Qed.

Lemma config_outputs_get (outs : list Output.t) :
  forall d d' n,
    config_outputs outs d = inr d' ->
    dict_get d' n
    = match find (fun o => Output.id o =? n) (rev outs) with
      | Some o => Some (mk_out (Output.port o) (Output.metric o))
      | None => dict_get d n
      end.
Proof.
  induction outs as [|o rest IH]; intros d d' n H; simpl in H.
  - inversion H; subst. reflexivity.
  - destruct (negb _ || negb _); [discriminate |].
    rewrite (IH _ _ n H). cbn [rev]. rewrite find_app_last.
    destruct (find _ (rev rest)); [reflexivity |].
    destruct (Z.eqb_spec (Output.id o) n) as [E|E].
    + rewrite E. apply dict_get_set_same.
    + now apply dict_get_set_other.
Qed.

End Configuration.

(** X13: [__init__] raises on the outputs exactly when one of them has a
    metric outside 1..16 or a port outside 1024..49151. Otherwise the new
    router has the configured id, a routing table holding the self entry
    alone (next hop 0, metric 0, imported), a cleared change flag, and an
    outputs mapping that gives, for each neighbour id, the port and metric
    of the last output configured with that id. *)
Theorem init_validates_outputs :
  forall (now : Z) (config : RouterConfig.t),
    match Router.init now config with
    | inr r =>
        forallb output_valid (RouterConfig.outputs config) = true
        /\ Router.id r = RouterConfig.id config
        /\ Router.routing_table r
           = [(RouterConfig.id config,
               RTE.mk 2 0 (RouterConfig.id config) 0 0 0 false true false None)]
        /\ Router.changed r = false
        /\ Router.end_life r = false
        /\ forall n,
            dict_get (Router.outputs r) n
            = option_map
                (fun o => Router.mk_out (Output.port o) (Output.metric o))
                (find (fun o => Output.id o =? n)
                      (rev (RouterConfig.outputs config)))
    | inl e =>
        e = ConfigError
        /\ forallb output_valid (RouterConfig.outputs config) = false
    end.
Proof.
  intros now config. unfold Router.init.
  pose proof (config_outputs_valid (RouterConfig.outputs config) []) as Hv.
  destruct (Router.config_outputs (RouterConfig.outputs config) [])
    as [e|outs] eqn:Eo; [exact Hv |].
  unfold Router.log_routing_table.
  cbn [Router.routing_table Router.id dict_set dict_get].
  rewrite Z.eqb_refl. cbn [Router.emit Router.id Router.routing_table
    Router.changed Router.end_life Router.outputs].
  repeat split; try assumption.
  intros n. rewrite (config_outputs_get _ _ n Eo).
  destruct (find _ _); reflexivity.
Qed.

(* ------------------------------------------------------------------ *)
(** * Beyond the claims: trailing bytes *)

Section TrailingBytes.

Lemma slice_firstn (A : Type) (s e n : nat) (l : list A) :
  (e <= n)%nat -> slice s e (firstn n l) = slice s e l.
Proof.
  intros H. apply slice_ext. intros i Hi. rewrite nth_error_firstn.
  destruct (Nat.ltb_spec i n); [reflexivity | lia].
Qed.

Lemma rte_loop_firstn (now src_id : Z) (data : list byte) (n count : nat) :
  forall rte_start,
    (rte_start + 20 * count <= n)%nat ->
    Packet.rte_loop now src_id (firstn n data) rte_start count
    = Packet.rte_loop now src_id data rte_start count.
Proof.
  induction count as [|c IH]; intros rte_start H; [reflexivity |].
  cbn [Packet.rte_loop].
  rewrite slice_firstn by (unfold RTE.SIZE; lia).
  rewrite IH by (unfold RTE.SIZE; lia). reflexivity.
Qed.

End TrailingBytes.

(** X14: the decoder reads the header and as many whole 20-byte RTEs as
    fit; a datagram of at least 4 bytes decodes to the same packet as its
    longest prefix of the form 4 + 20 k, whatever the bytes that follow. *)
Theorem decode_ignores_trailing_bytes :
  forall (now : Z) (data : list byte),
    (4 <= length data)%nat ->
    Packet.init_data now data
    = Packet.init_data now
        (firstn (4 + 20 * ((length data - 4) / 20)) data).
Proof.
  intros now data H.
  set (k := ((length data - 4) / 20)%nat).
  assert (Hk : (4 + 20 * k <= length data)%nat).
  { pose proof (Nat.Div0.mul_div_le (length data - 4) 20). unfold k. lia. }
  assert (Hlen : length (firstn (4 + 20 * k) data) = (4 + 20 * k)%nat)
    by (rewrite length_firstn; lia).
  destruct data as [|b t] eqn:Ed; [simpl in H; lia |].
  destruct (firstn (4 + 20 * k) (b :: t)) as [|b' t'] eqn:Ef;
    [simpl in Hlen; lia |].
  cbn [Packet.init_data]. rewrite <- Ef in Hlen |- *.
  unfold Packet._from_network.
  rewrite slice_firstn by (unfold Header.SIZE; lia).
  rewrite Hlen. rewrite !rte_count_ge by lia. fold k.
  replace ((4 + 20 * k - 4) / 20)%nat with k
    by (replace (4 + 20 * k - 4)%nat with (k * 20)%nat by lia;
        now rewrite Nat.div_mul).
  destruct (Header._from_network (slice 0 Header.SIZE (b :: t))) as [hd|];
    [| reflexivity].
  cbn [opt_bind].
  rewrite rte_loop_firstn by (unfold Header.SIZE; lia). reflexivity.
Qed.

Lemma decode_ignores_trailing_bytes_witness :
  (4 <= length [x02; x02; x00; x07; xff])%nat
  /\ Packet.init_data 0 [x02; x02; x00; x07; xff]
     = Packet.init_data 0 [x02; x02; x00; x07].
Proof.
  assert (H : (4 <= length [x02; x02; x00; x07; xff])%nat) by (simpl; lia).
  split; [exact H |].
  exact (@decode_ignores_trailing_bytes 0 _ H).
Defined.

(* ------------------------------------------------------------------ *)
(** * Beyond the claims: from timeout to deletion *)

Section Lifecycle.

Import Router.

Lemma dict_get_filter (c : RTE.t -> bool) (tb : dict RTE.t) (k : Z) :
  NoDup (dict_keys tb) ->
  dict_get (filter (fun kv => c (snd kv)) tb) k
  = match dict_get tb k with
    | Some e => if c e then Some e else None
    | None => None
    end.
Proof.
  induction tb as [|[k0 v0] rest IH]; simpl; intros Hnd; [reflexivity |].
  inversion Hnd as [|? ? Hnot Hnd']; subst. specialize (IH Hnd').
  destruct (Z.eqb_spec k0 k) as [E|E].
  - subst k0. destruct (c v0); simpl.
    + now rewrite Z.eqb_refl.
    + rewrite IH, (@dict_get_absent _ rest k Hnot). reflexivity.
  - destruct (c v0); simpl; [| exact IH].
    destruct (Z.eqb_spec k0 k); [contradiction | exact IH].
Qed.

Lemma check_is_garbage_table (now : Z) (r : t) :
  state_ok r ->
  exists r',
    check_is_garbage now r = Ok r'
    /\ routing_table r'
       = filter (fun kv => negb (collectable now (snd kv))) (routing_table r).
Proof.
  intros Hok. destruct (check_is_garbage_spec now Hok) as [Heq Hra].
  destruct (check_is_garbage now r) as [r'|e r'] eqn:E; [| discriminate].
  exists r'. split; [reflexivity |].
  destruct (existsb _ (routing_table r)) eqn:Ee.
  - unfold log_routing_table in Heq. cbn [routing_table with_table id] in Heq.
    destruct (dict_get _ _); inversion Heq; subst; reflexivity.
  - inversion Heq; subst. now rewrite (filter_none_collectable _ _ Ee).
Qed.

End Lifecycle.

(** X15: in a reachable state [check_timeout], run at clock [now], returns
    normally, and so does [check_is_garbage] run at clock [now'] on the very
    state it returned (the order in which [config_timers] arms them). Of an
    entry [e] of the table the two leave this:
    - if the stamp of [e] is 30 seconds old or more at [now], whether [e] is
      live or already garbage, [check_timeout] gives it metric 16, flags it
      garbage and changed and stamps it [now]; [check_is_garbage] then
      deletes it only if [now'] is 30 seconds or more after [now], and
      otherwise keeps it as poisoned;
    - otherwise [check_timeout] leaves [e] as it is, and [check_is_garbage]
      deletes it exactly when it is garbage and its stamp is 30 seconds old
      or more at [now'].
    So a garbage entry whose stamp reaches 30 seconds is stamped anew by
    [check_timeout] and survives a collection that follows within 30
    seconds. *)
Theorem garbage_collection_after_timeout_check :
  forall (now0 now now' : Z) (config : RouterConfig.t) (r0 r : Router.t)
         (k : Z) (e : RTE.t),
    Router.init now0 config = inr r0 ->
    reachable r0 r ->
    dict_get (Router.routing_table r) k = Some e ->
    exists r1 r2,
      Router.check_timeout now r = Router.Ok r1
      /\ Router.check_is_garbage now' r1 = Router.Ok r2
      /\ dict_get (Router.routing_table r1) k
         = Some (if timed_out now e then poisoned_by_timeout now e else e)
      /\ dict_get (Router.routing_table r2) k
         = (if timed_out now e
            then if Router.age_ge now' now Router.DELETE_TIMEOUT then None
                 else Some (poisoned_by_timeout now e)
            else if collectable now' e then None else Some e).
Proof.
  intros now0 now now' config r0 r k e Hi Hr Hg.
  assert (Hok : state_ok r)
    by (eapply state_ok_reachable; [eapply state_ok_init; exact Hi | exact Hr]).
  destruct (check_timeout_get now (ok_table Hok)) as (r1 & Hr1 & Hget).
  pose proof (state_ok_check_timeout now Hok) as Hok1.
  rewrite Hr1 in Hok1. cbn [Router.state_of] in Hok1.
  destruct (check_is_garbage_table now' Hok1) as (r2 & Hr2 & Htb).
  exists r1, r2.
  assert (Hk1 : dict_get (Router.routing_table r1) k = Some (tick_entry now e)).
  { rewrite Hget, Hg. reflexivity. }
  split; [exact Hr1 |]. split; [exact Hr2 |]. split; [exact Hk1 |].
  rewrite Htb.
  rewrite (@dict_get_filter (fun x => negb (collectable now' x)) _ k
             (inv_nodup (ok_table Hok1))).
  rewrite Hk1. unfold tick_entry.
  destruct (timed_out now e).
  - unfold collectable, poisoned_by_timeout.
    cbn [RTE.is_garbage RTE.timeout andb].
    destruct (Router.age_ge now' now Router.DELETE_TIMEOUT); reflexivity.
  - destruct (collectable now' e); reflexivity.
Qed.

(** The route to 2, learnt at 7 s and poisoned by [check_timeout] at 40 s, is
    stamped anew by [check_timeout] at 70 s; the collection that follows
    keeps it. *)
Lemma garbage_collection_after_timeout_check_witness :
  Router.init 0 demo_config = inr demo_router
  /\ reachable demo_router
       (Router.state_of
          (Router.timer 40000000 Router.FnCheckTimeout
             (Router.state_of
                (Router.handle_inputs 7000000 [demo_datagram] demo_router))))
  /\ dict_get
       (Router.routing_table
          (Router.state_of
             (Router.timer 40000000 Router.FnCheckTimeout
                (Router.state_of
                   (Router.handle_inputs 7000000 [demo_datagram] demo_router)))))
       2
     = Some (RTE.mk 2 0 2 0 2 16 true false true (Some 40000000))
  /\ exists r1 r2,
       Router.check_timeout 70000000
         (Router.state_of
            (Router.timer 40000000 Router.FnCheckTimeout
               (Router.state_of
                  (Router.handle_inputs 7000000 [demo_datagram] demo_router))))
       = Router.Ok r1
       /\ Router.check_is_garbage 70000001 r1 = Router.Ok r2
       /\ dict_get (Router.routing_table r2) 2
          = Some (RTE.mk 2 0 2 0 2 16 true false true (Some 70000000)).
Proof.
  assert (Hi : Router.init 0 demo_config = inr demo_router) by reflexivity.
  assert (Hr : reachable demo_router
       (Router.state_of
          (Router.timer 40000000 Router.FnCheckTimeout
             (Router.state_of
                (Router.handle_inputs 7000000 [demo_datagram] demo_router))))).
  { eapply reach_step; [eapply reach_step; [apply reach_refl |] |].
    - apply step_receive.
    - apply step_timer. }
  assert (Hg : dict_get
       (Router.routing_table
          (Router.state_of
             (Router.timer 40000000 Router.FnCheckTimeout
                (Router.state_of
                   (Router.handle_inputs 7000000 [demo_datagram] demo_router)))))
       2
     = Some (RTE.mk 2 0 2 0 2 16 true false true (Some 40000000)))
    by (vm_compute; reflexivity).
  split; [exact Hi |]. split; [exact Hr |]. split; [exact Hg |].
  destruct (@garbage_collection_after_timeout_check 0 70000000 70000001 demo_config
              demo_router _ 2 _ Hi Hr Hg) as (r1 & r2 & H1 & H2 & _ & H3).
  exists r1, r2. split; [exact H1 |]. split; [exact H2 | exact H3].
Defined.

(** Without the [check_timeout] of 70 s the same collection deletes the
    route. *)
Example collection_alone_deletes_the_route :
  dict_get
    (Router.routing_table
       (Router.state_of
          (Router.check_is_garbage 70000001
             (Router.state_of
                (Router.timer 40000000 Router.FnCheckTimeout
                   (Router.state_of
                      (Router.handle_inputs 7000000 [demo_datagram]
                         demo_router)))))))
    2
  = None.
Proof. vm_compute. reflexivity. Qed.

(* ------------------------------------------------------------------ *)
(** * Beyond the claims: when [update] raises *)

Section UpdateRaises.

Import Router.

Lemma Header_serialize_out_of_range (router_id : Z) :
  ~ (0 <= router_id < 65536) ->
  Header.serialize (Header._from_host router_id) = None.
Proof.
  intros H. destruct (Header.serialize (Header._from_host router_id)) as [bs|] eqn:E;
    [| reflexivity].
  apply Header_serialize_wire_ok in E. destruct E as (_ & _ & Hs).
  simpl in Hs. contradiction.
Qed.

Lemma update_raises_spec (now : Z) (r : t) :
  state_ok r ->
  raised (update now (dict_values (routing_table r)) r)
  = if dict_is_empty (inputs r) || dict_is_empty (outputs r) then None
    else if id r =? 0 then Some AttributeError
    else if (1 <=? id r) && (id r <=? 65535) then None
    else Some StructError.
Proof.
  intros Hok. unfold update.
  destruct (inputs r) as [|[p s] ins]; [reflexivity |].
  cbn [dict_values map snd dict_is_empty orb].
  destruct (outputs r) as [|[n info] outs] eqn:Eo; [reflexivity |].
  cbn [dict_is_empty]. unfold Header.init_host.
  destruct (Z.eqb_spec (id r) 0) as [E0|E0]; [reflexivity |].
  destruct (Z.leb_spec 1 (id r)) as [E1|E1];
    [destruct (Z.leb_spec (id r) 65535) as [E2|E2] |]; cbn [andb].
  - apply update_loop_ok.
    + unfold header_wire_ok, Header._from_host, Header.COMMAND_RESPONSE,
        Header.VERSION. simpl. lia.
    + apply table_values_wire_ok; [exact Hok | lia].
  - cbn [update_loop]. unfold Packet.serialize, Packet._from_host.
    cbn [Packet.header Packet.rtes].
    rewrite Header_serialize_out_of_range by lia. reflexivity.
  - cbn [update_loop]. unfold Packet.serialize, Packet._from_host.
    cbn [Packet.header Packet.rtes].
    rewrite Header_serialize_out_of_range by lia. reflexivity.
Qed.

End UpdateRaises.

(** X16: in a reachable state the periodic update raises exactly when the
    router has an input socket and an output and its id does not fit the
    header: an id of 0 builds a header without fields and the first
    [serialize] raises AttributeError; an id below 0 or above 65535 makes
    [struct.pack] raise struct.error; any id from 1 to 65535 sends without
    an exception. *)
Theorem periodic_update_raises_exactly_on_unsendable_id :
  forall (now0 now : Z) (config : RouterConfig.t) (r0 r : Router.t),
    Router.init now0 config = inr r0 ->
    reachable r0 r ->
    Router.raised (Router.update now (dict_values (Router.routing_table r)) r)
    = if dict_is_empty (Router.inputs r) || dict_is_empty (Router.outputs r)
      then None
      else if Router.id r =? 0 then Some AttributeError
      else if (1 <=? Router.id r) && (Router.id r <=? 65535) then None
      else Some StructError.
Proof.
  intros now0 now config r0 r Hi Hr. apply update_raises_spec.
  eapply state_ok_reachable; [eapply state_ok_init; exact Hi | exact Hr].
Qed.

Lemma periodic_update_raises_exactly_on_unsendable_id_witness :
  Router.init 0 (RouterConfig.mk 0 [5000] [Output.mk 2 5002 1])
  = inr (Router.mk 0 [(5000, 5000)] [(2, Router.mk_out 5002 1)]
           [(0, RTE.mk 2 0 0 0 0 0 false true false None)] false false
           [Router.Log [RTE.mk 2 0 0 0 0 0 false true false None]])
  /\ reachable
       (Router.mk 0 [(5000, 5000)] [(2, Router.mk_out 5002 1)]
          [(0, RTE.mk 2 0 0 0 0 0 false true false None)] false false
          [Router.Log [RTE.mk 2 0 0 0 0 0 false true false None]])
       (Router.mk 0 [(5000, 5000)] [(2, Router.mk_out 5002 1)]
          [(0, RTE.mk 2 0 0 0 0 0 false true false None)] false false
          [Router.Log [RTE.mk 2 0 0 0 0 0 false true false None]])
  /\ Router.raised
       (Router.update 5000000 [RTE.mk 2 0 0 0 0 0 false true false None]
          (Router.mk 0 [(5000, 5000)] [(2, Router.mk_out 5002 1)]
             [(0, RTE.mk 2 0 0 0 0 0 false true false None)] false false
             [Router.Log [RTE.mk 2 0 0 0 0 0 false true false None]]))
     = Some AttributeError.
Proof.
  assert (Hi : Router.init 0 (RouterConfig.mk 0 [5000] [Output.mk 2 5002 1])
               = inr (Router.mk 0 [(5000, 5000)] [(2, Router.mk_out 5002 1)]
                        [(0, RTE.mk 2 0 0 0 0 0 false true false None)] false false
                        [Router.Log [RTE.mk 2 0 0 0 0 0 false true false None]]))
    by reflexivity.
  split; [exact Hi |]. split; [apply reach_refl |].
  exact (@periodic_update_raises_exactly_on_unsendable_id 0 5000000 _ _ _ Hi
           (reach_refl _)).
Defined.

(* ------------------------------------------------------------------ *)
(** * Beyond the claims: the sending socket *)

Section SendingSocket.

Import Router.

Lemma config_inputs_head (ports : list Z) :
  forall (d : dict Z) (p : Z),
    hd_error d = Some (p, p) ->
    hd_error (config_inputs ports d) = Some (p, p).
Proof.
  induction ports as [|q rest IH]; intros d p H; [exact H |].
  cbn [config_inputs]. apply IH.
  destruct d as [|[k v] d']; [discriminate |].
  simpl in H. inversion H; subst. simpl.
  destruct (Z.eqb_spec p q) as [E|E]; [now subst | reflexivity].
Qed.

Lemma config_inputs_first (ports : list Z) :
  hd_error (dict_values (config_inputs ports [])) = hd_error ports.
Proof.
  destruct ports as [|p rest]; [reflexivity |].
  cbn [config_inputs dict_set].
  pose proof (@config_inputs_head rest [(p, p)] p eq_refl) as H.
  destruct (config_inputs rest [(p, p)]) as [|[k v] d]; [discriminate |].
  simpl in H. inversion H; subst. reflexivity.
Qed.

End SendingSocket.

(** X17: in every reachable state, [update] sends from the socket of the
    first input port of the configuration, and a router configured without
    input ports sends nothing. *)
Theorem update_sends_from_first_configured_input :
  forall (now0 now : Z) (config : RouterConfig.t) (r0 r : Router.t)
         (rtes : list RTE.t),
    Router.init now0 config = inr r0 ->
    reachable r0 r ->
    match RouterConfig.inputs config with
    | [] => new_events r (Router.update now rtes r) = []
    | port :: _ =>
        Forall (fun ev =>
                  exists bytes dest, ev = Router.SendTo port bytes dest)
               (new_events r (Router.update now rtes r))
    end.
Proof.
  intros now0 now config r0 r rtes Hi Hr.
  assert (Hin : hd_error (dict_values (Router.inputs r))
                = hd_error (RouterConfig.inputs config)).
  { destruct (same_config_reachable Hr) as (_ & -> & _).
    clear Hr. unfold Router.init in Hi.
    destruct (Router.config_outputs _ _); [discriminate |].
    unfold Router.log_routing_table in Hi.
    cbn [Router.routing_table Router.id dict_set dict_get] in Hi.
    rewrite Z.eqb_refl in Hi. inversion Hi; subst. cbn [Router.inputs Router.emit].
    apply config_inputs_first. }
  destruct (update_sends now rtes r) as (sends & Ht & Hs).
  rewrite (@new_events_app _ _ _ Ht).
  destruct (dict_values (Router.inputs r)) as [|sock rest];
    destruct (RouterConfig.inputs config) as [|port ports];
    cbn [hd_error] in Hin; try discriminate.
  - exact Hs.
  - inversion Hin; subst sock. destruct Hs as [Hf _].
    rewrite Forall_forall. intros ev Hev.
    destruct (@Forall2_In_l _ _ _ _ _ Hf ev Hev) as (out & _ & bytes & E & _).
    exists bytes, (Router.port (snd out)). exact E.
Qed.

Lemma update_sends_from_first_configured_input_witness :
  Router.init 0 demo_config = inr demo_router
  /\ reachable demo_router demo_router
  /\ Forall (fun ev => exists bytes dest, ev = Router.SendTo 5001 bytes dest)
       (new_events demo_router
          (Router.update 5000000 [demo_self] demo_router)).
Proof.
  assert (Hi : Router.init 0 demo_config = inr demo_router) by reflexivity.
  split; [exact Hi |]. split; [apply reach_refl |].
  exact (@update_sends_from_first_configured_input 0 5000000 demo_config
           demo_router demo_router [demo_self] Hi (reach_refl _)).
Defined.
